(** * French NAP reconciliation script: a shallow embedding

    The development follows [scripts/debug/scrap-french-nap.py].  The script
    works on values decoded from JSON (datasets of the catalogue, feed
    records, the DMFR document), so the embedding has one type [value] of
    such Python values, the dictionary and string primitives the script
    calls, and then one definition per function of the script:
    [clean_empty_values], [create_feed_record], [write_dmfr_file] and the
    last step of [main].

    Python exceptions are explicit: a computation returns [Ok v] or
    [Raise e].  Text is modelled as [string]: a sequence of characters with
    code points below 256, with Python's case mapping and white space on
    that range.  Numbers are integers. *)

From Stdlib Require Import List String Ascii ZArith Bool Arith Lia.
Import ListNotations.

Local Open Scope list_scope.
Local Open Scope string_scope.

(** ** Python values *)

Unset Elimination Schemes.
Inductive value : Type :=
| VNone : value
| VBool : bool -> value
| VInt : Z -> value
| VStr : string -> value
| VList : list value -> value
| VDict : list (string * value) -> value.
Set Elimination Schemes.

(** A Python [dict] keeps its entries in insertion order; keys are unique. *)
Definition pydict : Type := list (string * value).

Section ValueInduction.
Variable P : value -> Prop.
Hypothesis HNone : P VNone.
Hypothesis HBool : forall b, P (VBool b).
Hypothesis HInt : forall n, P (VInt n).
Hypothesis HStr : forall s, P (VStr s).
Hypothesis HList : forall l, Forall P l -> P (VList l).
Hypothesis HDict : forall d : pydict, Forall (fun kv => P (snd kv)) d -> P (VDict d).

Fixpoint value_ind (v : value) : P v :=
    match v with
    | VNone => HNone
    | VBool b => HBool b
    | VInt n => HInt n
    | VStr s => HStr s
    | VList l =>
        HList l
          ((fix items (l : list value) : Forall P l :=
              match l with
              | [] => Forall_nil P
              | x :: l' => Forall_cons x (value_ind x) (items l')
              end) l)
    | VDict d =>
        HDict d
          ((fix entries (d : pydict) : Forall (fun kv => P (snd kv)) d :=
              match d with
              | [] => Forall_nil _
              | kv :: d' => Forall_cons kv (value_ind (snd kv)) (entries d')
              end) d)
    end.
End ValueInduction.

(** Exceptions the script can meet on decoded JSON. *)
Inductive exn : Type :=
| KeyError
| AttributeError
| TypeError
| ValueError
| RequestException.

Inductive result (A : Type) : Type :=
| Ok : A -> result A
| Raise : exn -> result A.
Arguments Ok {A} _.
Arguments Raise {A} _.

Definition bind {A B : Type} (m : result A) (k : A -> result B) : result B :=
  match m with
  | Ok a => k a
  | Raise e => Raise e
  end.

Notation "x <- m ;; k" := (bind m (fun x => k))
  (at level 61, m at next level, right associativity).

(** [bool(v)]: what [if v:] and [not v] test. *)
Definition truthy (v : value) : bool :=
  match v with
  | VNone => false
  | VBool b => b
  | VInt n => negb (n =? 0)%Z
  | VStr s => negb (s =? "")
  | VList l => match l with [] => false | _ => true end
  | VDict d => match d with [] => false | _ => true end
  end.

Definition truthy_opt (o : option value) : bool :=
  match o with
  | Some v => truthy v
  | None => false
  end.

(** ** Dictionaries *)

(** [d.get(k)]; [None] stands for the absent key. *)
Fixpoint lookup (k : string) (d : pydict) : option value :=
  match d with
  | [] => None
  | (k', v) :: d' => if k' =? k then Some v else lookup k d'
  end.

(** [d[k] = v]: an existing key keeps its place, a new one goes last. *)
Fixpoint setitem (k : string) (v : value) (d : pydict) : pydict :=
  match d with
  | [] => [(k, v)]
  | (k', v') :: d' =>
      if k' =? k then (k', v) :: d' else (k', v') :: setitem k v d'
  end.

(** [d.update(other)]. *)
Definition update (d other : pydict) : pydict :=
  fold_left (fun acc kv => setitem (fst kv) (snd kv) acc) other d.

(** [obj.get(k)]: only a dict has the method. *)
Definition get (obj : value) (k : string) : result (option value) :=
  match obj with
  | VDict d => Ok (lookup k d)
  | _ => Raise AttributeError
  end.

(** [obj.get(k, default)]. *)
Definition get_default (obj : value) (k : string) (dflt : value) : result value :=
  o <- get obj k ;;
  Ok (match o with Some v => v | None => dflt end).

(** [obj[k]] on a dict. *)
Definition getitem (obj : value) (k : string) : result value :=
  match obj with
  | VDict d => match lookup k d with
               | Some v => Ok v
               | None => Raise KeyError
               end
  | _ => Raise TypeError
  end.

(** ** [clean_empty_values] *)

(** [v in (None, "", [], {})] *)
Definition is_empty_value (v : value) : bool :=
  match v with
  | VNone => true
  | VStr s => s =? ""
  | VList [] => true
  | VDict [] => true
  | _ => false
  end.

(** [v in (None, "", [], {}, "unknown")] *)
Definition is_empty_or_unknown (v : value) : bool :=
  match v with
  | VStr s => (s =? "") || (s =? "unknown")
  | _ => is_empty_value v
  end.

Fixpoint clean_empty_values (obj : value) : value :=
  match obj with
  | VDict d =>
      VDict
        ((fix entries (d : pydict) : pydict :=
            match d with
            | [] => []
            | (k, v) :: d' =>
                if is_empty_or_unknown v then entries d'
                else (k, clean_empty_values v) :: entries d'
            end) d)
  | VList l =>
      VList
        ((fix items (l : list value) : list value :=
            match l with
            | [] => []
            | item :: l' =>
                if is_empty_value item then items l'
                else clean_empty_values item :: items l'
            end) l)
  | _ => obj
  end.

(** The two comprehensions, as filter-then-map. *)
Definition clean_entries (d : pydict) : pydict :=
  map (fun kv => (fst kv, clean_empty_values (snd kv)))
      (filter (fun kv => negb (is_empty_or_unknown (snd kv))) d).

Definition clean_items (l : list value) : list value :=
  map clean_empty_values (filter (fun v => negb (is_empty_value v)) l).


(** Python's [==] on decoded JSON: [True == 1], and two dicts are equal when
    they hold the same entries, in any order. *)
Fixpoint py_eqb (a b : value) : bool :=
  match a, b with
  | VNone, VNone => true
  | VBool x, VBool y => Bool.eqb x y
  | VBool x, VInt n => (n =? (if x then 1 else 0))%Z
  | VInt n, VBool x => (n =? (if x then 1 else 0))%Z
  | VInt x, VInt y => (x =? y)%Z
  | VStr x, VStr y => x =? y
  | VList x, VList y =>
      (fix items (x y : list value) : bool :=
         match x, y with
         | [], [] => true
         | u :: x', w :: y' => py_eqb u w && items x' y'
         | _, _ => false
         end) x y
  | VDict x, VDict y =>
      (List.length x =? List.length y)%nat
      && (fix entries (x : pydict) : bool :=
            match x with
            | [] => true
            | (k, u) :: x' =>
                match lookup k y with
                | Some w => py_eqb u w
                | None => false
                end && entries x'
            end) x
  | _, _ => false
  end.

(** [hash(v)] fails on lists and dicts; set and dict keys need it. *)
Definition hashable (v : value) : bool :=
  match v with
  | VList _ | VDict _ => false
  | _ => true
  end.

(** [v in ids] for a set [ids] (the members are hashable by construction). *)
Definition set_mem (v : value) (ids : list value) : result bool :=
  if hashable v then Ok (existsb (py_eqb v) ids) else Raise TypeError.

(** [for x in v]: the elements a loop or a generator sees. *)
Definition iter (v : value) : result (list value) :=
  match v with
  | VList l => Ok l
  | VDict d => Ok (map (fun kv => VStr (fst kv)) d)
  | VStr s => Ok (map (fun c => VStr (String c "")) (list_ascii_of_string s))
  | _ => Raise TypeError
  end.

(** [len(v)] is defined on strings, lists and dicts. *)
Definition has_len (v : value) : bool :=
  match v with
  | VStr _ | VList _ | VDict _ => true
  | _ => false
  end.

(** ** Strings *)

Definition in_range (lo hi : nat) (c : ascii) : bool :=
  let n := nat_of_ascii c in (lo <=? n)%nat && (n <=? hi)%nat.

(** [str.lower] on one character: A-Z and the accented capitals. *)
Definition lower_char (c : ascii) : ascii :=
  if in_range 65 90 c || in_range 192 214 c || in_range 216 222 c
  then ascii_of_nat (nat_of_ascii c + 32)
  else c.

(** [str.upper] on one character.  The three characters below 256 whose upper
    case lies outside that range (181, 223, 255) are left as they are: none
    of them, and none of their images, is a letter of ["GTFS"] or ["-RT"]. *)
Definition upper_char (c : ascii) : ascii :=
  if in_range 97 122 c || in_range 224 246 c || in_range 248 254 c
  then ascii_of_nat (nat_of_ascii c - 32)
  else c.

Fixpoint map_string (f : ascii -> ascii) (s : string) : string :=
  match s with
  | "" => ""
  | String c s' => String (f c) (map_string f s')
  end.

Definition lower (s : string) : string := map_string lower_char s.
Definition upper (s : string) : string := map_string upper_char s.

(** [s.replace(a, b)] for one-character [a] and [b]. *)
Definition replace_char (a b : ascii) (s : string) : string :=
  map_string (fun c => if (c =? a)%char then b else c) s.

(** [sub in s] *)
Fixpoint contains (sub s : string) : bool :=
  if prefix sub s then true
  else match s with
       | "" => false
       | String _ s' => contains sub s'
       end.

(** [s.endswith(suffix)] *)
Fixpoint endswith (s suffix : string) : bool :=
  if s =? suffix then true
  else match s with
       | "" => false
       | String _ s' => endswith s' suffix
       end.

(** [s.replace(cc, c)] for a doubled character [cc]: one pass from the left,
    over occurrences that do not overlap. *)
Fixpoint replace_double (c : ascii) (s : string) : string :=
  match s with
  | "" => ""
  | String a s1 =>
      match s1 with
      | String b s2 =>
          if (a =? c)%char && (b =? c)%char
          then String c (replace_double c s2)
          else String a (replace_double c s1)
      | "" => String a ""
      end
  end.

(** [while cc in s: s = s.replace(cc, c)], by fuel. *)
Fixpoint collapse_loop (fuel : nat) (c : ascii) (s : string) : string :=
  match fuel with
  | O => s
  | S fuel' =>
      if contains (String c (String c "")) s
      then collapse_loop fuel' c (replace_double c s)
      else s
  end.

(** Every pass over a string that still holds a doubled character shortens
    it, so [length s] passes are enough (lemma [collapse_loop_enough]). *)
Definition collapse (c : ascii) (s : string) : string :=
  collapse_loop (String.length s) c s.

Fixpoint lstrip (p : ascii -> bool) (s : string) : string :=
  match s with
  | "" => ""
  | String a s' => if p a then lstrip p s' else s
  end.

Fixpoint rstrip (p : ascii -> bool) (s : string) : string :=
  match s with
  | "" => ""
  | String a s' =>
      match rstrip p s' with
      | "" => if p a then "" else String a ""
      | r => String a r
      end
  end.

(** [s.strip(chars)] with the character set as a predicate. *)
Definition strip (p : ascii -> bool) (s : string) : string :=
  rstrip p (lstrip p s).

(** [str.isspace] below code point 256. *)
Definition is_space (c : ascii) : bool :=
  in_range 9 13 c || in_range 28 32 c
  || (nat_of_ascii c =? 133)%nat || (nat_of_ascii c =? 160)%nat.

Definition strip_space (s : string) : string := strip is_space s.

Definition is_tilde (c : ascii) : bool := (c =? "~")%char.

(** [int(s)] on a text: white space around, an optional sign, decimal
    digits, single underscores between digits. *)

(** The white space [int] skips.  The text is first rewritten so that a
    white space character of code point 127 or above becomes a blank (below
    256: 133 and 160); then blanks, tabs and line ends (9-13, 32) are
    skipped at both ends.  The separators 28-31, which [str.strip] removes,
    are left where they are, and make the text no number. *)
Definition is_int_space (c : ascii) : bool :=
  in_range 9 13 c || (nat_of_ascii c =? 32)%nat
  || (nat_of_ascii c =? 133)%nat || (nat_of_ascii c =? 160)%nat.

(** [sys.get_int_max_str_digits()], as the interpreter starts: a text with
    more digits is refused with [ValueError]. *)
Definition max_str_digits : nat := 4300.

(** The digits of a text, leading zeros included, underscores not. *)
Fixpoint count_digits (s : string) : nat :=
  match s with
  | "" => 0
  | String c s' => (if in_range 48 57 c then 1 else 0) + count_digits s'
  end.

Inductive int_state : Type := AtStart | AfterDigit | AfterUnderscore.

Definition digit_of (c : ascii) : option Z :=
  if in_range 48 57 c then Some (Z.of_nat (nat_of_ascii c - 48)) else None.

Fixpoint parse_digits (st : int_state) (acc : Z) (s : string) : option Z :=
  match s with
  | "" => match st with AfterDigit => Some acc | _ => None end
  | String c s' =>
      match digit_of c with
      | Some d => parse_digits AfterDigit (10 * acc + d)%Z s'
      | None =>
          if (c =? "_")%char
          then match st with
               | AfterDigit => parse_digits AfterUnderscore acc s'
               | _ => None
               end
          else None
      end
  end.

Definition py_int (s : string) : result Z :=
  let t := strip is_int_space s in
  let parsed :=
    match t with
    | String "+" r => parse_digits AtStart 0%Z r
    | String "-" r => option_map Z.opp (parse_digits AtStart 0%Z r)
    | _ => parse_digits AtStart 0%Z t
    end in
  match parsed with
  | Some n =>
      if (max_str_digits <? count_digits t)%nat then Raise ValueError else Ok n
  | None => Raise ValueError
  end.

(** Methods of [str] called on a decoded value. *)
Definition str_lower (v : value) : result string :=
  match v with
  | VStr s => Ok (lower s)
  | _ => Raise AttributeError
  end.

Definition str_upper (v : value) : result string :=
  match v with
  | VStr s => Ok (upper s)
  | _ => Raise AttributeError
  end.

(** ** [create_feed_record]: the feed identifier (lines 304-323) *)

Definition regional_suffixes : list string := ["~fr"; "~france"; "~reunion"].

(** [any(name_component.endswith(suffix) for suffix in [...])] *)
Definition has_regional_suffix (s : string) : bool :=
  existsb (endswith s) regional_suffixes.

(** The name component computed from [dataset['slug'].lower()]. *)
Definition name_component (original_slug : string) : string :=
  let s := replace_char "_" "~" (replace_char "-" "~" original_slug) in
  let s := collapse "~" s in
  let s := strip is_tilde s in
  if has_regional_suffix s then s else s ++ "~fr".

(** [feed_id = f"f-{name_component}"], from the slug as the dataset has it. *)
Definition feed_id_of_slug (slug : string) : string :=
  "f-" ++ name_component (lower slug).

(** ** [create_feed_record]: the licence (lines 357-435) *)

(** What [logging.warning] receives. *)
Inductive warning : Type :=
| NoStaticGtfs (slug : value)
| NoSpdxIdentifier (license_key : string)
| UnknownLicenseType (feed_id license_key : string)
| UrlNotFrench (feed_id : string) (url : value).

Definition license_map : list (string * option string) :=
  [ ("odc-odbl", Some "ODbL-1.0");
    ("lov2", Some "LO-2.0");
    ("fr-lo", Some "LO-2.0");
    ("licence-ouverte", Some "LO-2.0");
    ("other-pd", Some "CC0-1.0");
    ("mobility-licence", Some "LO-2.0");
    ("notspecified", None) ].

Fixpoint license_map_find (k : string) (m : list (string * option string))
  : option (option string) :=
  match m with
  | [] => None
  | (k', v) :: m' => if k' =? k then Some v else license_map_find k m'
  end.

Definition osm_attribution : string :=
  String (ascii_of_nat 194) (String (ascii_of_nat 169) " OpenStreetMap contributors").

Definition odbl_properties : pydict :=
  [ ("share_alike_optional", VStr "no");
    ("attribution_text", VStr osm_attribution);
    ("redistribution_allowed", VStr "yes");
    ("commercial_use_allowed", VStr "yes");
    ("create_derived_product", VStr "yes") ].

Definition open_properties (attribution : string) : pydict :=
  [ ("attribution_text", VStr attribution);
    ("redistribution_allowed", VStr "yes");
    ("commercial_use_allowed", VStr "yes");
    ("create_derived_product", VStr "yes");
    ("share_alike_optional", VStr "yes") ].

(** The defaults for unknown and unspecified licences;
    [title] is [dataset.get("title", "")]. *)
Definition unknown_properties (title : value) : pydict :=
  [ ("attribution_text", title);
    ("redistribution_allowed", VStr "unknown");
    ("commercial_use_allowed", VStr "unknown");
    ("create_derived_product", VStr "unknown");
    ("share_alike_optional", VStr "unknown") ].

Definition string_in (k : string) (l : list string) : bool :=
  existsb (String.eqb k) l.

(** The branch [if dataset.get("licence"):] for a licence that is the string
    [code]: the updated licence dict and the warnings logged. *)
Definition license_for_code (feed_id : string) (title : value)
    (license : pydict) (code : string) : pydict * list warning :=
  let license_key := strip_space (lower code) in
  match license_map_find license_key license_map with
  | Some (Some spdx_id) =>
      let license := setitem "spdx_identifier" (VStr spdx_id) license in
      let license :=
        if license_key =? "odc-odbl" then update license odbl_properties
        else if string_in license_key ["lov2"; "fr-lo"; "licence-ouverte"; "mobility-licence"]
        then update license (open_properties "Licence Ouverte / Open License")
        else if license_key =? "other-pd" then update license (open_properties "")
        else license in
      (license, [])
  | Some None =>
      (update license (unknown_properties title), [NoSpdxIdentifier license_key])
  | None =>
      (update license (unknown_properties title), [UnknownLicenseType feed_id license_key])
  end.

Definition or_none (o : option value) : value :=
  match o with
  | Some v => v
  | None => VNone
  end.

(** Lines 357-435: [feed_record["license"]] once the catalogue entry has been
    read, with the warnings. *)
Definition map_license (feed_id : string) (dataset : value)
  : result (pydict * list warning) :=
  page_url <- get dataset "page_url" ;;
  let license : pydict :=
    if truthy_opt page_url then setitem "url" (or_none page_url) [] else [] in
  licence <- get dataset "licence" ;;
  if truthy_opt licence then
    match or_none licence with
    | VStr code =>
        title <- get_default dataset "title" (VStr "") ;;
        Ok (license_for_code feed_id title license code)
    | _ => Raise AttributeError
    end
  else Ok (license, []).

(** ** [create_feed_record] (lines 290-491) *)

(** [next((r for r in resources if ...), None)]: the resources are examined
    in order, up to the first static GTFS one. *)
Fixpoint first_static_gtfs (rs : list value) : result (option value) :=
  match rs with
  | [] => Ok None
  | r :: rs' =>
      fmt <- get_default r "format" (VStr "") ;;
      u <- str_upper fmt ;;
      if (u =? "GTFS") && negb (endswith u "-RT")
      then Ok (Some r)
      else first_static_gtfs rs'
  end.

Definition realtime_urls : pydict :=
  [ ("static_planned", VList []);
    ("static_historic", VList []);
    ("realtime_alerts", VStr "");
    ("realtime_trip_updates", VStr "");
    ("realtime_vehicle_positions", VStr "");
    ("gbfs_auto_discovery", VStr "");
    ("mds_provider", VStr "") ].

(** [item in container] for a string [item]. *)
Definition py_in (item : string) (container : value) : result bool :=
  match container with
  | VStr s => Ok (contains item s)
  | VList l => Ok (existsb (py_eqb (VStr item)) l)
  | VDict d => Ok (match lookup item d with Some _ => true | None => false end)
  | _ => Raise TypeError
  end.

(** [any(domain in url for domain in domains)] *)
Fixpoint any_domain_in (domains : list string) (url : value) : result bool :=
  match domains with
  | [] => Ok false
  | d :: ds =>
      b <- py_in d url ;;
      if b then Ok true else any_domain_in ds url
  end.

(** [if existing.get(k): feed_record[k] = existing[k]] *)
Definition preserve (k : string) (existing : value) (feed_record : pydict)
  : result pydict :=
  v <- get existing k ;;
  Ok (if truthy_opt v then setitem k (or_none v) feed_record else feed_record).

(** The [if existing_feed:] block (lines 439-479) on the record built so far;
    [license] is the licence of that record. *)
Definition preserve_existing (feed_id : string) (url : value) (license : pydict)
    (existing_feed : value) (feed_record : pydict)
  : result (pydict * list warning) :=
  existing_urls <- get_default existing_feed "urls" (VDict []) ;;
  existing_url <- get existing_urls "static_current" ;;
  warnings <-
    (if truthy_opt existing_url && negb (py_eqb (or_none existing_url) url)
     then
       french <- any_domain_in ["data.gouv.fr"; ".fr/gtfs"] url ;;
       Ok (if french then [] else [UrlNotFrench feed_id url])
     else Ok []) ;;
  feed_versions <- get existing_feed "feed_versions" ;;
  feed_record <-
    (if truthy_opt feed_versions
     then if has_len (or_none feed_versions)
          then Ok (setitem "feed_versions" (or_none feed_versions) feed_record)
          else Raise TypeError
     else Ok feed_record) ;;
  feed_record <- preserve "feed_state" existing_feed feed_record ;;
  existing_name <- get existing_feed "name" ;;
  let feed_record :=
    if negb (truthy_opt (lookup "name" feed_record)) && truthy_opt existing_name
    then setitem "name" (or_none existing_name) feed_record
    else feed_record in
  existing_license <- get_default existing_feed "license" (VDict []) ;;
  existing_spdx <- get existing_license "spdx_identifier" ;;
  let feed_record :=
    if truthy_opt existing_spdx && negb (truthy_opt (lookup "spdx_identifier" license))
    then setitem "license" existing_license feed_record
    else feed_record in
  feed_record <- preserve "languages" existing_feed feed_record ;;
  Ok (feed_record, warnings).

(** Lines 481-488: the tags of the existing feed, under the new ones. *)
Definition merge_tags (tags : pydict) (existing_feed : value) (feed_record : pydict)
  : result pydict :=
  existing_tags <- get existing_feed "tags" ;;
  if truthy_opt existing_tags then
    match or_none existing_tags with
    | VDict t => Ok (setitem "tags" (VDict (update t tags)) feed_record)
    | _ => Raise AttributeError
    end
  else Ok feed_record.

(** The record as it stands before [clean_empty_values] (lines 304-488), for
    the static GTFS resource found. *)
Definition merged_record (dataset : value) (existing_feeds : pydict)
    (gtfs_resource : value) : result (pydict * list warning) :=
  slug <- getitem dataset "slug" ;;
  original_slug <- str_lower slug ;;
  let feed_id := "f-" ++ name_component original_slug in
  url <- getitem gtfs_resource "url" ;;
  title <- get dataset "title" ;;
  dataset_id <- getitem dataset "id" ;;
  let tags : pydict := [("fr_nap_dataset_id", dataset_id)] in
  let urls : pydict :=
    update [("static_current", url)]
           (filter (fun kv => truthy (snd kv)) realtime_urls) in
  lw <- map_license feed_id dataset ;;
  let license := fst lw in
  let feed_record : pydict :=
    [ ("id", VStr feed_id);
      ("spec", VStr "gtfs");
      ("urls", VDict urls);
      ("license", VDict license);
      ("name", or_none title);
      ("tags", VDict tags) ] in
  match lookup feed_id existing_feeds with
  | Some existing_feed =>
      if truthy existing_feed then
        rw <- preserve_existing feed_id url license existing_feed feed_record ;;
        feed_record <- merge_tags tags existing_feed (fst rw) ;;
        Ok (feed_record, (snd lw ++ snd rw)%list)
      else Ok (feed_record, snd lw)
  | None => Ok (feed_record, snd lw)
  end.

(** The result is [None] when the dataset has no static GTFS resource; the
    warnings logged come with it. *)
Definition create_feed_record (dataset : value) (existing_feeds : pydict)
  : result (option value * list warning) :=
  resources <- get_default dataset "resources" (VList []) ;;
  rs <- iter resources ;;
  gtfs_resource <- first_static_gtfs rs ;;
  if truthy_opt gtfs_resource then
    rw <- merged_record dataset existing_feeds (or_none gtfs_resource) ;;
    Ok (Some (clean_empty_values (VDict (fst rw))), snd rw)
  else
    slug <- getitem dataset "slug" ;;
    Ok (None, [NoStaticGtfs slug]).

(** ** [write_dmfr_file]: which feeds are written (lines 500-553) *)

(** What [requests.head(current_url, allow_redirects=True)] gives: an
    exception, or a response with its status and [Content-Length] header. *)
Record response : Type := {
  status_code : Z;
  content_length : option string
}.

Inductive head_outcome : Type :=
| HeadRaises
| HeadResponse (r : response).

(** The three ways the loop body ends for a feed: it is appended to
    [feeds_to_write], it is recorded in [skipped_feeds], or it is appended
    by the [except Exception] handler. *)
Inductive decision : Type :=
| Keep
| Skip
| KeepOnError.

(** [existing_feeds.get(key)] for a key that is any value. *)
Definition dict_get_value (d : pydict) (key : value) : result (option value) :=
  match key with
  | VStr s => Ok (lookup s d)
  | VList _ | VDict _ => Raise TypeError
  | _ => Ok None
  end.

(** The body of the [try:] (lines 515-542). *)
Definition probe_feed (head : value -> head_outcome) (feed feed_version : value)
  : result decision :=
  urls <- getitem feed "urls" ;;
  current_url <- get urls "static_current" ;;
  if truthy_opt current_url then
    match head (or_none current_url) with
    | HeadRaises => Raise RequestException
    | HeadResponse r =>
        if negb (status_code r =? 200)%Z then Ok Keep
        else
          match content_length r with
          | Some cl =>
              if negb (cl =? "") then
                n <- py_int cl ;;
                size_bytes <- get feed_version "size_bytes" ;;
                if py_eqb (VInt n) (or_none size_bytes) then Ok Skip else Ok Keep
              else Ok Keep
          | None => Ok Keep
          end
    end
  else Ok Keep.

(** The loop body for one feed (lines 505-553). *)
Definition feed_decision (head : value -> head_outcome) (existing_feeds : pydict)
    (feed : value) : result decision :=
  feed_id <- getitem feed "id" ;;
  existing_feed_data <- dict_get_value existing_feeds feed_id ;;
  if truthy_opt existing_feed_data then
    feed_version <- get_default (or_none existing_feed_data) "feed_version" (VDict []) ;;
    feed_info <- get_default (or_none existing_feed_data) "feed" (VDict []) ;;
    sha1 <- (if truthy feed_version then get feed_version "sha1" else Ok None) ;;
    if truthy feed_version && truthy_opt sha1 then
      match probe_feed head feed feed_version with
      | Ok d => Ok d
      | Raise _ => Ok KeepOnError
      end
    else Ok Keep
  else Ok Keep.

Fixpoint feeds_to_write (head : value -> head_outcome) (existing_feeds : pydict)
    (new_feeds : list value) : result (list value) :=
  match new_feeds with
  | [] => Ok []
  | feed :: rest =>
      d <- feed_decision head existing_feeds feed ;;
      kept <- feeds_to_write head existing_feeds rest ;;
      Ok (match d with Skip => kept | _ => feed :: kept end)
  end.

(** ** [write_dmfr_file]: the document (lines 568-599) *)

(** The file at [dmfr_path]: absent; a UTF-8 text that is not JSON
    ([JSONDecodeError]); bytes that are no UTF-8 text ([UnicodeDecodeError],
    which the handler of line 588 does not name); or a decoded document. *)
Inductive dmfr_file : Type :=
| NoFile
| Corrupt
| Undecodable
| Document (dmfr_data : value).

(** [{feed['id'] for feed in feeds_to_write}] *)
Fixpoint feed_ids (feeds : list value) : result (list value) :=
  match feeds with
  | [] => Ok []
  | feed :: rest =>
      i <- getitem feed "id" ;;
      if hashable i then
        ids <- feed_ids rest ;;
        Ok (i :: ids)
      else Raise TypeError
  end.

(** [[feed for feed in old if feed.get('id') not in new_feed_ids]] *)
Fixpoint preserved_feeds (new_feed_ids : list value) (old : list value)
  : result (list value) :=
  match old with
  | [] => Ok []
  | feed :: rest =>
      i <- get feed "id" ;;
      b <- set_mem (or_none i) new_feed_ids ;;
      kept <- preserved_feeds new_feed_ids rest ;;
      Ok (if b then kept else feed :: kept)
  end.

(** The list [feeds] (lines 568-590).  [json.load] raises
    [UnicodeDecodeError], a [ValueError], on a file that is no UTF-8 text;
    the handler catches [JSONDecodeError] and [FileNotFoundError] only. *)
Definition combined_feeds (file : dmfr_file) (to_write : list value)
  : result (list value) :=
  match file with
  | Document dmfr_data =>
      new_feed_ids <- feed_ids to_write ;;
      old <- get_default dmfr_data "feeds" (VList []) ;;
      old_feeds <- iter old ;;
      preserved <- preserved_feeds new_feed_ids old_feeds ;;
      Ok (preserved ++ to_write)%list
  | NoFile | Corrupt => Ok to_write
  | Undecodable => Raise ValueError
  end.

(** What [json.dump] receives (lines 568-599). *)
Definition written_feeds (file : dmfr_file) (to_write : list value)
  : result (list value) :=
  feeds <- combined_feeds file to_write ;;
  Ok (map clean_empty_values feeds).

(** The file after the call.  The write itself is taken to succeed; the log
    and the CSV export of the skipped feeds are left out. *)
Definition write_dmfr_file (head : value -> head_outcome)
    (new_feeds : list value) (existing_feeds : pydict) (file : dmfr_file)
  : result dmfr_file :=
  to_write <- feeds_to_write head existing_feeds new_feeds ;;
  cleaned_feeds <- written_feeds file to_write ;;
  Ok (Document (VDict [("feeds", VList cleaned_feeds)])).

(** ** [check_feed_versions] and the end of [main] (lines 938-963) *)

(** A row of the query over the fetched feed versions. *)
Record db_row : Type := {
  onestop_id : value;
  db_sha1 : value;
  db_url : value;
  db_size_bytes : value
}.

(** The ['status'] a row is given: ['match'] (the row goes to
    [duplicates]), ['changed'] (with the hash Transitland has, [old_sha1])
    or ['new']. *)
Inductive version_status : Type :=
| StatusMatch
| StatusChanged (old_sha1 : value)
| StatusNew.

(** The body of the loop (lines 805-848) for one row. *)
Definition row_status (existing_feeds : pydict) (row : db_row)
  : result version_status :=
  feed_data <- dict_get_value existing_feeds (onestop_id row) ;;
  if truthy_opt feed_data then
    feed_version <- get_default (or_none feed_data) "feed_version" (VDict []) ;;
    api_sha1 <- get feed_version "sha1" ;;
    if truthy_opt api_sha1 then
      Ok (if py_eqb (or_none api_sha1) (db_sha1 row) then StatusMatch
          else StatusChanged (or_none api_sha1))
    else Ok StatusNew
  else Ok StatusNew.

(** An entry of [new_versions]: the row and its status. *)
Definition new_version : Type := (db_row * version_status)%type.

(** The loop of [check_feed_versions]: the rows that go to [duplicates] and
    those that go to [new_versions]. *)
Fixpoint classify_versions (existing_feeds : pydict) (db_results : list db_row)
  : result (list db_row * list new_version) :=
  match db_results with
  | [] => Ok ([], [])
  | row :: rest =>
      status <- row_status existing_feeds row ;;
      r <- classify_versions existing_feeds rest ;;
      Ok (match status with
          | StatusMatch => (row :: fst r, snd r)
          | _ => (fst r, (row, status) :: snd r)
          end)
  end.

Definition is_new (nv : new_version) : bool :=
  match snd nv with
  | StatusNew => true
  | _ => false
  end.

(** The export of [new_versions] (lines 878-885):
    [csv.DictWriter(f, fieldnames=['feed_id', 'old_sha1', 'new_sha1', 'url',
    'size_bytes', 'status']).writerows(new_versions)].  An entry of status
    ['new'] holds the key ['sha1'], which is none of the field names, and
    the writer raises [ValueError] on it; an entry of status ['changed']
    holds field names only.  The export of [duplicates] (lines 870-876)
    names every key of its entries. *)
Definition export_new_versions (new_versions : list new_version) : result unit :=
  if existsb is_new new_versions then Raise ValueError else Ok tt.

(** The loop, then the exports; any exception ends in [return [], []]
    (lines 887-905).  The rows are those the query returned. *)
Definition check_feed_versions (db_results : list db_row) (existing_feeds : pydict)
  : list db_row * list new_version :=
  match (r <- classify_versions existing_feeds db_results ;;
         exported <- export_new_versions (snd r) ;;
         Ok r) with
  | Ok r => r
  | Raise _ => ([], [])
  end.

(** [{d['feed_id'] for d in duplicates}] *)
Fixpoint unchanged_ids_of (duplicates : list db_row) : result (list value) :=
  match duplicates with
  | [] => Ok []
  | d :: rest =>
      if hashable (onestop_id d) then
        ids <- unchanged_ids_of rest ;;
        Ok (onestop_id d :: ids)
      else Raise TypeError
  end.

(** [[f for f in new_feeds if f['id'] not in unchanged_ids]] *)
Fixpoint without_unchanged (unchanged_ids : list value) (new_feeds : list value)
  : result (list value) :=
  match new_feeds with
  | [] => Ok []
  | f :: rest =>
      i <- getitem f "id" ;;
      b <- set_mem i unchanged_ids ;;
      kept <- without_unchanged unchanged_ids rest ;;
      Ok (if b then kept else f :: kept)
  end.

(** Lines 955-959: "Remove unchanged feeds from DMFR file". *)
Definition remove_unchanged (head : value -> head_outcome)
    (new_feeds : list value) (existing_feeds : pydict)
    (duplicates : list db_row) (file : dmfr_file) : result dmfr_file :=
  unchanged_ids <- unchanged_ids_of duplicates ;;
  kept <- without_unchanged unchanged_ids new_feeds ;;
  write_dmfr_file head kept existing_feeds file.

(** Lines 938-963.  [head1] and [head2] answer the probes of the two writes;
    [db] is what the sync and fetch step leaves: nothing, or the rows of the
    feed versions it fetched. *)
Definition main_write_and_confirm (head1 head2 : value -> head_outcome)
    (db : option (list db_row)) (new_feeds : list value)
    (existing_feeds : pydict) (file : dmfr_file) : result dmfr_file :=
  file1 <- write_dmfr_file head1 new_feeds existing_feeds file ;;
  match new_feeds, db with
  | _ :: _, Some db_results =>
      match fst (check_feed_versions db_results existing_feeds) with
      | [] => Ok file1
      | duplicates =>
          remove_unchanged head2 new_feeds existing_feeds duplicates file1
      end
  | _, _ => Ok file1
  end.

(** * Properties stated about the script *)

(** ** Strings *)

Fixpoint all_chars (p : ascii -> bool) (s : string) : bool :=
  match s with
  | "" => true
  | String c s' => p c && all_chars p s'
  end.

(** The doubled character [cc] occurs in [s]. *)
Fixpoint has_double (c : ascii) (s : string) : bool :=
  match s with
  | "" => false
  | String a s1 =>
      match s1 with
      | "" => false
      | String b _ => ((a =? c)%char && (b =? c)%char) || has_double c s1
      end
  end.

Definition starts_with (p : ascii -> bool) (s : string) : bool :=
  match s with
  | "" => false
  | String c _ => p c
  end.

Fixpoint last_is (p : ascii -> bool) (s : string) : bool :=
  match s with
  | "" => false
  | String c s' => match s' with "" => p c | _ => last_is p s' end
  end.

(** [lower] leaves the character as it is. *)
Definition lower_fixed (c : ascii) : bool := (lower_char c =? c)%char.

Definition is_lower_case (s : string) : bool := all_chars lower_fixed s.

(** A capital letter: [lower] changes it. *)
Definition has_upper (s : string) : bool := negb (all_chars lower_fixed s).

Definition is_lower_letter (c : ascii) : bool :=
  in_range 97 122 c || in_range 223 246 c || in_range 248 255 c.

Definition has_lower (s : string) : bool :=
  negb (all_chars (fun c => negb (is_lower_letter c)) s).

(** A slug "containing mixed case and both '-' and '_'". *)
Definition mixed_slug (slug : string) : bool :=
  has_upper slug && has_lower slug && contains "-" slug && contains "_" slug.

(** What the replacements leave: lower case, and neither '-' nor '_'. *)
Definition component_char (c : ascii) : bool :=
  lower_fixed c && negb (c =? "-")%char && negb (c =? "_")%char.

(** The identifier ends with two regional suffixes in a row. *)
Definition ends_with_two_suffixes (s : string) : Prop :=
  exists p s1 s2,
    In s1 regional_suffixes /\ In s2 regional_suffixes
    /\ s = p ++ s1 ++ s2.

(** The separated, collapsed and stripped slug, before the suffix. *)
Definition stripped_slug (original_slug : string) : string :=
  strip is_tilde
    (collapse "~" (replace_char "_" "~" (replace_char "-" "~" original_slug))).

(** ** Stripped values *)

Definition is_none_or_blank (v : value) : bool :=
  match v with
  | VNone => true
  | VStr s => s =? ""
  | _ => false
  end.

Definition is_unknown (v : value) : bool :=
  match v with
  | VStr s => s =? "unknown"
  | _ => false
  end.

(** At no depth is a value of a mapping absent, an empty string or
    ["unknown"], or an item of a sequence absent or an empty string. *)
Fixpoint no_placeholder (v : value) : bool :=
  match v with
  | VDict d =>
      (fix entries (d : pydict) : bool :=
         match d with
         | [] => true
         | (_, x) :: d' =>
             negb (is_none_or_blank x) && negb (is_unknown x)
             && no_placeholder x && entries d'
         end) d
  | VList l =>
      (fix items (l : list value) : bool :=
         match l with
         | [] => true
         | x :: l' => negb (is_none_or_blank x) && no_placeholder x && items l'
         end) l
  | _ => true
  end.

(** At no depth is a value of a mapping or an item of a sequence absent, an
    empty string, an empty sequence, an empty mapping or ["unknown"]. *)
Fixpoint fully_stripped (v : value) : bool :=
  match v with
  | VDict d =>
      (fix entries (d : pydict) : bool :=
         match d with
         | [] => true
         | (_, x) :: d' =>
             negb (is_empty_or_unknown x) && fully_stripped x && entries d'
         end) d
  | VList l =>
      (fix items (l : list value) : bool :=
         match l with
         | [] => true
         | x :: l' =>
             negb (is_empty_or_unknown x) && fully_stripped x && items l'
         end) l
  | _ => true
  end.

(** ** Sample data *)

Definition sample_resource : pydict :=
  [("format", VStr "GTFS"); ("url", VStr "http://x/a.zip")].

Definition sample_resources : value := VList [VDict sample_resource].

(** A dataset with a licence code the table does not know and no title. *)
Definition dataset_unknown_licence : value :=
  VDict [ ("slug", VStr "acme-metro");
          ("id", VStr "abc123");
          ("licence", VStr "unknown-code-xyz");
          ("resources", sample_resources) ].

(** The feed Transitland already has under the identifier of that dataset. *)
Definition prior_acme_fields : pydict :=
  [ ("name", VStr "Acme (old)");
    ("feed_versions",
     VList [VDict [("sha1", VStr "abc"); ("url", VStr "")]]);
    ("feed_state", VStr "unknown");
    ("languages", VList [VStr "unknown"]);
    ("tags", VDict [("operator", VStr "acme");
                    ("fr_nap_dataset_id", VStr "old")]) ].

Definition prior_acme : value := VDict prior_acme_fields.

Definition existing_acme : pydict := [("f-acme~metro~fr", prior_acme)].

(** ** The licence *)

(** [dataset.get("title", "")] *)
Definition title_of (d : pydict) : value :=
  match lookup "title" d with
  | Some t => t
  | None => VStr ""
  end.

Definition dataset_titled (code : string) : pydict :=
  [ ("slug", VStr "acme-metro");
    ("id", VStr "abc123");
    ("title", VStr "Acme Metro");
    ("licence", VStr code);
    ("resources", sample_resources) ].

(** ** The merge with the existing feed *)

(** [x in v] is defined for a string [x]. *)
Definition is_container (v : value) : bool :=
  match v with
  | VStr _ | VList _ | VDict _ => true
  | _ => false
  end.

Definition none_or_dict (o : option value) : bool :=
  match o with
  | None | Some (VDict _) => true
  | _ => false
  end.

Definition falsy_or_dict (o : option value) : bool :=
  match o with
  | Some (VDict _) => true
  | _ => negb (truthy_opt o)
  end.

(** [existing_feed.get('urls', {}).get('static_current')] *)
Definition existing_url_of (e : pydict) : option value :=
  match lookup "urls" e with
  | Some (VDict u) => lookup "static_current" u
  | _ => None
  end.

(** [existing_feed.get('license', {})] *)
Definition existing_license_of (e : pydict) : value :=
  match lookup "license" e with
  | Some l => l
  | None => VDict []
  end.

(** [license.get('spdx_identifier')] *)
Definition spdx_of (license : value) : option value :=
  match license with
  | VDict l => lookup "spdx_identifier" l
  | _ => None
  end.

(** The fields of the existing feed have the types the script expects, so
    that reading them raises nothing; [url] is the new static URL. *)
Definition prior_ok (url : value) (e : pydict) : bool :=
  none_or_dict (lookup "urls" e)
  && (negb (truthy_opt (existing_url_of e)
            && negb (py_eqb (or_none (existing_url_of e)) url))
      || is_container url)
  && (negb (truthy_opt (lookup "feed_versions" e))
      || has_len (or_none (lookup "feed_versions" e)))
  && none_or_dict (lookup "license" e)
  && falsy_or_dict (lookup "tags" e).

(** The licence of the existing feed is taken over. *)
Definition license_preserved (license : pydict) (e : pydict) : bool :=
  truthy_opt (spdx_of (existing_license_of e))
  && negb (truthy_opt (lookup "spdx_identifier" license)).

(** The record that the [if existing_feed:] block leaves when it raises
    nothing. *)
Definition preserved_record (license : pydict) (e : pydict) (feed_record : pydict)
  : pydict :=
  let feed_record :=
    if truthy_opt (lookup "feed_versions" e)
    then setitem "feed_versions" (or_none (lookup "feed_versions" e)) feed_record
    else feed_record in
  let feed_record :=
    if truthy_opt (lookup "feed_state" e)
    then setitem "feed_state" (or_none (lookup "feed_state" e)) feed_record
    else feed_record in
  let feed_record :=
    if negb (truthy_opt (lookup "name" feed_record)) && truthy_opt (lookup "name" e)
    then setitem "name" (or_none (lookup "name" e)) feed_record
    else feed_record in
  let feed_record :=
    if license_preserved license e
    then setitem "license" (existing_license_of e) feed_record
    else feed_record in
  if truthy_opt (lookup "languages" e)
  then setitem "languages" (or_none (lookup "languages" e)) feed_record
  else feed_record.

(** The tags of the record: those of the existing feed with the new ones
    written over them. *)
Definition merged_tags (tags : pydict) (e : pydict) : pydict :=
  match lookup "tags" e with
  | Some (VDict t) => if truthy (VDict t) then update t tags else tags
  | _ => tags
  end.

(** The record of lines 332-343, with its licence filled in. *)
Definition base_record (feed_id : string) (url : value) (license : pydict)
    (title dataset_id : value) : pydict :=
  [ ("id", VStr feed_id);
    ("spec", VStr "gtfs");
    ("urls", VDict [("static_current", url)]);
    ("license", VDict license);
    ("name", title);
    ("tags", VDict [("fr_nap_dataset_id", dataset_id)]) ].

(** The licence field of the dataset is absent, falsy or a string. *)
Definition licence_ok (d : pydict) : bool :=
  match lookup "licence" d with
  | Some (VStr _) => true
  | o => negb (truthy_opt o)
  end.

(** What [existing_feeds.get(feed_id)] may be for the call to raise
    nothing: absent, falsy, or a dict with fields of the expected types. *)
Definition prior_fine (url : value) (o : option value) : bool :=
  match o with
  | None => true
  | Some (VDict e) => match e with [] => true | _ => prior_ok url e end
  | Some v => negb (truthy v)
  end.

(** The record before the strip pass, when nothing is raised; [tags] are
    the new tags. *)
Definition merged_with (o : option value) (license tags : pydict)
    (feed_record : pydict) : pydict :=
  match o with
  | Some (VDict (kv :: e)) =>
      let feed_record := preserved_record license (kv :: e) feed_record in
      match lookup "tags" (kv :: e) with
      | Some (VDict t) =>
          if truthy (VDict t)
          then setitem "tags" (VDict (update t tags)) feed_record
          else feed_record
      | _ => feed_record
      end
  | _ => feed_record
  end.

(** The existing feed has a licence with an [spdx_identifier]. *)
Definition prior_has_spdx (o : option value) : bool :=
  match o with
  | Some (VDict e) => truthy_opt (spdx_of (existing_license_of e))
  | _ => false
  end.

(** A dataset with a page but no licence code. *)
Definition dataset_no_licence : pydict :=
  [ ("slug", VStr "acme-metro");
    ("id", VStr "abc123");
    ("page_url", VStr "https://example.fr/acme");
    ("resources", sample_resources) ].

(** ** The change detector *)

(** [existing_feed_data.get('feed_version', {})] *)
Definition prior_version (prior : pydict) : value :=
  match lookup "feed_version" prior with
  | Some v => v
  | None => VDict []
  end.

(** The version of the existing feed is a dict, or falsy. *)
Definition version_ok (prior : pydict) : bool :=
  match prior_version prior with
  | VDict _ => true
  | v => negb (truthy v)
  end.


Definition sample_feed (feed_id : string) (name : string) : value :=
  VDict [ ("id", VStr feed_id);
          ("urls", VDict [("static_current", VStr "http://x/a.zip")]);
          ("name", VStr name) ].

(** What Transitland knows, as [get_existing_french_feeds] returns it: one
    feed, with the hash of its version. *)
Definition transitland_feed_b : value :=
  VDict [ ("onestop_id", VStr "f-b~fr");
          ("spec", VStr "GTFS");
          ("urls", VDict [("static_current", VStr "http://x/a.zip")]) ].

Definition directory_b : pydict :=
  [ ("f-b~fr",
     VDict [ ("feed", transitland_feed_b);
             ("feed_version",
              VDict [("sha1", VStr "h1"); ("feed", transitland_feed_b)]) ]) ].

(** The same, with the size of that version known. *)
Definition directory_b_sized : pydict :=
  [ ("f-b~fr",
     VDict [ ("feed", transitland_feed_b);
             ("feed_version",
              VDict [("sha1", VStr "h1"); ("size_bytes", VInt 1000)]) ]) ].

(** A probe answered with status 200 and the given [Content-Length]. *)
Definition head_reporting (cl : option string) (url : value) : head_outcome :=
  HeadResponse {| status_code := 200; content_length := cl |}.

Definition head_failing (url : value) : head_outcome := HeadRaises.

(** ** The document written *)

(** [feed.get('id')] *)
Definition id_of (feed : value) : value :=
  match feed with
  | VDict d => or_none (lookup "id" d)
  | _ => VNone
  end.

(** A feed to write: a dict with a hashable ["id"]. *)
Definition writable (feed : value) : bool :=
  match feed with
  | VDict d => match lookup "id" d with
               | Some i => hashable i
               | None => false
               end
  | _ => false
  end.

(** A feed of the document read: a dict whose identifier, if any, is
    hashable. *)
Definition stored (feed : value) : bool :=
  match feed with
  | VDict d => hashable (or_none (lookup "id" d))
  | _ => false
  end.

(** The identifier of [feed] is one of those to write. *)
Definition replaced (to_write : list value) (feed : value) : bool :=
  existsb (py_eqb (id_of feed)) (map id_of to_write).

Definition id_string (feed : value) : string :=
  match id_of feed with
  | VStr s => s
  | _ => ""
  end.

(** The feeds come in the order of their identifiers. *)
Fixpoint sorted_by_id (feeds : list value) : bool :=
  match feeds with
  | [] => true
  | a :: rest =>
      match rest with
      | [] => true
      | b :: _ => String.leb (id_string a) (id_string b) && sorted_by_id rest
      end
  end.

(** The scenario of the specification: the document holds A and B, the
    records B' and C come in, and the fetched hash of B is the one
    Transitland already has. *)
Definition feed_a : value := sample_feed "f-a~fr" "A".
Definition feed_b : value := sample_feed "f-b~fr" "B".
Definition feed_b' : value := sample_feed "f-b~fr" "B, new".
Definition feed_c : value := sample_feed "f-c~fr" "C".

Definition document_ab : dmfr_file :=
  Document (VDict [("feeds", VList [feed_a; feed_b])]).

Definition fetched_rows : list db_row :=
  [ {| onestop_id := VStr "f-b~fr"; db_sha1 := VStr "h1";
       db_url := VStr "http://x/a.zip"; db_size_bytes := VInt 1000 |};
    {| onestop_id := VStr "f-c~fr"; db_sha1 := VStr "h3";
       db_url := VStr "http://x/a.zip"; db_size_bytes := VInt 2000 |} ].

(** What Transitland knows when it has both B and C, C under another hash
    than the fetched one. *)
Definition transitland_feed_c : value :=
  VDict [ ("onestop_id", VStr "f-c~fr");
          ("spec", VStr "GTFS");
          ("urls", VDict [("static_current", VStr "http://x/a.zip")]) ].

Definition directory_bc : pydict :=
  [ ("f-b~fr",
     VDict [ ("feed", transitland_feed_b);
             ("feed_version",
              VDict [("sha1", VStr "h1"); ("feed", transitland_feed_b)]) ]);
    ("f-c~fr",
     VDict [ ("feed", transitland_feed_c);
             ("feed_version",
              VDict [("sha1", VStr "h2"); ("feed", transitland_feed_c)]) ]) ].

(** A document whose feeds are out of order, one of them with an empty
    name. *)
Definition document_unsorted : dmfr_file :=
  Document (VDict [("feeds",
    VList [VDict [("id", VStr "f-z~fr"); ("name", VStr "")]])]).

(** * The rest of the script *)

(** ** [filter_gtfs_datasets] (lines 163-178) *)

(** The datasets with a static GTFS resource, in their order.  The message
    logged for the others reads [dataset.get('slug', 'unknown')], which
    raises nothing once [dataset.get("resources", [])] has been read. *)
Fixpoint filter_gtfs_datasets (datasets : list value) : result (list value) :=
  match datasets with
  | [] => Ok []
  | dataset :: rest =>
      resources <- get_default dataset "resources" (VList []) ;;
      rs <- iter resources ;;
      static_gtfs <- first_static_gtfs rs ;;
      filtered <- filter_gtfs_datasets rest ;;
      Ok (if truthy_opt static_gtfs then dataset :: filtered else filtered)
  end.

(** ** [main]: the feed records (lines 926-931) *)

(** [new_feeds], with the warnings logged on the way. *)
Fixpoint create_feed_records (gtfs_datasets : list value) (existing_feeds : pydict)
  : result (list value * list warning) :=
  match gtfs_datasets with
  | [] => Ok ([], [])
  | dataset :: rest =>
      rw <- create_feed_record dataset existing_feeds ;;
      more <- create_feed_records rest existing_feeds ;;
      Ok (if truthy_opt (fst rw) then or_none (fst rw) :: fst more else fst more,
          (snd rw ++ snd more)%list)
  end.

(** ** [get_existing_french_feeds] (lines 130-155) *)

(** The dict [feeds]: its keys are the [onestop_id]s as the answer holds
    them, in insertion order. *)
Definition keyed_feeds : Type := list (value * value).

(** [feed_id in feeds] *)
Definition key_in (k : value) (feeds : keyed_feeds) : result bool :=
  if hashable k then Ok (existsb (fun kv => py_eqb k (fst kv)) feeds)
  else Raise TypeError.

(** The loop over the agencies of the answer. *)
Fixpoint collect_feeds (agencies : list value) (feeds : keyed_feeds)
  : result keyed_feeds :=
  match agencies with
  | [] => Ok feeds
  | agency :: rest =>
      feed_version <- get_default agency "feed_version" (VDict []) ;;
      feed <- (if truthy feed_version then get feed_version "feed" else Ok None) ;;
      if truthy feed_version && truthy_opt feed then
        feed_id <- get (or_none feed) "onestop_id" ;;
        known <- (if truthy_opt feed_id then key_in (or_none feed_id) feeds
                  else Ok true) ;;
        collect_feeds rest
          (if truthy_opt feed_id && negb known
           then (feeds ++ [(or_none feed_id,
                            VDict [("feed", or_none feed);
                                   ("feed_version", feed_version)])])%list
           else feeds)
      else collect_feeds rest feeds
  end.

(** What [_make_graphql_request] gives: a [RequestException], which the
    function catches, or the decoded answer. *)
Inductive graphql_outcome : Type :=
| GraphqlFails
| GraphqlAnswers (data : value).

Definition get_existing_french_feeds (answer : graphql_outcome)
  : result keyed_feeds :=
  match answer with
  | GraphqlFails => Ok []
  | GraphqlAnswers data =>
      inner <- get_default data "data" (VDict []) ;;
      agencies <- get_default inner "agencies" (VList []) ;;
      l <- iter agencies ;;
      collect_feeds l []
  end.

(** The entries a lookup by a string identifier can find: [Dict[str, Dict]]
    as the other functions take it. *)
Fixpoint string_keyed (feeds : keyed_feeds) : pydict :=
  match feeds with
  | [] => []
  | (VStr s, v) :: rest => (s, v) :: string_keyed rest
  | _ :: rest => string_keyed rest
  end.

(** ** Properties of the rest *)

(** [l] is [l'] with some elements left out, the order kept. *)
Inductive subseq {A : Type} : list A -> list A -> Prop :=
| subseq_nil : subseq [] []
| subseq_skip : forall x l l', subseq l l' -> subseq l (x :: l')
| subseq_keep : forall x l l', subseq l l' -> subseq (x :: l) (x :: l').

(** The format of a resource reads GTFS, in any case. *)
Definition is_static_gtfs (r : value) : bool :=
  match r with
  | VDict d =>
      match lookup "format" d with
      | Some (VStr f) => upper f =? "GTFS"
      | _ => false
      end
  | _ => false
  end.

(** The test [if static_gtfs:] of [filter_gtfs_datasets] holds for the
    dataset. *)
Definition has_static_gtfs (dataset : value) : bool :=
  match (resources <- get_default dataset "resources" (VList []) ;;
         rs <- iter resources ;;
         first_static_gtfs rs) with
  | Ok static_gtfs => truthy_opt static_gtfs
  | Raise _ => false
  end.

(** What a skip rests on: the identifier of the record is a string the
    directory knows, the version known there has a hash and a size, the
    record has a static URL, and the probe of that URL answered with status
    200 and a [Content-Length] that reads as a number equal to that size. *)
Definition skip_evidence (head : value -> head_outcome) (existing_feeds : pydict)
    (feed : value) : Prop :=
  exists fid prior fv sha1 urls u r cl n size,
    getitem feed "id" = Ok (VStr fid)
    /\ lookup fid existing_feeds = Some prior
    /\ get_default prior "feed_version" (VDict []) = Ok fv
    /\ get fv "sha1" = Ok (Some sha1) /\ truthy sha1 = true
    /\ getitem feed "urls" = Ok urls
    /\ get urls "static_current" = Ok (Some u) /\ truthy u = true
    /\ head u = HeadResponse r /\ status_code r = 200%Z
    /\ content_length r = Some cl /\ py_int cl = Ok n
    /\ get fv "size_bytes" = Ok (Some size)
    /\ py_eqb (VInt n) size = true.

(** No two keys are equal for Python. *)
Fixpoint distinct_keys (feeds : keyed_feeds) : bool :=
  match feeds with
  | [] => true
  | (k, _) :: rest =>
      negb (existsb (fun kv => py_eqb (fst kv) k) rest) && distinct_keys rest
  end.

(** An entry as [get_existing_french_feeds] builds it. *)
Definition built_entry (kv : value * value) : Prop :=
  exists (feed feed_version : pydict),
    snd kv = VDict [("feed", VDict feed); ("feed_version", VDict feed_version)]
    /\ lookup "feed" feed_version = Some (VDict feed)
    /\ feed <> [] /\ feed_version <> []
    /\ lookup "onestop_id" feed = Some (fst kv)
    /\ truthy (fst kv) = true /\ hashable (fst kv) = true.

(** Every existing feed is falsy, or a dict whose version is a dict or
    falsy: what the loop of [write_dmfr_file] reads outside its [try]. *)
Definition directory_ok (existing_feeds : pydict) : bool :=
  forallb (fun kv => match snd kv with
                     | VDict [] => true
                     | VDict prior => version_ok prior
                     | v => negb (truthy v)
                     end) existing_feeds.

(** A dataset that publishes a realtime feed only. *)
Definition dataset_realtime_only : value :=
  VDict [ ("slug", VStr "acme-live");
          ("id", VStr "def456");
          ("resources",
           VList [VDict [("format", VStr "gtfs-rt"); ("url", VStr "http://x/rt")]]) ].

Definition sample_datasets : list value :=
  [VDict (dataset_titled "lov2"); dataset_realtime_only].

(** The pass has nothing to remove from [v], at any depth. *)
Fixpoint nothing_to_strip (v : value) : bool :=
  match v with
  | VDict d =>
      (fix entries (d : pydict) : bool :=
         match d with
         | [] => true
         | (_, x) :: d' =>
             negb (is_empty_or_unknown x) && nothing_to_strip x && entries d'
         end) d
  | VList l =>
      (fix items (l : list value) : bool :=
         match l with
         | [] => true
         | x :: l' => negb (is_empty_value x) && nothing_to_strip x && items l'
         end) l
  | _ => true
  end.

(** A fetched row whose feed has a null version in the directory. *)
Definition row_without_version : db_row :=
  {| onestop_id := VStr "f-x~fr"; db_sha1 := VStr "h9";
     db_url := VStr "http://x/x.zip"; db_size_bytes := VInt 1 |}.

Definition directory_null_version : pydict :=
  (directory_b ++ [("f-x~fr", VDict [("feed_version", VNone)])])%list.

(** An answer of the GraphQL API: the same feed under two agencies, and an
    agency without a version. *)
Definition agency_b : value :=
  VDict [("feed_version",
          VDict [("sha1", VStr "h1"); ("feed", transitland_feed_b)])].

Definition sample_answer : graphql_outcome :=
  GraphqlAnswers
    (VDict [("data",
             VDict [("agencies",
                     VList [agency_b; VDict [("agency_name", VStr "No version")];
                            agency_b])])]).

(** The file can be read as a document: no file, a UTF-8 text that is not
    JSON, or a dict whose ["feeds"], if any, is a list of dicts with
    hashable identifiers. *)
Definition readable_file (file : dmfr_file) : bool :=
  match file with
  | Document (VDict doc) =>
      match lookup "feeds" doc with
      | Some (VList old) => forallb stored old
      | Some _ => false
      | None => true
      end
  | Document _ => false
  | Undecodable => false
  | NoFile | Corrupt => true
  end.

(** A dataset whose slug gives the identifier of the feed Transitland
    knows. *)
Definition dataset_b : value :=
  VDict [ ("slug", VStr "B");
          ("id", VStr "abc123");
          ("title", VStr "");
          ("resources", sample_resources) ].

(** * Proofs *)

(** ** Characters *)

Lemma lower_char_idem (c : ascii) : lower_char (lower_char c) = lower_char c.
Proof. destruct c as [[] [] [] [] [] [] [] []]; reflexivity. Qed.

Lemma lower_char_separator (c : ascii) :
  (lower_char c =? "-")%char || (lower_char c =? "_")%char
  || (lower_char c =? "~")%char = true ->
  lower_char c = c.
Proof. destruct c as [[] [] [] [] [] [] [] []]; simpl; intro H; try reflexivity; discriminate H. Qed.

Lemma ascii_eqb_true (a b : ascii) : (a =? b)%char = true -> a = b.
Proof. apply Ascii.eqb_eq. Qed.

(** ** [all_chars] *)

Lemma all_chars_impl (p q : ascii -> bool) (s : string) :
  (forall c, p c = true -> q c = true) ->
  all_chars p s = true -> all_chars q s = true.
Proof.
  intros Hpq. induction s as [|c s IH]; simpl; [reflexivity|].
  rewrite !andb_true_iff. intros [Hc Hs]. split; auto.
Qed.

Lemma all_chars_app (p : ascii -> bool) (s t : string) :
  all_chars p (s ++ t) = all_chars p s && all_chars p t.
Proof.
  induction s as [|c s IH]; simpl; [reflexivity|].
  now rewrite IH, andb_assoc.
Qed.

Lemma map_string_fixed (f : ascii -> ascii) (s : string) :
  all_chars (fun c => (f c =? c)%char) s = true -> map_string f s = s.
Proof.
  induction s as [|c s IH]; simpl; [reflexivity|].
  rewrite andb_true_iff. intros [Hc Hs].
  apply ascii_eqb_true in Hc. now rewrite Hc, IH.
Qed.

Lemma all_chars_map (p : ascii -> bool) (f : ascii -> ascii) (s : string) :
  all_chars p (map_string f s) = all_chars (fun c => p (f c)) s.
Proof.
  induction s as [|c s IH]; simpl; [reflexivity|]. now rewrite IH.
Qed.

Lemma lower_is_lower_case (s : string) : is_lower_case (lower s) = true.
Proof.
  unfold is_lower_case, lower. rewrite all_chars_map.
  induction s as [|c s IH]; simpl; [reflexivity|].
  rewrite IH, andb_true_r. unfold lower_fixed.
  rewrite lower_char_idem. apply Ascii.eqb_refl.
Qed.

(** ** The doubled separator and the [while] loop *)

Lemma prefix_double (c : ascii) (s : string) :
  prefix (String c (String c "")) s =
  match s with
  | String a (String b _) => (a =? c)%char && (b =? c)%char
  | _ => false
  end.
Proof.
  destruct s as [|a [|b r]]; simpl.
  - reflexivity.
  - destruct (ascii_dec c a); reflexivity.
  - destruct (ascii_dec c a) as [->|Ha].
    + rewrite Ascii.eqb_refl. simpl.
      destruct (ascii_dec a b) as [->|Hb].
      * rewrite Ascii.eqb_refl. destruct r; reflexivity.
      * symmetry. apply Ascii.eqb_neq. congruence.
    + replace (a =? c)%char with false; [reflexivity|].
      symmetry. apply Ascii.eqb_neq. congruence.
Qed.

Lemma contains_double (c : ascii) (s : string) :
  contains (String c (String c "")) s = has_double c s.
Proof.
  induction s as [|a s IH].
  - reflexivity.
  - change (contains (String c (String c "")) (String a s))
      with (if prefix (String c (String c "")) (String a s) then true
            else contains (String c (String c "")) s).
    rewrite prefix_double, IH.
    destruct s as [|b r]; simpl; [reflexivity|].
    destruct ((a =? c)%char && (b =? c)%char); reflexivity.
Qed.

(** Induction two characters at a time, as [replace_double] recurses. *)
Lemma string_ind2 (P : string -> Prop) :
  P "" ->
  (forall a, P (String a "")) ->
  (forall a b s, P s -> P (String b s) -> P (String a (String b s))) ->
  forall s, P s.
Proof.
  intros H0 H1 H2 s.
  assert (H : P s /\ forall a, P (String a s)).
  { induction s as [|b s [IHs IHa]].
    - split; [exact H0 | exact H1].
    - split; [apply IHa|]. intro a. apply H2; [exact IHs | apply IHa]. }
  apply H.
Qed.

Lemma replace_double_length (c : ascii) (s : string) :
  String.length (replace_double c s) <= String.length s
  /\ (has_double c s = true ->
      String.length (replace_double c s) < String.length s).
Proof.
  induction s as [|a|a b s [IH1 IH1'] [IH2 IH2']] using string_ind2.
  - simpl. split; [lia | discriminate].
  - simpl. split; [lia | discriminate].
  - change (replace_double c (String a (String b s)))
      with (if (a =? c)%char && (b =? c)%char
            then String c (replace_double c s)
            else String a (replace_double c (String b s))).
    change (has_double c (String a (String b s)))
      with (((a =? c)%char && (b =? c)%char) || has_double c (String b s)).
    destruct ((a =? c)%char && (b =? c)%char); cbn [orb String.length].
    + cbn [String.length] in *. split; [lia | intros _; lia].
    + cbn [String.length] in *. split; [lia | intro H; specialize (IH2' H); lia].
Qed.

(** The loop ends with no doubled character left, whenever the fuel is at
    least the length of the string. *)
Lemma collapse_loop_enough (c : ascii) (fuel : nat) (s : string) :
  String.length s <= fuel -> has_double c (collapse_loop fuel c s) = false.
Proof.
  revert s. induction fuel as [|fuel IH]; intros s Hlen.
  - destruct s; [reflexivity | simpl in Hlen; lia].
  - simpl. rewrite contains_double.
    destruct (has_double c s) eqn:Hd; [|exact Hd].
    apply IH. pose proof (proj2 (replace_double_length c s) Hd). lia.
Qed.

(** Any two amounts of fuel that are enough give the same string. *)
Lemma collapse_loop_fuel (c : ascii) (f1 f2 : nat) (s : string) :
  String.length s <= f1 -> String.length s <= f2 ->
  collapse_loop f1 c s = collapse_loop f2 c s.
Proof.
  revert f2 s. induction f1 as [|f1 IH]; intros f2 s H1 H2.
  - destruct s; [|simpl in H1; lia]. now destruct f2.
  - destruct f2 as [|f2]; [destruct s; [reflexivity | simpl in H2; lia]|].
    simpl. rewrite contains_double.
    destruct (has_double c s) eqn:Hd; [|reflexivity].
    pose proof (proj2 (replace_double_length c s) Hd).
    apply IH; lia.
Qed.

Lemma collapse_no_double (c : ascii) (s : string) :
  has_double c (collapse c s) = false.
Proof. apply collapse_loop_enough. reflexivity. Qed.

(** More fuel does not change the result. *)
Lemma collapse_loop_fixed (c : ascii) (fuel : nat) (s : string) :
  has_double c s = false -> collapse_loop fuel c s = s.
Proof.
  intro H. destruct fuel; simpl; [reflexivity|].
  now rewrite contains_double, H.
Qed.

Lemma collapse_fixed (c : ascii) (s : string) :
  has_double c s = false -> collapse c s = s.
Proof. apply collapse_loop_fixed. Qed.

Lemma replace_double_chars (p : ascii -> bool) (c : ascii) (s : string) :
  all_chars p (replace_double c s) = all_chars p s.
Proof.
  induction s as [|a|a b s IH1 IH2] using string_ind2; try reflexivity.
  change (replace_double c (String a (String b s)))
    with (if (a =? c)%char && (b =? c)%char
          then String c (replace_double c s)
          else String a (replace_double c (String b s))).
  destruct ((a =? c)%char && (b =? c)%char) eqn:Hab.
  - apply andb_true_iff in Hab. destruct Hab as [Ha Hb].
    apply ascii_eqb_true in Ha, Hb. subst a b.
    cbn [all_chars]. rewrite IH1. destruct (p c); reflexivity.
  - cbn [all_chars] in *. now rewrite IH2.
Qed.

Lemma collapse_loop_chars (p : ascii -> bool) (c : ascii) (fuel : nat) (s : string) :
  all_chars p (collapse_loop fuel c s) = all_chars p s.
Proof.
  revert s. induction fuel as [|fuel IH]; intro s; simpl; [reflexivity|].
  destruct (contains _ s); [|reflexivity].
  now rewrite IH, replace_double_chars.
Qed.

Lemma collapse_chars (p : ascii -> bool) (c : ascii) (s : string) :
  all_chars p (collapse c s) = all_chars p s.
Proof. apply collapse_loop_chars. Qed.

(** ** [strip] *)

Lemma lstrip_chars (p q : ascii -> bool) (s : string) :
  all_chars q s = true -> all_chars q (lstrip p s) = true.
Proof.
  induction s as [|a s IH]; simpl; [reflexivity|].
  intro H. destruct (p a); [|exact H].
  apply andb_true_iff in H. now apply IH.
Qed.

Lemma rstrip_chars (p q : ascii -> bool) (s : string) :
  all_chars q s = true -> all_chars q (rstrip p s) = true.
Proof.
  induction s as [|a s IH]; simpl; [reflexivity|].
  intro H. apply andb_true_iff in H. destruct H as [Ha Hs].
  specialize (IH Hs). destruct (rstrip p s) as [|b r].
  - destruct (p a); simpl; [reflexivity | now rewrite Ha].
  - cbn [all_chars]. now rewrite Ha.
Qed.

Lemma strip_chars (p q : ascii -> bool) (s : string) :
  all_chars q s = true -> all_chars q (strip p s) = true.
Proof. intro H. unfold strip. now apply rstrip_chars, lstrip_chars. Qed.

Lemma lstrip_all (p : ascii -> bool) (s : string) :
  all_chars p (lstrip p s) = true -> all_chars p s = true.
Proof.
  induction s as [|a s IH]; simpl; [reflexivity|].
  destruct (p a) eqn:Ha; simpl.
  - exact IH.
  - rewrite Ha. discriminate.
Qed.

Lemma rstrip_empty (p : ascii -> bool) (s : string) :
  rstrip p s = "" -> all_chars p s = true.
Proof.
  induction s as [|a s IH]; simpl; [reflexivity|].
  destruct (rstrip p s) as [|b r]; [|discriminate].
  destruct (p a); [|discriminate].
  intros _. now rewrite IH.
Qed.

Lemma strip_empty (p : ascii -> bool) (s : string) :
  strip p s = "" -> all_chars p s = true.
Proof.
  unfold strip. intro H. apply lstrip_all. now apply rstrip_empty.
Qed.

Lemma lstrip_starts (p : ascii -> bool) (s : string) :
  starts_with p (lstrip p s) = false.
Proof.
  induction s as [|a s IH]; simpl; [reflexivity|].
  destruct (p a) eqn:Ha; [exact IH | simpl; exact Ha].
Qed.

Lemma rstrip_starts (p : ascii -> bool) (s : string) :
  starts_with p s = false -> starts_with p (rstrip p s) = false.
Proof.
  destruct s as [|a s]; simpl; [reflexivity|].
  intro Ha. destruct (rstrip p s); [rewrite Ha|]; simpl; exact Ha.
Qed.

Lemma rstrip_nonempty (p : ascii -> bool) (s : string) :
  starts_with p s = false -> s <> "" -> rstrip p s <> "".
Proof.
  destruct s as [|a s]; simpl; [congruence|].
  intros Ha _. destruct (rstrip p s); [rewrite Ha|]; discriminate.
Qed.

Lemma rstrip_last (p : ascii -> bool) (s : string) :
  last_is p (rstrip p s) = false.
Proof.
  induction s as [|a s IH]; simpl; [reflexivity|].
  destruct (rstrip p s) as [|b r].
  - destruct (p a) eqn:Ha; simpl; [reflexivity | exact Ha].
  - exact IH.
Qed.

Lemma lstrip_fixed (p : ascii -> bool) (s : string) :
  starts_with p s = false -> lstrip p s = s.
Proof. destruct s as [|a s]; simpl; [reflexivity|]. now intros ->. Qed.

Lemma rstrip_fixed (p : ascii -> bool) (s : string) :
  last_is p s = false -> rstrip p s = s.
Proof.
  induction s as [|a s IH]; [reflexivity|].
  cbn [last_is rstrip]. destruct s as [|b r].
  - simpl. now intros ->.
  - intro H. now rewrite (IH H).
Qed.

Lemma strip_fixed (p : ascii -> bool) (s : string) :
  starts_with p s = false -> last_is p s = false -> strip p s = s.
Proof.
  intros H1 H2. unfold strip. rewrite (lstrip_fixed p s H1).
  now apply rstrip_fixed.
Qed.

Lemma last_is_app (p : ascii -> bool) (s t : string) :
  t <> "" -> last_is p (s ++ t) = last_is p t.
Proof.
  intro Ht. induction s as [|a s IH]; [reflexivity|].
  cbn [append last_is]. rewrite IH.
  destruct (s ++ t) eqn:E; [|reflexivity].
  destruct s; [simpl in E; contradiction | discriminate].
Qed.

Lemma starts_with_app (p : ascii -> bool) (s t : string) :
  s <> "" -> starts_with p (s ++ t) = starts_with p s.
Proof. destruct s; [congruence | reflexivity]. Qed.

(** ** [has_double] under the string operations *)

Lemma has_double_cons (c a : ascii) (s : string) :
  has_double c (String a s) = ((a =? c)%char && starts_with (fun b => (b =? c)%char) s)
                              || has_double c s.
Proof.
  destruct s as [|b r]; simpl.
  - now rewrite andb_false_r.
  - reflexivity.
Qed.

Lemma lstrip_no_double (p : ascii -> bool) (c : ascii) (s : string) :
  has_double c s = false -> has_double c (lstrip p s) = false.
Proof.
  induction s as [|a s IH]; [reflexivity|].
  intro H. cbn [lstrip]. destruct (p a); [|exact H].
  apply IH. rewrite has_double_cons in H.
  now apply orb_false_iff in H.
Qed.

Lemma rstrip_starts_sub (p q : ascii -> bool) (s : string) :
  starts_with q (rstrip p s) = true -> starts_with q s = true.
Proof.
  destruct s as [|a s]; simpl; [discriminate|].
  destruct (rstrip p s); [destruct (p a)|]; simpl; congruence.
Qed.

Lemma rstrip_no_double (p : ascii -> bool) (c : ascii) (s : string) :
  has_double c s = false -> has_double c (rstrip p s) = false.
Proof.
  induction s as [|a s IH]; [reflexivity|].
  rewrite has_double_cons. intro H.
  apply orb_false_iff in H. destruct H as [H1 H2].
  specialize (IH H2). cbn [rstrip].
  destruct (rstrip p s) as [|b r] eqn:E.
  - destruct (p a); reflexivity.
  - rewrite has_double_cons, IH, orb_false_r.
    destruct (a =? c)%char; [|reflexivity]. simpl in *.
    destruct (b =? c)%char eqn:Hb; [|reflexivity].
    rewrite <- H1. symmetry.
    apply (rstrip_starts_sub p). now rewrite E.
Qed.

Lemma has_double_app (c : ascii) (s t : string) :
  has_double c s = false -> has_double c t = false ->
  last_is (fun b => (b =? c)%char) s = false ->
  has_double c (s ++ t) = false.
Proof.
  intros Hs Ht. induction s as [|a s IH]; [intros _; exact Ht|].
  rewrite has_double_cons in Hs. apply orb_false_iff in Hs.
  destruct Hs as [H1 H2]. cbn [append last_is].
  intro Hl. rewrite has_double_cons. destruct s as [|b r].
  - simpl in *. rewrite Hl, Ht. reflexivity.
  - rewrite (IH H2 Hl), orb_false_r. exact H1.
Qed.

(** ** [endswith] *)

Lemma endswith_refl (s : string) : endswith s s = true.
Proof. destruct s; simpl; [reflexivity|]. now rewrite Ascii.eqb_refl, String.eqb_refl. Qed.

Lemma endswith_cons (a : ascii) (s suffix : string) :
  endswith (String a s) suffix =
  if String a s =? suffix then true else endswith s suffix.
Proof. reflexivity. Qed.

Lemma endswith_app_l (s t suffix : string) :
  endswith t suffix = true -> endswith (s ++ t) suffix = true.
Proof.
  intro H. induction s as [|a s IH]; [exact H|].
  cbn [append]. rewrite endswith_cons, IH. now destruct (_ =? _).
Qed.

Lemma has_regional_suffix_app_l (s t : string) :
  has_regional_suffix t = true -> has_regional_suffix (s ++ t) = true.
Proof.
  unfold has_regional_suffix. rewrite !existsb_exists.
  intros [x [Hx He]]. exists x. split; [exact Hx|].
  now apply endswith_app_l.
Qed.

(** ** The name component *)

Lemma name_component_eq (A : string) :
  name_component A =
  if has_regional_suffix (stripped_slug A) then stripped_slug A
  else stripped_slug A ++ "~fr".
Proof. reflexivity. Qed.

Lemma separators_replaced (c : ascii) :
  lower_fixed c = true ->
  component_char
    ((fun c => if (c =? "_")%char then "~"%char else c)
       ((fun c => if (c =? "-")%char then "~"%char else c) c)) = true.
Proof.
  destruct c as [[] [] [] [] [] [] [] []]; intro H; try reflexivity; discriminate H.
Qed.

Lemma replaced_chars (A : string) :
  is_lower_case A = true ->
  all_chars component_char (replace_char "_" "~" (replace_char "-" "~" A)) = true.
Proof.
  unfold is_lower_case, replace_char. rewrite !all_chars_map.
  apply all_chars_impl. apply separators_replaced.
Qed.

Lemma stripped_slug_chars (A : string) :
  is_lower_case A = true -> all_chars component_char (stripped_slug A) = true.
Proof.
  intro H. unfold stripped_slug. apply strip_chars.
  rewrite collapse_chars. now apply replaced_chars.
Qed.

Lemma stripped_slug_no_double (A : string) :
  has_double "~" (stripped_slug A) = false.
Proof.
  unfold stripped_slug, strip.
  apply rstrip_no_double, lstrip_no_double, collapse_no_double.
Qed.

Lemma stripped_slug_start (A : string) :
  starts_with is_tilde (stripped_slug A) = false.
Proof. unfold stripped_slug, strip. apply rstrip_starts, lstrip_starts. Qed.

Lemma stripped_slug_last (A : string) :
  last_is is_tilde (stripped_slug A) = false.
Proof. unfold stripped_slug, strip. apply rstrip_last. Qed.

Lemma name_component_chars (A : string) :
  is_lower_case A = true -> all_chars component_char (name_component A) = true.
Proof.
  intro H. rewrite name_component_eq.
  destruct (has_regional_suffix _).
  - now apply stripped_slug_chars.
  - rewrite all_chars_app, (stripped_slug_chars A H). reflexivity.
Qed.

Lemma name_component_no_double (A : string) :
  has_double "~" (name_component A) = false.
Proof.
  rewrite name_component_eq. destruct (has_regional_suffix _).
  - apply stripped_slug_no_double.
  - apply has_double_app.
    + apply stripped_slug_no_double.
    + reflexivity.
    + apply stripped_slug_last.
Qed.

Lemma name_component_last (A : string) :
  last_is is_tilde (name_component A) = false.
Proof.
  rewrite name_component_eq. destruct (has_regional_suffix _).
  - apply stripped_slug_last.
  - rewrite last_is_app; [reflexivity | discriminate].
Qed.

Lemma name_component_regional (A : string) :
  has_regional_suffix (name_component A) = true.
Proof.
  rewrite name_component_eq.
  destruct (has_regional_suffix (stripped_slug A)) eqn:E; [exact E|].
  apply has_regional_suffix_app_l. reflexivity.
Qed.

Lemma name_component_start (A : string) :
  stripped_slug A <> "" -> starts_with is_tilde (name_component A) = false.
Proof.
  intro H. rewrite name_component_eq. destruct (has_regional_suffix _).
  - apply stripped_slug_start.
  - rewrite starts_with_app by exact H. apply stripped_slug_start.
Qed.

Lemma name_component_nonempty (A : string) : name_component A <> "".
Proof.
  rewrite name_component_eq.
  destruct (has_regional_suffix (stripped_slug A)) eqn:E.
  - intro H. rewrite H in E. discriminate E.
  - destruct (stripped_slug A); discriminate.
Qed.

Lemma stripped_of_component (A : string) :
  name_component A <> "~fr" -> stripped_slug A <> "".
Proof.
  intros H E. apply H. rewrite name_component_eq, E. reflexivity.
Qed.

(** The steps after the two replacements leave a string alone when it has
    no doubled, leading or trailing separator and ends in a suffix. *)
Lemma finish_fixed (B : string) :
  has_double "~" B = false ->
  starts_with is_tilde B = false ->
  last_is is_tilde B = false ->
  has_regional_suffix B = true ->
  (let s := collapse "~" B in
   let s := strip is_tilde s in
   if has_regional_suffix s then s else s ++ "~fr") = B.
Proof.
  intros Hd Hs Hl Hr. cbv zeta.
  rewrite (collapse_fixed _ _ Hd), (strip_fixed _ _ Hs Hl), Hr. reflexivity.
Qed.

Lemma component_chars_fixed (N : string) :
  all_chars component_char N = true ->
  lower N = N
  /\ replace_char "_" "~" (replace_char "-" "~" N) = N.
Proof.
  intro H. split.
  - apply map_string_fixed. revert H. apply all_chars_impl.
    intros c Hc. unfold component_char in Hc.
    now apply andb_true_iff in Hc as [Hc _]; apply andb_true_iff in Hc as [Hc _].
  - assert (H1 : replace_char "-" "~" N = N).
    { apply map_string_fixed. revert H. apply all_chars_impl.
      intros c Hc. unfold component_char in Hc.
      apply andb_true_iff in Hc as [Hc _]; apply andb_true_iff in Hc as [_ Hc].
      destruct (c =? "-")%char; [discriminate Hc | apply Ascii.eqb_refl]. }
    rewrite H1. apply map_string_fixed. revert H. apply all_chars_impl.
    intros c Hc. unfold component_char in Hc.
    apply andb_true_iff in Hc as [_ Hc].
    destruct (c =? "_")%char; [discriminate Hc | apply Ascii.eqb_refl].
Qed.

Lemma name_component_of_component (A : string) :
  is_lower_case A = true ->
  name_component A <> "~fr" ->
  name_component (lower (name_component A)) = name_component A.
Proof.
  intros HA Hne.
  destruct (component_chars_fixed _ (name_component_chars A HA)) as [Hl Hr].
  rewrite Hl. unfold name_component at 1. rewrite Hr.
  apply finish_fixed.
  - apply name_component_no_double.
  - apply name_component_start. now apply stripped_of_component.
  - apply name_component_last.
  - apply name_component_regional.
Qed.

Lemma name_component_of_feed_id (A : string) :
  is_lower_case A = true ->
  name_component A <> "~fr" ->
  name_component (lower ("f-" ++ name_component A)) = "f~" ++ name_component A.
Proof.
  intros HA Hne.
  destruct (component_chars_fixed _ (name_component_chars A HA)) as [Hl Hr].
  assert (Hst : starts_with is_tilde (name_component A) = false)
    by now apply name_component_start, stripped_of_component.
  change (lower ("f-" ++ name_component A))
    with (String "f" (String "-" (lower (name_component A)))).
  rewrite Hl. unfold name_component at 1.
  change (replace_char "_" "~" (replace_char "-" "~" (String "f" (String "-" (name_component A)))))
    with (String "f" (String "~" (replace_char "_" "~" (replace_char "-" "~" (name_component A))))).
  rewrite Hr.
  change (String "f" (String "~" (name_component A))) with ("f~" ++ name_component A).
  apply finish_fixed.
  - change ("f~" ++ name_component A) with (String "f" (String "~" (name_component A))).
    rewrite !has_double_cons, name_component_no_double.
    change (fun b : ascii => (b =? "~")%char) with is_tilde. rewrite Hst. reflexivity.
  - reflexivity.
  - rewrite last_is_app; [apply name_component_last | apply name_component_nonempty].
  - apply has_regional_suffix_app_l, name_component_regional.
Qed.

Lemma upper_survives (slug : string) :
  has_upper slug = true -> stripped_slug (lower slug) <> "".
Proof.
  unfold has_upper. intros Hu E.
  apply strip_empty in E. rewrite collapse_chars in E.
  unfold replace_char, lower in E. rewrite !all_chars_map in E.
  assert (H : all_chars lower_fixed slug = true).
  { revert E. apply all_chars_impl. intros c Hc.
    unfold lower_fixed. apply Ascii.eqb_eq, lower_char_separator.
    unfold is_tilde in Hc.
    destruct (lower_char c =? "-")%char eqn:E1; [reflexivity|].
    destruct (lower_char c =? "_")%char eqn:E2; [reflexivity|].
    exact Hc. }
  rewrite H in Hu. discriminate Hu.
Qed.

(** ** The identifier: claims C7 and C8 *)

(** C7, as stated, fails: the identifier of ["acme~fr"] is ["f-acme~fr"], and
    the identifier computed from that string is ["f-f~acme~fr"], because the
    ["f-"] marker is put in front on every application and its hyphen becomes
    a separator on the next one. *)
Lemma identifier_not_idempotent :
  feed_id_of_slug "acme~fr" = "f-acme~fr"
  /\ feed_id_of_slug (feed_id_of_slug "acme~fr") = "f-f~acme~fr"
  /\ feed_id_of_slug "acme~fr" <> feed_id_of_slug (feed_id_of_slug "acme~fr").
Proof. repeat split; try reflexivity. vm_compute. discriminate. Qed.

(** C7, amended: the name component (the identifier without its ["f-"]
    marker) is a fixed point of its own computation, for every slug whose
    name component is more than the bare suffix: a component that ends in an
    accepted regional suffix gets no second one.  Computing an identifier
    from an identifier adds the marker again, as ["f-f~"], and no suffix. *)
Theorem name_component_idempotent (slug : string) :
  name_component (lower slug) <> "~fr" ->
  name_component (lower (name_component (lower slug))) = name_component (lower slug)
  /\ feed_id_of_slug (feed_id_of_slug slug) = "f-f~" ++ name_component (lower slug).
Proof.
  intro H. pose proof (lower_is_lower_case slug) as Hl. split.
  - now apply name_component_of_component.
  - unfold feed_id_of_slug.
    rewrite (name_component_of_feed_id (lower slug) Hl H). reflexivity.
Qed.

Lemma name_component_idempotent_acme :
  name_component (lower "acme~fr") <> "~fr"
  /\ name_component (lower (name_component (lower "acme~fr")))
     = name_component (lower "acme~fr")
  /\ feed_id_of_slug (feed_id_of_slug "acme~fr")
     = "f-f~" ++ name_component (lower "acme~fr").
Proof.
  split.
  - vm_compute. discriminate.
  - apply (name_component_idempotent "acme~fr"). vm_compute. discriminate.
Defined.

(** C8, as stated, fails on its last point: ["Acme-fr_FR"] has mixed case,
    a hyphen and an underscore, and its identifier ["f-acme~fr~fr"] ends
    with two regional suffixes. *)
Lemma identifier_with_two_suffixes :
  mixed_slug "Acme-fr_FR" = true
  /\ feed_id_of_slug "Acme-fr_FR" = "f-acme~fr~fr"
  /\ ends_with_two_suffixes (feed_id_of_slug "Acme-fr_FR").
Proof.
  split; [reflexivity|]. split; [reflexivity|].
  exists "f-acme", "~fr", "~fr". simpl. auto.
Qed.

(** C8, amended: the identifier is computed for every string (the loop that
    removes doubled separators ends, and [lower] is defined on every string).
    For a slug with mixed case, a hyphen and an underscore, the identifier is
    in lower case; it is the marker ["f-"] followed by a name component that
    holds no hyphen and no underscore, no doubled separator and no separator
    at either end; it ends with a regional suffix, and the default suffix is
    appended exactly when the separated and stripped slug does not already
    end with one. *)
Theorem identifier_shape (slug : string) :
  (forall s, has_double "~" (collapse "~" s) = false)
  /\ str_lower (VStr slug) = Ok (lower slug)
  /\ (mixed_slug slug = true ->
      let component := name_component (lower slug) in
      let stripped := stripped_slug (lower slug) in
      feed_id_of_slug slug = "f-" ++ component
      /\ is_lower_case (feed_id_of_slug slug) = true
      /\ all_chars component_char component = true
      /\ has_double "~" (feed_id_of_slug slug) = false
      /\ starts_with is_tilde component = false
      /\ last_is is_tilde (feed_id_of_slug slug) = false
      /\ has_regional_suffix (feed_id_of_slug slug) = true
      /\ (has_regional_suffix stripped = true -> component = stripped)
      /\ (has_regional_suffix stripped = false -> component = stripped ++ "~fr")).
Proof.
  split; [intro s; apply collapse_no_double|].
  split; [reflexivity|].
  intros Hm component stripped.
  unfold mixed_slug in Hm. rewrite !andb_true_iff in Hm.
  destruct Hm as [[[Hu _] _] _].
  pose proof (lower_is_lower_case slug) as Hl.
  pose proof (name_component_chars _ Hl) as Hc.
  pose proof (upper_survives slug Hu) as Hne.
  repeat split.
  - unfold is_lower_case, feed_id_of_slug.
    rewrite all_chars_app.
    change (all_chars lower_fixed "f-") with true. cbn [andb].
    revert Hc. apply all_chars_impl. intros c H.
    unfold component_char in H.
    now apply andb_true_iff in H as [H _]; apply andb_true_iff in H as [H _].
  - exact Hc.
  - unfold feed_id_of_slug.
    change ("f-" ++ name_component (lower slug))
      with (String "f" (String "-" (name_component (lower slug)))).
    rewrite !has_double_cons, name_component_no_double. reflexivity.
  - now apply name_component_start.
  - unfold feed_id_of_slug. rewrite last_is_app.
    + apply name_component_last.
    + apply name_component_nonempty.
  - unfold feed_id_of_slug. apply has_regional_suffix_app_l, name_component_regional.
  - intro H. subst component stripped. now rewrite name_component_eq, H.
  - intro H. subst component stripped. now rewrite name_component_eq, H.
Qed.

Lemma identifier_shape_acme :
  mixed_slug "Acme-Metro_Nord" = true
  /\ feed_id_of_slug "Acme-Metro_Nord" = "f-acme~metro~nord~fr"
  /\ is_lower_case (feed_id_of_slug "Acme-Metro_Nord") = true
  /\ has_regional_suffix (feed_id_of_slug "Acme-Metro_Nord") = true.
Proof.
  pose proof (identifier_shape "Acme-Metro_Nord") as [_ [_ H]].
  specialize (H eq_refl). cbv zeta in H.
  destruct H as [_ [H2 [_ [_ [_ [_ [H7 _]]]]]]].
  split; [reflexivity|]. split; [reflexivity|]. split; assumption.
Defined.

(** ** [clean_empty_values]: claim C9 *)

Lemma clean_dict_eq (d : pydict) :
  clean_empty_values (VDict d) = VDict (clean_entries d).
Proof.
  unfold clean_entries. simpl. f_equal.
  induction d as [|[k v] d IH]; simpl; [reflexivity|].
  destruct (is_empty_or_unknown v); simpl; now rewrite IH.
Qed.

Lemma clean_list_eq (l : list value) :
  clean_empty_values (VList l) = VList (clean_items l).
Proof.
  unfold clean_items. simpl. f_equal.
  induction l as [|x l IH]; simpl; [reflexivity|].
  destruct (is_empty_value x); simpl; now rewrite IH.
Qed.

Lemma no_placeholder_dict (d : pydict) :
  no_placeholder (VDict d) =
  forallb (fun kv => negb (is_none_or_blank (snd kv)) && negb (is_unknown (snd kv))
                     && no_placeholder (snd kv)) d.
Proof.
  simpl. induction d as [|[k v] d IH]; simpl; [reflexivity|]. now rewrite IH.
Qed.

Lemma no_placeholder_list (l : list value) :
  no_placeholder (VList l) =
  forallb (fun x => negb (is_none_or_blank x) && no_placeholder x) l.
Proof.
  simpl. induction l as [|x l IH]; simpl; [reflexivity|]. now rewrite IH.
Qed.

Lemma clean_keeps_kind (v : value) :
  is_none_or_blank (clean_empty_values v) = is_none_or_blank v
  /\ is_unknown (clean_empty_values v) = is_unknown v.
Proof. destruct v; split; reflexivity. Qed.

Lemma kept_entry_not_placeholder (v : value) :
  is_empty_or_unknown v = false ->
  is_none_or_blank v = false /\ is_unknown v = false.
Proof.
  destruct v as [| | |s|[|]|[|]]; simpl; intro H;
    try discriminate H; try (split; reflexivity).
  apply orb_false_iff in H. exact H.
Qed.

Lemma kept_item_not_blank (v : value) :
  is_empty_value v = false -> is_none_or_blank v = false.
Proof. destruct v as [| | |s|[|]|[|]]; simpl; congruence. Qed.

Lemma clean_no_placeholder (obj : value) :
  no_placeholder (clean_empty_values obj) = true.
Proof.
  induction obj as [| | | |l IH|d IH] using value_ind; try reflexivity.
  - rewrite clean_list_eq, no_placeholder_list. unfold clean_items.
    induction IH as [|x l Hx _ IHl]; simpl; [reflexivity|].
    destruct (is_empty_value x) eqn:E; simpl; [exact IHl|].
    rewrite (proj1 (clean_keeps_kind x)), (kept_item_not_blank x E), Hx, IHl.
    reflexivity.
  - rewrite clean_dict_eq, no_placeholder_dict. unfold clean_entries.
    induction IH as [|[k x] d Hx _ IHd]; simpl; [reflexivity|].
    destruct (is_empty_or_unknown x) eqn:E; simpl; [exact IHd|].
    destruct (kept_entry_not_placeholder x E) as [E1 E2]. simpl in Hx.
    destruct (clean_keeps_kind x) as [K1 K2].
    rewrite K1, K2, E1, E2, Hx, IHd. reflexivity.
Qed.

(** C9, as stated, fails: the record returned for a dataset with an unknown
    licence code and no title holds an empty mapping under ["license"] (the
    mapping had entries when it was tested, and all of them were stripped),
    and the ["unknown"] in the sequence taken over from the existing feed
    stays, because the test on the items of a sequence does not include
    ["unknown"]. *)
Lemma returned_record_holds_placeholders :
  exists r w,
    create_feed_record dataset_unknown_licence existing_acme = Ok (Some (VDict r), w)
    /\ lookup "license" r = Some (VDict [])
    /\ lookup "languages" r = Some (VList [VStr "unknown"])
    /\ fully_stripped (VDict r) = false.
Proof. eexists. eexists. vm_compute. repeat split. Qed.

(** C9, amended: the pass removes, at every depth, every entry of a mapping
    whose value is absent, an empty string, an empty sequence, an empty
    mapping or ["unknown"], and every item of a sequence that is absent, an
    empty string, an empty sequence or an empty mapping, the test being made
    on the value as it is before its own content is stripped.  So the result
    holds, at any depth, no absent value and no empty string, and no
    ["unknown"] as the value of a mapping. *)
Theorem clean_empty_values_strips (obj : value) (d : pydict) (l : list value) :
  no_placeholder (clean_empty_values obj) = true
  /\ clean_empty_values (VDict d) = VDict (clean_entries d)
  /\ clean_empty_values (VList l) = VList (clean_items l).
Proof.
  split; [apply clean_no_placeholder|].
  split; [apply clean_dict_eq | apply clean_list_eq].
Qed.

(** ** Dictionaries *)

Lemma lookup_setitem (k k' : string) (v : value) (d : pydict) :
  lookup k (setitem k' v d) = if k' =? k then Some v else lookup k d.
Proof.
  induction d as [|[k0 v0] d IH]; simpl.
  - reflexivity.
  - destruct (k0 =? k') eqn:E0; simpl.
    + apply String.eqb_eq in E0. subst k0. now destruct (k' =? k).
    + rewrite IH. destruct (k0 =? k) eqn:E1; [|reflexivity].
      apply String.eqb_eq in E1. subst k0. now rewrite String.eqb_sym, E0.
Qed.

Lemma setitem_keys (k : string) (v : value) (d : pydict) :
  NoDup (map fst d) -> NoDup (map fst (setitem k v d)).
Proof.
  assert (Hin : forall d x, In x (map fst (setitem k v d)) -> x = k \/ In x (map fst d)).
  { clear d. induction d as [|[k0 v0] d IH]; simpl; intros x Hx.
    - destruct Hx as [Hx|[]]; auto.
    - destruct (k0 =? k); simpl in Hx.
      + destruct Hx; auto.
      + destruct Hx as [Hx|Hx]; auto. destruct (IH x Hx); auto. }
  induction d as [|[k0 v0] d IH]; simpl; intro H.
  - constructor; [intros [] | constructor].
  - inversion H as [|? ? Hn Hd]; subst.
    destruct (k0 =? k) eqn:E; simpl.
    + constructor; assumption.
    + constructor; [|now apply IH].
      intro Hx. destruct (Hin d k0 Hx) as [->|Hx']; [|contradiction].
      now rewrite String.eqb_refl in E.
Qed.

Lemma lookup_none_not_in (k : string) (d : pydict) :
  ~ In k (map fst d) -> lookup k d = None.
Proof.
  induction d as [|[k0 v0] d IH]; simpl; [reflexivity|].
  intro H. destruct (k0 =? k) eqn:E.
  - apply String.eqb_eq in E. tauto.
  - apply IH. tauto.
Qed.

(** An entry that the pass keeps is found again, stripped. *)
Lemma lookup_clean_kept (k : string) (v : value) (d : pydict) :
  lookup k d = Some v -> is_empty_or_unknown v = false ->
  lookup k (clean_entries d) = Some (clean_empty_values v).
Proof.
  unfold clean_entries. induction d as [|[k0 v0] d IH]; simpl; [discriminate|].
  destruct (k0 =? k) eqn:E.
  - intros [= ->] Hv. rewrite Hv. simpl. now rewrite E.
  - intros H Hv. destruct (is_empty_or_unknown v0); simpl; [|rewrite E]; now apply IH.
Qed.

(** An entry that the pass drops is not found (the keys are unique). *)
Lemma lookup_clean_dropped (k : string) (v : value) (d : pydict) :
  NoDup (map fst d) ->
  lookup k d = Some v -> is_empty_or_unknown v = true ->
  lookup k (clean_entries d) = None.
Proof.
  unfold clean_entries. induction d as [|[k0 v0] d IH]; simpl; [discriminate|].
  intro Hnd. inversion Hnd as [|? ? Hn Hd]; subst.
  destruct (k0 =? k) eqn:E.
  - intros [= ->] Hv. rewrite Hv. simpl. apply String.eqb_eq in E. subst k0.
    apply lookup_none_not_in. rewrite map_map. simpl.
    intro Hin. apply Hn. apply in_map_iff in Hin.
    destruct Hin as [x [Hx Hf]]. apply filter_In in Hf.
    apply in_map_iff. exists x. tauto.
  - intros H Hv. destruct (is_empty_or_unknown v0); simpl; [|rewrite E]; now apply IH.
Qed.

Lemma lookup_clean_absent (k : string) (d : pydict) :
  lookup k d = None -> lookup k (clean_entries d) = None.
Proof.
  unfold clean_entries. induction d as [|[k0 v0] d IH]; simpl; [reflexivity|].
  destruct (k0 =? k) eqn:E; [discriminate|].
  intro H. destruct (is_empty_or_unknown v0); simpl; [|rewrite E]; now apply IH.
Qed.

(** The keys of a stripped mapping are keys of the mapping. *)
Lemma clean_entries_keys (k : string) (v : value) (d : pydict) :
  In (k, v) (clean_entries d) ->
  exists v0, In (k, v0) d /\ is_empty_or_unknown v0 = false
             /\ v = clean_empty_values v0.
Proof.
  unfold clean_entries. intro H. apply in_map_iff in H.
  destruct H as [[k0 v0] [He Hf]]. apply filter_In in Hf.
  simpl in *. injection He as <- <-. exists v0.
  destruct Hf as [Hin Hk]. apply negb_true_iff in Hk. auto.
Qed.

(** ** The licence: claim C6 *)

(** C6: for a dataset whose licence code is any string, the licence is
    computed without an exception.  The code ["odc-odbl"] (in any case, with
    white space around) gives [spdx_identifier] ["ODbL-1.0"] and
    [redistribution_allowed] ["yes"].  A code that is not empty and not in
    the table gives no [spdx_identifier], the four permission fields
    ["unknown"], the title of the dataset as [attribution_text], and one
    warning; so does the code the table maps to no identifier. *)
Theorem license_mapping (feed_id : string) (d : pydict) (code : string) :
  lookup "licence" d = Some (VStr code) ->
  exists license w,
    map_license feed_id (VDict d) = Ok (license, w)
    /\ (strip_space (lower code) = "odc-odbl" ->
        lookup "spdx_identifier" license = Some (VStr "ODbL-1.0")
        /\ lookup "redistribution_allowed" license = Some (VStr "yes")
        /\ w = [])
    /\ (code <> "" ->
        license_map_find (strip_space (lower code)) license_map = None
        \/ license_map_find (strip_space (lower code)) license_map = Some None ->
        lookup "spdx_identifier" license = None
        /\ lookup "redistribution_allowed" license = Some (VStr "unknown")
        /\ lookup "commercial_use_allowed" license = Some (VStr "unknown")
        /\ lookup "create_derived_product" license = Some (VStr "unknown")
        /\ lookup "share_alike_optional" license = Some (VStr "unknown")
        /\ lookup "attribution_text" license = Some (title_of d)
        /\ (w = [UnknownLicenseType feed_id (strip_space (lower code))]
            \/ w = [NoSpdxIdentifier (strip_space (lower code))])).
Proof.
  intro Hl. unfold map_license. cbn [get bind]. rewrite Hl.
  cbn [truthy_opt truthy or_none].
  destruct (code =? "") eqn:Ec; cbn [negb].
  - apply String.eqb_eq in Ec. subst code.
    eexists. eexists. split; [reflexivity|]. split.
    + intro H. vm_compute in H. discriminate H.
    + intro H. congruence.
  - unfold get_default. cbn [get bind]. fold (title_of d).
    destruct (license_for_code feed_id (title_of d)
               (if truthy_opt (lookup "page_url" d)
                then setitem "url" (or_none (lookup "page_url" d)) [] else [])
               code) as [license w] eqn:E.
    exists license, w. split; [reflexivity|].
    unfold license_for_code in E. split.
    + intro Hk. rewrite Hk in E.
      destruct (truthy_opt (lookup "page_url" d)); injection E as <- <-; repeat split.
    + intros _ [Hf|Hf]; rewrite Hf in E;
        destruct (truthy_opt (lookup "page_url" d)); injection E as <- <-;
        repeat split; auto.
Qed.

Lemma license_mapping_samples :
  (exists license w,
      map_license "f-acme~metro~fr" (VDict (dataset_titled "odc-odbl")) = Ok (license, w)
      /\ lookup "spdx_identifier" license = Some (VStr "ODbL-1.0")
      /\ lookup "redistribution_allowed" license = Some (VStr "yes"))
  /\ (exists license w,
      map_license "f-acme~metro~fr" (VDict (dataset_titled "unknown-code-xyz")) = Ok (license, w)
      /\ lookup "spdx_identifier" license = None
      /\ lookup "redistribution_allowed" license = Some (VStr "unknown")
      /\ lookup "attribution_text" license = Some (VStr "Acme Metro")
      /\ w = [UnknownLicenseType "f-acme~metro~fr" "unknown-code-xyz"]).
Proof.
  split.
  - destruct (license_mapping "f-acme~metro~fr" (dataset_titled "odc-odbl") "odc-odbl" eq_refl)
      as [license [w [H1 [H2 _]]]].
    exists license, w. split; [exact H1|].
    destruct (H2 eq_refl) as [Ha [Hb _]]. split; assumption.
  - destruct (license_mapping "f-acme~metro~fr" (dataset_titled "unknown-code-xyz")
                "unknown-code-xyz" eq_refl)
      as [license [w [H1 [_ H3]]]].
    exists license, w. split; [exact H1|].
    assert (Hne : "unknown-code-xyz" <> "") by discriminate.
    destruct (H3 Hne (or_introl eq_refl)) as [Ha [Hb [_ [_ [_ [Hf Hw]]]]]].
    repeat split; try assumption.
    destruct Hw as [Hw|Hw]; [exact Hw|].
    rewrite Hw in H1. vm_compute in H1. discriminate H1.
Defined.

(** ** [create_feed_record] returns: the record before the strip pass *)

Lemma any_domain_in_ok (ds : list string) (url : value) :
  is_container url = true -> exists b, any_domain_in ds url = Ok b.
Proof.
  intro H. induction ds as [|x ds [b IH]]; simpl.
  - now exists false.
  - destruct url; try discriminate H; cbn [py_in bind];
      match goal with |- context [if ?c then _ else _] => destruct c end; eauto.
Qed.

Lemma preserve_existing_ok (feed_id : string) (url : value) (license e rec : pydict) :
  prior_ok url e = true ->
  exists w, preserve_existing feed_id url license (VDict e) rec
            = Ok (preserved_record license e rec, w).
Proof.
  intro H. unfold prior_ok in H. rewrite !andb_true_iff in H.
  destruct H as [[[[H1 H2] H3] H4] H5].
  unfold preserve_existing, preserve, get_default. cbn [get bind].
  assert (Hu : get (match lookup "urls" e with Some v => v | None => VDict [] end)
                   "static_current" = Ok (existing_url_of e)).
  { unfold existing_url_of. destruct (lookup "urls" e) as [[| | | | |u]|];
      try discriminate H1; reflexivity. }
  rewrite Hu. cbn [bind].
  assert (Hw : exists w,
    (if truthy_opt (existing_url_of e) && negb (py_eqb (or_none (existing_url_of e)) url)
     then french <- any_domain_in ["data.gouv.fr"; ".fr/gtfs"] url ;;
          Ok (if french then [] else [UrlNotFrench feed_id url])
     else Ok []) = Ok w).
  { destruct (truthy_opt (existing_url_of e) && negb (py_eqb (or_none (existing_url_of e)) url)).
    - simpl in H2. destruct (any_domain_in_ok ["data.gouv.fr"; ".fr/gtfs"] url H2) as [b Hb].
      rewrite Hb. cbn [bind]. eauto.
    - eauto. }
  destruct Hw as [w Hw]. rewrite Hw. cbn [bind]. exists w.
  unfold preserved_record, license_preserved.
  destruct (truthy_opt (lookup "feed_versions" e)) eqn:Efv.
  - simpl in H3. rewrite H3. cbn [bind].
    assert (Hl : get (existing_license_of e) "spdx_identifier" = Ok (spdx_of (existing_license_of e))).
    { unfold existing_license_of, spdx_of. destruct (lookup "license" e) as [[| | | | |u]|];
        try discriminate H4; reflexivity. }
    fold (existing_license_of e). rewrite Hl. cbn [bind]. reflexivity.
  - cbn [bind].
    assert (Hl : get (existing_license_of e) "spdx_identifier" = Ok (spdx_of (existing_license_of e))).
    { unfold existing_license_of, spdx_of. destruct (lookup "license" e) as [[| | | | |u]|];
        try discriminate H4; reflexivity. }
    fold (existing_license_of e). rewrite Hl. cbn [bind]. reflexivity.
Qed.

Lemma map_license_ok (feed_id : string) (d : pydict) :
  licence_ok d = true -> exists lw, map_license feed_id (VDict d) = Ok lw.
Proof.
  unfold licence_ok, map_license, get_default. cbn [get bind].
  destruct (lookup "licence" d) as [[| | |s| |]|]; cbn [truthy_opt or_none];
    intro H; try (rewrite (proj1 (negb_true_iff _) H)); eauto.
  destruct (truthy (VStr s)); eauto.
Qed.

Lemma merge_tags_ok (tags e rec : pydict) :
  falsy_or_dict (lookup "tags" e) = true ->
  merge_tags tags (VDict e) rec =
  Ok (match lookup "tags" e with
      | Some (VDict t) =>
          if truthy (VDict t) then setitem "tags" (VDict (update t tags)) rec else rec
      | _ => rec
      end).
Proof.
  unfold merge_tags, falsy_or_dict. cbn [get bind].
  destruct (lookup "tags" e) as [[| | | | |t]|]; cbn [truthy_opt or_none];
    intro H; try (rewrite (proj1 (negb_true_iff _) H)); try reflexivity.
  destruct (truthy (VDict t)); reflexivity.
Qed.

Lemma merged_record_ok (d existing rd : pydict) (slug : string) (url dataset_id : value) :
  lookup "slug" d = Some (VStr slug) ->
  lookup "url" rd = Some url ->
  lookup "id" d = Some dataset_id ->
  licence_ok d = true ->
  prior_fine url (lookup (feed_id_of_slug slug) existing) = true ->
  exists license wl w,
    map_license (feed_id_of_slug slug) (VDict d) = Ok (license, wl)
    /\ merged_record (VDict d) existing (VDict rd) =
       Ok (merged_with (lookup (feed_id_of_slug slug) existing) license
             [("fr_nap_dataset_id", dataset_id)]
             (base_record (feed_id_of_slug slug) url license
                (or_none (lookup "title" d)) dataset_id), w).
Proof.
  intros Hs Hu Hi Hl Hp.
  destruct (map_license_ok (feed_id_of_slug slug) d Hl) as [[license wl] Hm].
  exists license, wl.
  unfold merged_record. cbn [getitem get bind str_lower]. rewrite Hs, Hu, Hi.
  cbn [bind str_lower]. fold (feed_id_of_slug slug). rewrite Hm. cbn [bind fst snd].
  change (update [("static_current", url)]
            (filter (fun kv => truthy (snd kv)) realtime_urls))
    with [("static_current", url)].
  fold (base_record (feed_id_of_slug slug) url license (or_none (lookup "title" d)) dataset_id).
  destruct (lookup (feed_id_of_slug slug) existing) as [v|];
    [|eexists; split; reflexivity].
  destruct (truthy v) eqn:Et.
  - unfold prior_fine in Hp.
    destruct v as [| | | | |[|kv e]];
      try (rewrite Et in Hp; discriminate Hp); try discriminate Et.
    destruct (preserve_existing_ok (feed_id_of_slug slug) url license (kv :: e)
                (base_record (feed_id_of_slug slug) url license
                   (or_none (lookup "title" d)) dataset_id) Hp) as [w Hw].
    rewrite Hw. cbn [bind fst snd].
    assert (Ht : falsy_or_dict (lookup "tags" (kv :: e)) = true).
    { unfold prior_ok in Hp. rewrite !andb_true_iff in Hp. apply Hp. }
    rewrite (merge_tags_ok _ _ _ Ht). cbn [bind].
    eexists. split; reflexivity.
  - exists wl. split; [reflexivity|].
    destruct v as [| | | | |[|kv e]]; try reflexivity. discriminate Et.
Qed.

Lemma create_feed_record_ok (d existing rd : pydict) (rs : list value)
    (slug : string) (url dataset_id : value) :
  lookup "resources" d = Some (VList rs) ->
  first_static_gtfs rs = Ok (Some (VDict rd)) ->
  lookup "slug" d = Some (VStr slug) ->
  lookup "url" rd = Some url ->
  lookup "id" d = Some dataset_id ->
  licence_ok d = true ->
  prior_fine url (lookup (feed_id_of_slug slug) existing) = true ->
  exists license wl w,
    let rec :=
      merged_with (lookup (feed_id_of_slug slug) existing) license
        [("fr_nap_dataset_id", dataset_id)]
        (base_record (feed_id_of_slug slug) url license
           (or_none (lookup "title" d)) dataset_id) in
    map_license (feed_id_of_slug slug) (VDict d) = Ok (license, wl)
    /\ merged_record (VDict d) existing (VDict rd) = Ok (rec, w)
    /\ create_feed_record (VDict d) existing
       = Ok (Some (VDict (clean_entries rec)), w).
Proof.
  intros Hr Hf Hs Hu Hi Hl Hp.
  destruct (merged_record_ok d existing rd slug url dataset_id Hs Hu Hi Hl Hp)
    as [license [wl [w [Hm Hrec]]]].
  exists license, wl, w. cbv zeta. split; [exact Hm|]. split; [exact Hrec|].
  unfold create_feed_record, get_default. cbn [get bind]. rewrite Hr.
  cbn [iter bind]. rewrite Hf. cbn [bind truthy_opt truthy or_none].
  destruct rd as [|kv rd]; [discriminate Hu|].
  rewrite Hrec. cbn [bind fst snd]. now rewrite clean_dict_eq.
Qed.

(** Case analysis on the innermost conditions first. *)
Ltac split_ifs :=
  repeat match goal with
         | |- context [if ?c then _ else _] =>
             lazymatch c with
             | context [if _ then _ else _] => fail
             | _ => destruct c eqn:?
             end
         end.

Lemma lookup_preserved_other (k : string) (license e rec : pydict) :
  string_in k ["feed_versions"; "feed_state"; "name"; "license"; "languages"] = false ->
  lookup k (preserved_record license e rec) = lookup k rec.
Proof.
  unfold string_in. cbn [existsb]. rewrite !orb_false_iff.
  intros [H1 [H2 [H3 [H4 [H5 _]]]]].
  rewrite String.eqb_sym in H1, H2, H3, H4, H5.
  unfold preserved_record. cbv zeta.
  destruct (truthy_opt (lookup "feed_versions" e));
    destruct (truthy_opt (lookup "feed_state" e));
    rewrite ?lookup_setitem; cbn [String.eqb Ascii.eqb Bool.eqb];
    split_ifs; rewrite ?lookup_setitem, ?H1, ?H2, ?H3, ?H4, ?H5; reflexivity.
Qed.

Lemma lookup_preserved_versions (license e rec : pydict) :
  lookup "feed_versions" (preserved_record license e rec) =
  if truthy_opt (lookup "feed_versions" e)
  then Some (or_none (lookup "feed_versions" e))
  else lookup "feed_versions" rec.
Proof.
  unfold preserved_record. cbv zeta.
  destruct (truthy_opt (lookup "feed_versions" e));
    destruct (truthy_opt (lookup "feed_state" e));
    rewrite ?lookup_setitem; cbn [String.eqb Ascii.eqb Bool.eqb];
    split_ifs; rewrite ?lookup_setitem; reflexivity.
Qed.

Lemma lookup_preserved_state (license e rec : pydict) :
  lookup "feed_state" (preserved_record license e rec) =
  if truthy_opt (lookup "feed_state" e)
  then Some (or_none (lookup "feed_state" e))
  else lookup "feed_state" rec.
Proof.
  unfold preserved_record. cbv zeta.
  destruct (truthy_opt (lookup "feed_versions" e));
    destruct (truthy_opt (lookup "feed_state" e));
    rewrite ?lookup_setitem; cbn [String.eqb Ascii.eqb Bool.eqb];
    split_ifs; rewrite ?lookup_setitem; reflexivity.
Qed.

Lemma lookup_preserved_name (license e rec : pydict) :
  lookup "name" (preserved_record license e rec) =
  if negb (truthy_opt (lookup "name" rec)) && truthy_opt (lookup "name" e)
  then Some (or_none (lookup "name" e))
  else lookup "name" rec.
Proof.
  unfold preserved_record. cbv zeta.
  destruct (truthy_opt (lookup "feed_versions" e));
    destruct (truthy_opt (lookup "feed_state" e));
    rewrite ?lookup_setitem; cbn [String.eqb Ascii.eqb Bool.eqb];
    split_ifs; rewrite ?lookup_setitem; reflexivity.
Qed.

Lemma lookup_preserved_license (license e rec : pydict) :
  lookup "license" (preserved_record license e rec) =
  if license_preserved license e
  then Some (existing_license_of e)
  else lookup "license" rec.
Proof.
  unfold preserved_record. cbv zeta.
  destruct (truthy_opt (lookup "feed_versions" e));
    destruct (truthy_opt (lookup "feed_state" e));
    rewrite ?lookup_setitem; cbn [String.eqb Ascii.eqb Bool.eqb];
    split_ifs; rewrite ?lookup_setitem; reflexivity.
Qed.

Lemma lookup_merged_untagged (k : string) (o : option value)
    (license tags rec : pydict) :
  (k =? "tags") = false ->
  lookup k (merged_with o license tags rec) =
  match o with
  | Some (VDict (kv :: e)) => lookup k (preserved_record license (kv :: e) rec)
  | _ => lookup k rec
  end.
Proof.
  intro Hk. rewrite String.eqb_sym in Hk. unfold merged_with.
  destruct o as [[| | | | |[|kv e]]|]; try reflexivity. cbv zeta.
  destruct (lookup "tags" (kv :: e)) as [[| | | | |t]|]; try reflexivity.
  destruct (truthy (VDict t)); [|reflexivity].
  now rewrite lookup_setitem, Hk.
Qed.

Lemma lookup_merged_tags (kv : string * value) (e license tags rec : pydict) :
  lookup "tags" rec = Some (VDict tags) ->
  lookup "tags" (merged_with (Some (VDict (kv :: e))) license tags rec) =
  Some (VDict (merged_tags tags (kv :: e))).
Proof.
  intro H. unfold merged_with, merged_tags. cbv zeta.
  assert (Hp : lookup "tags" (preserved_record license (kv :: e) rec) = Some (VDict tags))
    by (rewrite lookup_preserved_other; [exact H | reflexivity]).
  destruct (lookup "tags" (kv :: e)) as [[| | | | |t]|]; try exact Hp.
  destruct (truthy (VDict t)); [|exact Hp].
  rewrite lookup_setitem. reflexivity.
Qed.

Lemma preserved_record_keys (license e rec : pydict) :
  NoDup (map fst rec) -> NoDup (map fst (preserved_record license e rec)).
Proof.
  intro H. unfold preserved_record. cbv zeta.
  destruct (truthy_opt (lookup "feed_versions" e));
    destruct (truthy_opt (lookup "feed_state" e));
    split_ifs; repeat apply setitem_keys; exact H.
Qed.

Lemma merged_with_keys (o : option value) (license tags rec : pydict) :
  NoDup (map fst rec) -> NoDup (map fst (merged_with o license tags rec)).
Proof.
  intro H. unfold merged_with.
  destruct o as [[| | | | |[|kv e]]|]; try exact H. cbv zeta.
  pose proof (preserved_record_keys license (kv :: e) rec H) as Hp.
  destruct (lookup "tags" (kv :: e)) as [[| | | | |t]|]; try exact Hp.
  destruct (truthy (VDict t)); [|exact Hp].
  now apply setitem_keys.
Qed.

Lemma base_record_keys (feed_id : string) (url : value) (license : pydict)
    (title dataset_id : value) :
  NoDup (map fst (base_record feed_id url license title dataset_id)).
Proof.
  simpl. repeat constructor; simpl; intuition discriminate.
Qed.

Lemma lookup_in (k : string) (v : value) (d : pydict) :
  lookup k d = Some v -> In (k, v) d.
Proof.
  induction d as [|[k0 v0] d IH]; simpl; [discriminate|].
  destruct (k0 =? k) eqn:E.
  - apply String.eqb_eq in E. intros [= ->]. left. now subst.
  - intro H. right. now apply IH.
Qed.

Lemma in_lookup (k : string) (v : value) (d : pydict) :
  NoDup (map fst d) -> In (k, v) d -> lookup k d = Some v.
Proof.
  induction d as [|[k0 v0] d IH]; simpl; [contradiction|].
  intros Hnd [H|H]; inversion Hnd as [|? ? Hn Hd]; subst.
  - injection H as -> ->. now rewrite String.eqb_refl.
  - destruct (k0 =? k) eqn:E; [|now apply IH].
    apply String.eqb_eq in E. subst k0. exfalso. apply Hn.
    apply in_map_iff. now exists (k, v).
Qed.

Lemma lookup_clean_inv (k : string) (v : value) (d : pydict) :
  NoDup (map fst d) ->
  lookup k (clean_entries d) = Some v ->
  exists v0, lookup k d = Some v0 /\ is_empty_or_unknown v0 = false
             /\ v = clean_empty_values v0.
Proof.
  intros Hnd H. apply lookup_in, clean_entries_keys in H.
  destruct H as [v0 [Hin [He Hv]]]. exists v0.
  split; [now apply in_lookup | auto].
Qed.

Lemma license_not_preserved (o : option value) (license tags rec : pydict) :
  prior_has_spdx o = false ->
  lookup "license" (merged_with o license tags rec) = lookup "license" rec.
Proof.
  intro H. rewrite lookup_merged_untagged by reflexivity.
  destruct o as [[| | | | |[|kv e]]|]; try reflexivity.
  rewrite lookup_preserved_license. unfold license_preserved.
  simpl in H. now rewrite H.
Qed.

Lemma truthy_or_none (o : option value) : truthy (or_none o) = truthy_opt o.
Proof. destruct o; reflexivity. Qed.

(** ** The record returned: claims C10 and C4 *)

Section DatasetRead.

(** A dataset that is read without an exception: it has a static GTFS
    resource with a URL, a slug that is a string, and an identifier. *)
Variables (d existing rd : pydict) (rs : list value).
Variables (slug : string) (url dataset_id : value).
Hypothesis Hresources : lookup "resources" d = Some (VList rs).
Hypothesis Hstatic : first_static_gtfs rs = Ok (Some (VDict rd)).
Hypothesis Hslug : lookup "slug" d = Some (VStr slug).
Hypothesis Hurl : lookup "url" rd = Some url.
Hypothesis Hid : lookup "id" d = Some dataset_id.

(** C10: for a dataset whose licence code is absent or empty, read without an
    exception, and an existing feed (if any) that brings no licence with an
    [spdx_identifier], the record is produced and the licence computed is the
    page URL alone, with no permission field, no [attribution_text] and no
    warning.  The record returned then has no ["license"] entry when the page
    URL is absent, the licence [{"url": page_url}] when the page URL is a
    string other than the placeholders, and in every case no field but
    ["url"] in its licence. *)
Theorem absent_licence_keeps_url_only :
  truthy_opt (lookup "licence" d) = false ->
  prior_fine url (lookup (feed_id_of_slug slug) existing) = true ->
  prior_has_spdx (lookup (feed_id_of_slug slug) existing) = false ->
  exists r w,
    create_feed_record (VDict d) existing = Ok (Some (VDict r), w)
    /\ map_license (feed_id_of_slug slug) (VDict d) =
       Ok (if truthy_opt (lookup "page_url" d)
           then [("url", or_none (lookup "page_url" d))] else [], [])
    /\ (truthy_opt (lookup "page_url" d) = false -> lookup "license" r = None)
    /\ (forall u, lookup "page_url" d = Some (VStr u) -> u <> "" -> u <> "unknown" ->
        lookup "license" r = Some (VDict [("url", VStr u)]))
    /\ (forall lic, lookup "license" r = Some lic ->
        exists l, lic = VDict l /\ forall k v, In (k, v) l -> k = "url").
Proof.
  intros Hlic Hp Hn.
  assert (Hok : licence_ok d = true).
  { unfold licence_ok. destruct (lookup "licence" d) as [[]|]; try reflexivity;
      simpl in Hlic |- *; now rewrite Hlic. }
  destruct (create_feed_record_ok d existing rd rs slug url dataset_id
              Hresources Hstatic Hslug Hurl Hid Hok Hp)
    as [license [wl [w [Hm [_ Hc]]]]].
  assert (Hm' : map_license (feed_id_of_slug slug) (VDict d) =
                Ok (if truthy_opt (lookup "page_url" d)
                    then [("url", or_none (lookup "page_url" d))] else [], [])).
  { unfold map_license. cbn [get bind]. rewrite Hlic.
    destruct (truthy_opt (lookup "page_url" d)); reflexivity. }
  rewrite Hm' in Hm. injection Hm as <- <-.
  eexists. exists w. split; [exact Hc|]. split; [exact Hm'|].
  set (lic := if truthy_opt (lookup "page_url" d)
              then [("url", or_none (lookup "page_url" d))] else []) in *.
  set (rec := base_record (feed_id_of_slug slug) url lic (or_none (lookup "title" d)) dataset_id).
  set (M := merged_with (lookup (feed_id_of_slug slug) existing) lic
              [("fr_nap_dataset_id", dataset_id)] rec).
  assert (HM : lookup "license" M = Some (VDict lic)).
  { unfold M. now rewrite license_not_preserved. }
  assert (Hnd : NoDup (map fst M)) by apply merged_with_keys, base_record_keys.
  split; [|split].
  - intro Hpu. apply (lookup_clean_dropped _ _ _ Hnd HM).
    unfold lic. now rewrite Hpu.
  - intros u Hpu Hu1 Hu2.
    rewrite (lookup_clean_kept _ _ _ HM).
    + unfold lic. rewrite Hpu. cbn [truthy_opt truthy or_none].
      apply String.eqb_neq in Hu1, Hu2. rewrite Hu1. cbn [negb].
      rewrite clean_dict_eq. unfold clean_entries. cbn [filter map snd fst is_empty_or_unknown].
      rewrite Hu1, Hu2. reflexivity.
    + unfold lic. rewrite Hpu. cbn [truthy_opt truthy or_none].
      apply String.eqb_neq in Hu1. rewrite Hu1. reflexivity.
  - intros licv Hl. apply (lookup_clean_inv _ _ _ Hnd) in Hl.
    destruct Hl as [v0 [H0 [_ ->]]]. rewrite HM in H0. injection H0 as <-.
    rewrite clean_dict_eq. eexists. split; [reflexivity|].
    intros k v Hin. apply clean_entries_keys in Hin.
    destruct Hin as [v1 [Hin _]]. unfold lic in Hin.
    destruct (truthy_opt (lookup "page_url" d)); simpl in Hin; [|contradiction].
    destruct Hin as [Hin|[]]. congruence.
Qed.

(** C4, amended: for a dataset read without an exception whose identifier
    matches an existing feed with fields of the expected types, the record
    is produced, and before the strip pass it holds: the [feed_versions] and
    the [feed_state] of the existing feed as they are, when they are not
    empty; the title of the dataset as [name], or the name of the existing
    feed when the dataset has no title; the licence of the existing feed, as
    a whole, exactly when that one has an [spdx_identifier] and the new
    licence has none; and as [tags] the tags of the existing feed with the
    new provenance tag written over them, every other tag being kept.  The
    record returned is that record after the strip pass: each field that is
    not empty and not ["unknown"] is there in its stripped form, so a
    preserved field is verbatim only when it holds no placeholder, and the
    provenance tag is kept whenever the dataset identifier is itself no
    placeholder. *)
Theorem merge_preserves_prior (e : pydict) :
  licence_ok d = true ->
  lookup (feed_id_of_slug slug) existing = Some (VDict e) ->
  e <> [] ->
  prior_ok url e = true ->
  exists rec license wl w,
    merged_record (VDict d) existing (VDict rd) = Ok (rec, w)
    /\ create_feed_record (VDict d) existing
       = Ok (Some (clean_empty_values (VDict rec)), w)
    /\ map_license (feed_id_of_slug slug) (VDict d) = Ok (license, wl)
    /\ (truthy_opt (lookup "feed_versions" e) = true ->
        lookup "feed_versions" rec = lookup "feed_versions" e)
    /\ (truthy_opt (lookup "feed_state" e) = true ->
        lookup "feed_state" rec = lookup "feed_state" e)
    /\ lookup "name" rec =
       Some (if negb (truthy_opt (lookup "title" d)) && truthy_opt (lookup "name" e)
             then or_none (lookup "name" e)
             else or_none (lookup "title" d))
    /\ lookup "license" rec =
       Some (if license_preserved license e then existing_license_of e
             else VDict license)
    /\ (exists tags,
          lookup "tags" rec = Some (VDict tags)
          /\ lookup "fr_nap_dataset_id" tags = Some dataset_id
          /\ (forall k t, k <> "fr_nap_dataset_id" ->
                lookup "tags" e = Some (VDict t) -> t <> [] ->
                lookup k tags = lookup k t)
          /\ (is_empty_or_unknown dataset_id = false ->
              exists stripped,
                lookup "tags" (clean_entries rec) = Some (VDict stripped)
                /\ lookup "fr_nap_dataset_id" stripped
                   = Some (clean_empty_values dataset_id)))
    /\ (forall k v, lookup k rec = Some v -> is_empty_or_unknown v = false ->
        lookup k (clean_entries rec) = Some (clean_empty_values v)).
Proof.
  intros Hl He Hne Hp.
  assert (Hfine : prior_fine url (lookup (feed_id_of_slug slug) existing) = true).
  { rewrite He. unfold prior_fine. destruct e; [reflexivity | exact Hp]. }
  destruct (create_feed_record_ok d existing rd rs slug url dataset_id
              Hresources Hstatic Hslug Hurl Hid Hl Hfine)
    as [license [wl [w [Hm [Hrec Hc]]]]].
  rewrite <- clean_dict_eq in Hc. rewrite He in Hrec, Hc.
  destruct e as [|kv e]; [congruence|].
  set (tags0 := [("fr_nap_dataset_id", dataset_id)]) in *.
  set (rec0 := base_record (feed_id_of_slug slug) url license
                 (or_none (lookup "title" d)) dataset_id) in *.
  set (M := merged_with (Some (VDict (kv :: e))) license tags0 rec0) in *.
  exists M, license, wl, w.
  split; [exact Hrec|]. split; [exact Hc|]. split; [exact Hm|].
  assert (Hk : forall k, (k =? "tags") = false ->
                 lookup k M = lookup k (preserved_record license (kv :: e) rec0)).
  { intros k Hk. unfold M. now rewrite lookup_merged_untagged. }
  split; [|split; [|split; [|split; [|split]]]].
  - intro Ht. rewrite Hk by reflexivity. rewrite lookup_preserved_versions, Ht.
    destruct (lookup "feed_versions" (kv :: e)); [reflexivity | discriminate Ht].
  - intro Ht. rewrite Hk by reflexivity. rewrite lookup_preserved_state, Ht.
    destruct (lookup "feed_state" (kv :: e)); [reflexivity | discriminate Ht].
  - rewrite Hk by reflexivity. rewrite lookup_preserved_name.
    change (lookup "name" rec0) with (Some (or_none (lookup "title" d))).
    cbn [truthy_opt]. rewrite truthy_or_none.
    now destruct (negb _ && _).
  - rewrite Hk by reflexivity. rewrite lookup_preserved_license.
    now destruct (license_preserved license (kv :: e)).
  - exists (merged_tags tags0 (kv :: e)).
    assert (Ht : lookup "tags" M = Some (VDict (merged_tags tags0 (kv :: e))))
      by (unfold M; now apply lookup_merged_tags).
    assert (Hprov : lookup "fr_nap_dataset_id" (merged_tags tags0 (kv :: e))
                    = Some dataset_id).
    { unfold merged_tags.
      destruct (lookup "tags" (kv :: e)) as [[| | | | |t]|]; try reflexivity.
      destruct (truthy (VDict t)); [|reflexivity].
      unfold update, tags0. cbn [fold_left fst snd].
      now rewrite lookup_setitem, String.eqb_refl. }
    split; [exact Ht|]. split; [exact Hprov|]. split.
    + intros k t Hkp Htags Htne. unfold merged_tags. rewrite Htags.
      destruct t as [|x t]; [congruence|]. cbn [truthy].
      unfold update, tags0. cbn [fold_left fst snd].
      rewrite lookup_setitem.
      destruct ("fr_nap_dataset_id" =? k) eqn:E; [|reflexivity].
      apply String.eqb_eq in E. congruence.
    + intro Hd.
      assert (Hnonempty : is_empty_or_unknown (VDict (merged_tags tags0 (kv :: e))) = false).
      { destruct (merged_tags tags0 (kv :: e)); [discriminate Hprov | reflexivity]. }
      exists (clean_entries (merged_tags tags0 (kv :: e))). split.
      * rewrite (lookup_clean_kept _ _ _ Ht Hnonempty). now rewrite clean_dict_eq.
      * now apply lookup_clean_kept.
  - intros k v. apply lookup_clean_kept.
Qed.

End DatasetRead.

Lemma absent_licence_sample :
  exists r w,
    create_feed_record (VDict dataset_no_licence) [] = Ok (Some (VDict r), w)
    /\ lookup "license" r = Some (VDict [("url", VStr "https://example.fr/acme")]).
Proof.
  destruct (absent_licence_keeps_url_only dataset_no_licence [] sample_resource
              [VDict sample_resource] "acme-metro" (VStr "http://x/a.zip")
              (VStr "abc123") eq_refl eq_refl eq_refl eq_refl eq_refl eq_refl
              eq_refl eq_refl) as [r [w [Hc [_ [_ [Hu _]]]]]].
  exists r, w. split; [exact Hc|].
  apply Hu; [reflexivity | discriminate | discriminate].
Defined.

(** ** Samples of the merge, and claim C5 *)

Lemma merge_preserves_prior_sample :
  exists rec w,
    create_feed_record (VDict (dataset_titled "lov2")) existing_acme
    = Ok (Some (clean_empty_values (VDict rec)), w)
    /\ lookup "feed_versions" rec = lookup "feed_versions" prior_acme_fields
    /\ lookup "feed_state" rec = lookup "feed_state" prior_acme_fields
    /\ lookup "name" rec = Some (VStr "Acme Metro").
Proof.
  destruct (merge_preserves_prior (dataset_titled "lov2") existing_acme sample_resource
              [VDict sample_resource] "acme-metro"
              (VStr "http://x/a.zip") (VStr "abc123")
              eq_refl eq_refl eq_refl eq_refl eq_refl
              prior_acme_fields eq_refl eq_refl)
    as [rec [license [wl [w [_ [Hc [_ [Hv [Hs [Hn _]]]]]]]]]].
  - discriminate.
  - reflexivity.
  - exists rec, w. split; [exact Hc|]. split; [apply Hv; reflexivity|].
    split; [apply Hs; reflexivity | exact Hn].
Defined.

(** C4, as stated, fails: the fields taken over from the existing feed pass
    through the strip pass with the rest of the record.  Here the version
    descriptor loses its empty [url], and the [feed_state] ["unknown"] is
    dropped altogether. *)
Lemma prior_fields_not_verbatim :
  exists r w,
    create_feed_record (VDict (dataset_titled "lov2")) existing_acme
    = Ok (Some (VDict r), w)
    /\ lookup "feed_versions" prior_acme_fields
       = Some (VList [VDict [("sha1", VStr "abc"); ("url", VStr "")]])
    /\ lookup "feed_versions" r = Some (VList [VDict [("sha1", VStr "abc")]])
    /\ lookup "feed_state" prior_acme_fields = Some (VStr "unknown")
    /\ lookup "feed_state" r = None.
Proof. eexists. eexists. vm_compute. repeat split. Qed.

(** A step that returned: [bind m k = Ok x] gives [m = Ok a]. *)
Ltac inv_bind H :=
  match type of H with
  | bind ?m _ = Ok _ =>
      let E := fresh "E" in
      destruct m eqn:E; cbn [bind] in H; [|discriminate H]
  end.

Lemma preserve_lookup (k key : string) (e : value) (rec rec' : pydict) :
  (key =? k) = false ->
  preserve key e rec = Ok rec' -> lookup k rec' = lookup k rec.
Proof.
  intros Hk H. unfold preserve in H. inv_bind H. injection H as <-.
  destruct (truthy_opt o); [|reflexivity]. now rewrite lookup_setitem, Hk.
Qed.

Lemma preserve_existing_id (feed_id : string) (url : value) (license : pydict)
    (e : value) (rec : pydict) (r : pydict * list warning) :
  preserve_existing feed_id url license e rec = Ok r ->
  lookup "id" (fst r) = lookup "id" rec.
Proof.
  intro H. unfold preserve_existing in H.
  do 5 inv_bind H.
  assert (H1 : lookup "id" p = lookup "id" rec).
  { destruct (truthy_opt o0); [|congruence].
    destruct (has_len (or_none o0)); [|discriminate E3].
    injection E3 as <-. now rewrite lookup_setitem. }
  inv_bind H.
  assert (H2 : lookup "id" p0 = lookup "id" p)
    by (eapply preserve_lookup; [|exact E4]; reflexivity).
  do 3 inv_bind H. inv_bind H. injection H as <-. cbn [fst].
  rewrite (preserve_lookup "id" "languages" _ _ _ eq_refl E8).
  split_ifs; rewrite ?lookup_setitem; cbn [String.eqb Ascii.eqb Bool.eqb];
    congruence.
Qed.

Lemma merge_tags_id (tags : pydict) (e : value) (rec rec' : pydict) :
  merge_tags tags e rec = Ok rec' -> lookup "id" rec' = lookup "id" rec.
Proof.
  intro H. unfold merge_tags in H. inv_bind H.
  destruct (truthy_opt o); [|congruence].
  destruct (or_none o); try discriminate H. injection H as <-.
  now rewrite lookup_setitem.
Qed.

Lemma merged_record_id (dataset : value) (existing : pydict) (res : value)
    (r : pydict * list warning) :
  merged_record dataset existing res = Ok r ->
  exists slug,
    getitem dataset "slug" = Ok (VStr slug)
    /\ lookup "id" (fst r) = Some (VStr (feed_id_of_slug slug)).
Proof.
  intro H. unfold merged_record in H.
  inv_bind H. inv_bind H.
  destruct v as [| | |slug| |]; try discriminate E0.
  injection E0 as <-. exists slug. split; [reflexivity|].
  fold (feed_id_of_slug slug) in H.
  do 4 inv_bind H.
  destruct (lookup (feed_id_of_slug slug) existing) as [existing_feed|];
    [|injection H as <-; reflexivity].
  destruct (truthy existing_feed); [|injection H as <-; reflexivity].
  inv_bind H. inv_bind H. injection H as <-. cbn [fst].
  rewrite (merge_tags_id _ _ _ _ E5), (preserve_existing_id _ _ _ _ _ _ E4).
  reflexivity.
Qed.

Lemma feed_id_kept (slug : string) :
  is_empty_or_unknown (VStr (feed_id_of_slug slug)) = false.
Proof. reflexivity. Qed.

(** C5: [create_feed_record] is a function of the dataset and of the existing
    feeds, which it reads and does not change: equal arguments give equal
    results, warnings included.  The identifier of the record returned is
    [feed_id_of_slug] of the slug of the dataset, so two calls on datasets
    with the same slug return records with the same identifier, whatever
    the other fields and the existing feeds are. *)
Theorem create_feed_record_deterministic :
  (forall d d' e e',
      d = d' -> e = e' -> create_feed_record d e = create_feed_record d' e')
  /\ (forall d e r w,
        create_feed_record d e = Ok (Some r, w) ->
        exists slug,
          getitem d "slug" = Ok (VStr slug)
          /\ get r "id" = Ok (Some (VStr (feed_id_of_slug slug))))
  /\ (forall d e r w d' e' r' w',
        create_feed_record d e = Ok (Some r, w) ->
        create_feed_record d' e' = Ok (Some r', w') ->
        getitem d "slug" = getitem d' "slug" ->
        get r "id" = get r' "id").
Proof.
  assert (Hid : forall d e r w,
        create_feed_record d e = Ok (Some r, w) ->
        exists slug,
          getitem d "slug" = Ok (VStr slug)
          /\ get r "id" = Ok (Some (VStr (feed_id_of_slug slug)))).
  { intros d e r w H. unfold create_feed_record in H.
    do 3 inv_bind H.
    destruct (truthy_opt o); [|inv_bind H; discriminate H].
    inv_bind H. injection H as <- <-.
    destruct (merged_record_id _ _ _ _ E2) as [slug [Hs Hi]].
    exists slug. split; [exact Hs|].
    change (get (clean_empty_values (VDict (fst p))) "id" = Ok (Some (VStr (feed_id_of_slug slug)))).
    rewrite clean_dict_eq. cbn [get]. f_equal.
    apply (lookup_clean_kept _ _ _ Hi (feed_id_kept slug)). }
  split; [|split].
  - intros d d' e e' -> ->. reflexivity.
  - exact Hid.
  - intros d e r w d' e' r' w' H H' Hs.
    destruct (Hid _ _ _ _ H) as [slug [Hs1 Hi1]].
    destruct (Hid _ _ _ _ H') as [slug' [Hs2 Hi2]].
    rewrite Hi1, Hi2. congruence.
Qed.

Lemma create_feed_record_same_slug :
  exists r w r' w',
    create_feed_record (VDict (dataset_titled "lov2")) [] = Ok (Some r, w)
    /\ create_feed_record dataset_unknown_licence existing_acme = Ok (Some r', w')
    /\ get r "id" = get r' "id".
Proof.
  eexists. eexists. eexists. eexists.
  split; [vm_compute; reflexivity|]. split; [vm_compute; reflexivity|].
  eapply (proj2 (proj2 create_feed_record_deterministic)
            (VDict (dataset_titled "lov2")) [] _ _
            dataset_unknown_licence existing_acme).
  - vm_compute. reflexivity.
  - vm_compute. reflexivity.
  - reflexivity.
Defined.

(** Every record returned has gone through the strip pass. *)
Corollary returned_record_stripped (dataset : value) (existing : pydict)
    (r : value) (w : list warning) :
  create_feed_record dataset existing = Ok (Some r, w) ->
  no_placeholder r = true.
Proof.
  intro H. unfold create_feed_record in H. do 3 inv_bind H.
  destruct (truthy_opt o); [|inv_bind H; discriminate H].
  inv_bind H.
  assert (Hr : r = clean_empty_values (VDict (fst p))) by congruence.
  rewrite Hr. apply clean_no_placeholder.
Qed.

(** ** The change detector: claim C3 *)

Lemma feeds_to_write_keeps (head : value -> head_outcome) (existing : pydict)
    (new_feeds l : list value) (f : value) (d : decision) :
  feeds_to_write head existing new_feeds = Ok l ->
  In f new_feeds ->
  feed_decision head existing f = Ok d -> d <> Skip -> In f l.
Proof.
  revert l. induction new_feeds as [|g rest IH]; intros l H Hin Hd Hn; [contradiction|].
  cbn [feeds_to_write] in H. inv_bind H. inv_bind H. injection H as <-.
  destruct Hin as [->|Hin].
  - rewrite Hd in E. injection E as <-. destruct d; [left; reflexivity | congruence | left; reflexivity].
  - specialize (IH _ eq_refl Hin Hd Hn). destruct d0; [right | | right]; assumption.
Qed.

(** What is written was not skipped. *)
Lemma feeds_to_write_decided (head : value -> head_outcome) (existing : pydict)
    (new_feeds l : list value) (f : value) :
  feeds_to_write head existing new_feeds = Ok l ->
  In f l ->
  exists d, feed_decision head existing f = Ok d /\ d <> Skip.
Proof.
  revert l. induction new_feeds as [|g rest IH]; intros l H Hin.
  - injection H as <-. contradiction.
  - cbn [feeds_to_write] in H. inv_bind H. inv_bind H. injection H as <-.
    destruct d.
    + destruct Hin as [<-|Hin]; [exists Keep; split; [exact E | discriminate]|].
      now apply (IH _ eq_refl).
    + now apply (IH _ eq_refl).
    + destruct Hin as [<-|Hin]; [exists KeepOnError; split; [exact E | discriminate]|].
      now apply (IH _ eq_refl).
Qed.





(** ** The document written: claims C1 and C2 *)

Lemma feed_ids_ok (feeds : list value) :
  forallb writable feeds = true -> feed_ids feeds = Ok (map id_of feeds).
Proof.
  induction feeds as [|f feeds IH]; [reflexivity|].
  cbn [forallb]. rewrite andb_true_iff. intros [Hf Hr].
  cbn [feed_ids map]. unfold writable in Hf.
  destruct f as [| | | | |d]; try discriminate Hf. cbn [getitem id_of].
  destruct (lookup "id" d) as [i|]; [|discriminate Hf].
  cbn [bind or_none]. rewrite Hf, (IH Hr). reflexivity.
Qed.

Lemma preserved_feeds_ok (ids old : list value) :
  forallb stored old = true ->
  preserved_feeds ids old =
  Ok (filter (fun f => negb (existsb (py_eqb (id_of f)) ids)) old).
Proof.
  induction old as [|f old IH]; [reflexivity|].
  cbn [forallb]. rewrite andb_true_iff. intros [Hf Hr].
  cbn [preserved_feeds filter]. unfold stored in Hf.
  destruct f as [| | | | |d]; try discriminate Hf.
  cbn [get bind id_of]. unfold set_mem. rewrite Hf. cbn [bind].
  rewrite (IH Hr). cbn [bind].
  now destruct (existsb _ ids).
Qed.

(** The list written, for a document and incoming records of the expected
    types. *)
Lemma written_feeds_ok (doc : pydict) (old to_write : list value) :
  lookup "feeds" doc = Some (VList old) ->
  forallb writable to_write = true ->
  forallb stored old = true ->
  written_feeds (Document (VDict doc)) to_write =
  Ok (map clean_empty_values
        (filter (fun f => negb (replaced to_write f)) old ++ to_write)%list).
Proof.
  intros Hd Hw Ho.
  unfold written_feeds, combined_feeds, get_default. cbn [get bind].
  rewrite (feed_ids_ok _ Hw). cbn [bind]. rewrite Hd. cbn [iter bind].
  rewrite (preserved_feeds_ok _ _ Ho). reflexivity.
Qed.

(** C1, amended: for a document that holds a list of feed records and
    incoming records that are dicts with an identifier, the write produces
    the records of the document whose identifier is not among the incoming
    ones, in the order of the document, followed by the incoming records in
    their order, each of them passed through [clean_empty_values].  So every
    incoming record is written (stripped), no record of the document with an
    incoming identifier is kept, and every other record of the document is
    kept (stripped).  The list is not sorted.  Without a document, or with
    one that is not JSON, the incoming records alone are written. *)
Theorem registry_write (doc : pydict) (old to_write : list value) :
  lookup "feeds" doc = Some (VList old) ->
  forallb writable to_write = true ->
  forallb stored old = true ->
  let preserved := filter (fun f => negb (replaced to_write f)) old in
  let written := map clean_empty_values (preserved ++ to_write) in
  written_feeds (Document (VDict doc)) to_write = Ok written
  /\ (forall f, In f to_write -> In (clean_empty_values f) written)
  /\ (forall f, In f old -> replaced to_write f = false ->
      In (clean_empty_values f) written)
  /\ (forall f, In f preserved -> replaced to_write f = false)
  /\ written_feeds NoFile to_write = Ok (map clean_empty_values to_write)
  /\ written_feeds Corrupt to_write = Ok (map clean_empty_values to_write).
Proof.
  intros Hd Hw Ho preserved written.
  split; [|split; [|split; [|split]]].
  - now apply written_feeds_ok.
  - intros f Hin. apply in_map, in_or_app. now right.
  - intros f Hin Hr. apply in_map, in_or_app. left.
    apply filter_In. split; [exact Hin | now rewrite Hr].
  - intros f Hin. apply filter_In in Hin. destruct Hin as [_ H].
    now apply negb_true_iff in H.
  - split; reflexivity.
Qed.

Lemma registry_write_sample :
  written_feeds document_ab [feed_b'; feed_c]
  = Ok [feed_a; feed_b'; feed_c].
Proof.
  destruct (registry_write [("feeds", VList [feed_a; feed_b])] [feed_a; feed_b]
              [feed_b'; feed_c] eq_refl eq_refl eq_refl) as [H _].
  exact H.
Defined.

(** C1, as stated, fails: the feeds written are not sorted by identifier
    (the kept records come first, then the incoming ones), and a kept record
    is not unchanged when it holds an empty value. *)
Lemma written_feeds_not_sorted :
  written_feeds document_unsorted [feed_a]
  = Ok [VDict [("id", VStr "f-z~fr")]; feed_a]
  /\ sorted_by_id [VDict [("id", VStr "f-z~fr")]; feed_a] = false
  /\ ~ In (VDict [("id", VStr "f-z~fr"); ("name", VStr "")])
          [VDict [("id", VStr "f-z~fr")]; feed_a].
Proof.
  split; [reflexivity|]. split; [reflexivity|].
  intros [H|[H|[]]]; discriminate H.
Qed.

(** C2, on the code: with A and B in the document and B' and C coming in,
    the first write leaves A, B', C.  Transitland knows B under the fetched
    hash and C under another one, so B is reported unchanged (and C
    changed), and the script writes again with C alone.  That second write
    reads the document back and keeps every record whose identifier is not
    incoming, B' among them: the document still holds A, B', C, where the
    claim and the comment "Remove unchanged feeds from DMFR file" expect
    A, C. *)
Theorem pruned_feed_still_written :
  check_feed_versions fetched_rows directory_bc
  = ([ {| onestop_id := VStr "f-b~fr"; db_sha1 := VStr "h1";
          db_url := VStr "http://x/a.zip"; db_size_bytes := VInt 1000 |} ],
     [ ({| onestop_id := VStr "f-c~fr"; db_sha1 := VStr "h3";
           db_url := VStr "http://x/a.zip"; db_size_bytes := VInt 2000 |},
        StatusChanged (VStr "h2")) ])
  /\ write_dmfr_file (head_reporting None) [feed_b'; feed_c] directory_bc document_ab
     = Ok (Document (VDict [("feeds", VList [feed_a; feed_b'; feed_c])]))
  /\ remove_unchanged (head_reporting None) [feed_b'; feed_c] directory_bc
       (fst (check_feed_versions fetched_rows directory_bc))
       (Document (VDict [("feeds", VList [feed_a; feed_b'; feed_c])]))
     = Ok (Document (VDict [("feeds", VList [feed_a; feed_b'; feed_c])]))
  /\ main_write_and_confirm (head_reporting None) (head_reporting None)
       (Some fetched_rows) [feed_b'; feed_c] directory_bc document_ab
     = Ok (Document (VDict [("feeds", VList [feed_a; feed_b'; feed_c])])).
Proof. repeat split. Qed.

Lemma py_eqb_sym (a b : value) :
  hashable a = true -> hashable b = true -> py_eqb a b = py_eqb b a.
Proof.
  destruct a, b; simpl; intros; try reflexivity; try discriminate.
  - destruct b, b0; reflexivity.
  - apply Z.eqb_sym.
  - apply String.eqb_sym.
Qed.

Lemma unchanged_ids_ok (duplicates : list db_row) (ids : list value) :
  unchanged_ids_of duplicates = Ok ids ->
  ids = map onestop_id duplicates /\ forallb hashable ids = true.
Proof.
  revert ids. induction duplicates as [|d rest IH]; intros ids H.
  - injection H as <-. now split.
  - cbn [unchanged_ids_of] in H.
    destruct (hashable (onestop_id d)) eqn:Hh; [|discriminate H].
    inv_bind H. injection H as <-. destruct (IH _ eq_refl) as [-> Hr].
    split; [reflexivity|]. cbn [forallb]. now rewrite Hh, Hr.
Qed.

Lemma without_unchanged_kept (ids feeds kept : list value) (g : value) :
  without_unchanged ids feeds = Ok kept -> In g kept ->
  In g feeds /\ existsb (py_eqb (id_of g)) ids = false.
Proof.
  revert kept. induction feeds as [|f feeds IH]; intros kept H Hin.
  - injection H as <-. contradiction.
  - cbn [without_unchanged] in H. do 3 inv_bind H. injection H as <-.
    assert (Hv : v = id_of f).
    { destruct f as [| | | | |d]; try discriminate E. cbn [getitem] in E.
      cbn [id_of]. destruct (lookup "id" d); [|discriminate E].
      now injection E as <-. }
    unfold set_mem in E0. destruct (hashable v); [|discriminate E0].
    injection E0 as <-. subst v.
    destruct (existsb (py_eqb (id_of f)) ids) eqn:Hm.
    + destruct (IH _ eq_refl Hin). split; [now right | assumption].
    + destruct Hin as [<-|Hin]; [split; [now left | exact Hm]|].
      destruct (IH _ eq_refl Hin). split; [now right | assumption].
Qed.

Lemma feeds_to_write_subset (head : value -> head_outcome) (existing : pydict)
    (feeds l : list value) (g : value) :
  feeds_to_write head existing feeds = Ok l -> In g l -> In g feeds.
Proof.
  revert l. induction feeds as [|f feeds IH]; intros l H Hin.
  - injection H as <-. contradiction.
  - cbn [feeds_to_write] in H. do 2 inv_bind H. injection H as <-.
    destruct d; [destruct Hin as [<-|Hin]; [now left|] | | destruct Hin as [<-|Hin]; [now left|]];
      right; now apply (IH _ eq_refl).
Qed.

Lemma writable_hashable (f : value) : writable f = true -> hashable (id_of f) = true.
Proof.
  destruct f as [| | | | |d]; try discriminate. cbn [writable id_of].
  now destruct (lookup "id" d).
Qed.

(** The same for every input: a record of the document whose identifier is
    reported unchanged is still in the document after the second write. *)
Lemma remove_unchanged_keeps_feed (head : value -> head_outcome)
    (new_feeds : list value) (existing : pydict) (duplicates : list db_row)
    (l : list value) (f : value) (file2 : dmfr_file) :
  forallb stored l = true ->
  forallb writable new_feeds = true ->
  In f l ->
  In (id_of f) (map onestop_id duplicates) ->
  remove_unchanged head new_feeds existing duplicates
    (Document (VDict [("feeds", VList l)])) = Ok file2 ->
  exists l2,
    file2 = Document (VDict [("feeds", VList l2)])
    /\ In (clean_empty_values f) l2.
Proof.
  intros Hl Hn Hf Hd H. unfold remove_unchanged in H. do 2 inv_bind H.
  unfold write_dmfr_file in H. do 2 inv_bind H. injection H as <-.
  destruct (unchanged_ids_ok _ _ E) as [-> Hh].
  assert (Hsub : forall g, In g l2 -> In g new_feeds /\
            existsb (py_eqb (id_of g)) (map onestop_id duplicates) = false).
  { intros g Hg. apply (without_unchanged_kept _ _ _ _ E0).
    now apply (feeds_to_write_subset _ _ _ _ _ E1). }
  assert (Hw : forallb writable l2 = true).
  { apply forallb_forall. intros g Hg. destruct (Hsub g Hg) as [Hin _].
    now apply (proj1 (forallb_forall _ _) Hn). }
  rewrite (written_feeds_ok [("feeds", VList l)] l l2 eq_refl Hw Hl) in E2.
  injection E2 as <-.
  eexists. split; [reflexivity|].
  apply in_map, in_or_app. left. apply filter_In. split; [exact Hf|].
  apply negb_true_iff. unfold replaced.
  destruct (existsb (py_eqb (id_of f)) (map id_of l2)) eqn:Hx; [|reflexivity].
  apply existsb_exists in Hx. destruct Hx as [i [Hi He]].
  apply in_map_iff in Hi. destruct Hi as [g [<- Hg]].
  destruct (Hsub g Hg) as [Hgn Hgm].
  assert (Hfh : hashable (id_of f) = true)
    by (apply (proj1 (forallb_forall _ _) Hh); exact Hd).
  assert (Hgh : hashable (id_of g) = true)
    by (apply writable_hashable, (proj1 (forallb_forall _ _) Hn); exact Hgn).
  rewrite py_eqb_sym in He by assumption.
  assert (Hc : existsb (py_eqb (id_of g)) (map onestop_id duplicates) = true)
    by (apply existsb_exists; exists (id_of f); split; assumption).
  congruence.
Qed.

(** * Further properties *)

(** ** The datasets and their records *)

Lemma static_condition (u : string) :
  (u =? "GTFS") && negb (endswith u "-RT") = (u =? "GTFS").
Proof.
  destruct (u =? "GTFS") eqn:E; [|reflexivity].
  apply String.eqb_eq in E. subst u. reflexivity.
Qed.

Lemma first_static_gtfs_step (r : value) (rs : list value) (o : option value) :
  first_static_gtfs (r :: rs) = Ok o ->
  (is_static_gtfs r = true /\ o = Some r)
  \/ (is_static_gtfs r = false /\ first_static_gtfs rs = Ok o).
Proof.
  cbn [first_static_gtfs]. unfold get_default. intro H.
  destruct r as [| | | | |d]; try discriminate H. cbn [get bind] in H.
  unfold is_static_gtfs.
  destruct (lookup "format" d) as [[| | |f| |]|]; try discriminate H;
    cbn [str_upper bind] in H.
  - rewrite static_condition in H.
    destruct (upper f =? "GTFS"); [left | right]; split; congruence.
  - right. split; [reflexivity | exact H].
Qed.

Lemma first_static_gtfs_found_or_not (rs : list value) :
  (forall r, first_static_gtfs rs = Ok (Some r) ->
     exists before after,
       rs = (before ++ r :: after)%list
       /\ is_static_gtfs r = true
       /\ forallb (fun x => negb (is_static_gtfs x)) before = true
       /\ (forall f, get r "format" = Ok (Some (VStr f)) ->
           endswith (upper f) "-RT" = false))
  /\ (first_static_gtfs rs = Ok None ->
      forallb (fun x => negb (is_static_gtfs x)) rs = true).
Proof.
  induction rs as [|x rs [IH1 IH2]].
  - split; [discriminate | reflexivity].
  - split.
    + intros r H. apply first_static_gtfs_step in H.
      destruct H as [[Hx [= <-]]|[Hx H]].
      * exists [], rs. repeat split; try assumption.
        intros f Hf. unfold is_static_gtfs in Hx.
        destruct r as [| | | | |d]; try discriminate Hx. cbn [get] in Hf.
        injection Hf as Hf. rewrite Hf in Hx.
        apply String.eqb_eq in Hx. now rewrite Hx.
      * destruct (IH1 r H) as [before [after [-> [Hr [Hb Hf]]]]].
        exists (x :: before), after. repeat split; try assumption.
        cbn [forallb]. now rewrite Hx, Hb.
    + intro H. apply first_static_gtfs_step in H.
      destruct H as [[_ H]|[Hx H]]; [discriminate H|].
      cbn [forallb]. now rewrite Hx, (IH2 H).
Qed.

Lemma first_static_gtfs_found (rs : list value) (r : value) :
  first_static_gtfs rs = Ok (Some r) ->
  exists before after,
    rs = (before ++ r :: after)%list
    /\ is_static_gtfs r = true
    /\ forallb (fun x => negb (is_static_gtfs x)) before = true
    /\ (forall f, get r "format" = Ok (Some (VStr f)) ->
        endswith (upper f) "-RT" = false).
Proof. apply first_static_gtfs_found_or_not. Qed.

(** X1: the resource selected is the first one, in the order of the dataset,
    whose format reads GTFS in any case; no resource before it does, and its
    format does not end in -RT (the second test of the source never
    decides).  When none is selected, no resource of the dataset reads
    GTFS. *)
Theorem first_static_gtfs_selects (rs : list value) :
  (forall r, first_static_gtfs rs = Ok (Some r) ->
     exists before after,
       rs = (before ++ r :: after)%list
       /\ is_static_gtfs r = true
       /\ forallb (fun x => negb (is_static_gtfs x)) before = true
       /\ (forall f, get r "format" = Ok (Some (VStr f)) ->
           endswith (upper f) "-RT" = false))
  /\ (first_static_gtfs rs = Ok None ->
      forallb (fun x => negb (is_static_gtfs x)) rs = true).
Proof. apply first_static_gtfs_found_or_not. Qed.

Lemma first_static_gtfs_sample :
  first_static_gtfs [VDict [("format", VStr "GTFS-RT"); ("url", VStr "u0")];
                     VDict [("format", VStr "gtfs"); ("url", VStr "u1")];
                     VDict [("format", VStr "GTFS"); ("url", VStr "u2")]]
  = Ok (Some (VDict [("format", VStr "gtfs"); ("url", VStr "u1")]))
  /\ endswith (upper "gtfs") "-RT" = false.
Proof.
  split; [reflexivity|].
  destruct (proj1 (first_static_gtfs_selects _) _
    (eq_refl : first_static_gtfs
       [VDict [("format", VStr "GTFS-RT"); ("url", VStr "u0")];
        VDict [("format", VStr "gtfs"); ("url", VStr "u1")];
        VDict [("format", VStr "GTFS"); ("url", VStr "u2")]] = Ok (Some _)))
    as [before [after [_ [_ [_ H]]]]].
  apply H. reflexivity.
Defined.

Lemma filtered_have_static (datasets filtered : list value) :
  filter_gtfs_datasets datasets = Ok filtered ->
  forall d, In d filtered ->
    exists resources rs r,
      get_default d "resources" (VList []) = Ok resources
      /\ iter resources = Ok rs
      /\ first_static_gtfs rs = Ok (Some r) /\ is_static_gtfs r = true.
Proof.
  revert filtered. induction datasets as [|d ds IH]; intros filtered H x Hx.
  - injection H as <-. contradiction.
  - cbn [filter_gtfs_datasets] in H. do 4 inv_bind H. injection H as <-.
    destruct (truthy_opt o) eqn:Ho; [|now apply (IH _ eq_refl)].
    destruct Hx as [<-|Hx]; [|now apply (IH _ eq_refl)].
    destruct o as [r|]; [|discriminate Ho].
    exists v, l, r. repeat split; try assumption.
    destruct (first_static_gtfs_found l r E1) as [_ [_ [_ [Hr _]]]].
    exact Hr.
Qed.

Lemma static_is_truthy (r : value) : is_static_gtfs r = true -> truthy r = true.
Proof.
  destruct r as [| | | | |[|kv d]]; try discriminate. reflexivity.
Qed.

Lemma has_static_gtfs_iff (d : value) :
  has_static_gtfs d = true <->
  exists resources rs r,
    get_default d "resources" (VList []) = Ok resources
    /\ iter resources = Ok rs
    /\ first_static_gtfs rs = Ok (Some r).
Proof.
  unfold has_static_gtfs. split.
  - destruct (get_default d "resources" (VList [])) as [resources|e] eqn:E1;
      cbn [bind]; [|discriminate].
    destruct (iter resources) as [rs|e] eqn:E2; cbn [bind]; [|discriminate].
    destruct (first_static_gtfs rs) as [[r|]|e] eqn:E3; try discriminate.
    intros _. exists resources, rs, r. split; [reflexivity|]. split; assumption.
  - intros [resources [rs [r [H1 [H2 H3]]]]].
    rewrite H1. cbn [bind]. rewrite H2. cbn [bind]. rewrite H3.
    cbn [truthy_opt]. apply static_is_truthy.
    destruct (first_static_gtfs_found rs r H3) as [_ [_ [_ [Hr _]]]]. exact Hr.
Qed.

Lemma filter_gtfs_datasets_eq (datasets filtered : list value) :
  filter_gtfs_datasets datasets = Ok filtered ->
  filtered = filter has_static_gtfs datasets.
Proof.
  revert filtered. induction datasets as [|d ds IH]; intros filtered H.
  - now injection H as <-.
  - cbn [filter_gtfs_datasets] in H. do 4 inv_bind H. injection H as <-.
    cbn [filter]. unfold has_static_gtfs at 1.
    rewrite E. cbn [bind]. rewrite E0. cbn [bind]. rewrite E1.
    rewrite <- (IH _ eq_refl). reflexivity.
Qed.

(** X2: [filter_gtfs_datasets] returns exactly the datasets for which a
    static GTFS resource is found, in their order: a dataset of the input is
    in the result if and only if the search over its resources selects one.
    Filtering the result again changes nothing, and every dataset kept has
    a resource whose format reads GTFS. *)
Theorem filter_gtfs_datasets_exact (datasets filtered : list value) :
  filter_gtfs_datasets datasets = Ok filtered ->
  filtered = filter has_static_gtfs datasets
  /\ (forall d, In d datasets ->
        (In d filtered <->
         exists resources rs r,
           get_default d "resources" (VList []) = Ok resources
           /\ iter resources = Ok rs
           /\ first_static_gtfs rs = Ok (Some r)))
  /\ subseq filtered datasets
  /\ filter_gtfs_datasets filtered = Ok filtered
  /\ (forall d, In d filtered ->
      exists resources rs r,
        get_default d "resources" (VList []) = Ok resources
        /\ iter resources = Ok rs
        /\ first_static_gtfs rs = Ok (Some r) /\ is_static_gtfs r = true).
Proof.
  intro H. pose proof (filter_gtfs_datasets_eq _ _ H) as Heq.
  split; [exact Heq|].
  split; [|split; [|split; [|now apply filtered_have_static with datasets]]].
  - intros d Hd. rewrite Heq, filter_In, has_static_gtfs_iff. tauto.
  - clear Heq. revert filtered H. induction datasets as [|d ds IH]; intros filtered H.
    + injection H as <-. constructor.
    + cbn [filter_gtfs_datasets] in H. do 4 inv_bind H. injection H as <-.
      destruct (truthy_opt o); constructor; now apply IH.
  - clear Heq. revert filtered H. induction datasets as [|d ds IH]; intros filtered H.
    + injection H as <-. reflexivity.
    + cbn [filter_gtfs_datasets] in H. do 4 inv_bind H. injection H as <-.
      destruct (truthy_opt o) eqn:Ho; [|now apply IH].
      cbn [filter_gtfs_datasets]. rewrite E. cbn [bind]. rewrite E0. cbn [bind].
      rewrite E1. cbn [bind]. rewrite (IH _ eq_refl). cbn [bind]. now rewrite Ho.
Qed.

Lemma filter_gtfs_datasets_sample :
  [VDict (dataset_titled "lov2")] = filter has_static_gtfs sample_datasets
  /\ In (VDict (dataset_titled "lov2")) [VDict (dataset_titled "lov2")]
  /\ ~ In dataset_realtime_only [VDict (dataset_titled "lov2")]
  /\ filter_gtfs_datasets [VDict (dataset_titled "lov2")]
     = Ok [VDict (dataset_titled "lov2")].
Proof.
  destruct (filter_gtfs_datasets_exact sample_datasets
              [VDict (dataset_titled "lov2")] eq_refl)
    as [H1 [H2 [_ [H4 _]]]].
  split; [exact H1|]. split; [|split; [|exact H4]].
  - apply (H2 (VDict (dataset_titled "lov2"))); [left; reflexivity|].
    exists sample_resources, [VDict sample_resource], (VDict sample_resource).
    repeat split.
  - intro Hin.
    apply (H2 dataset_realtime_only) in Hin; [|right; left; reflexivity].
    destruct Hin as [resources [rs [r [Hr [Hi Hf]]]]].
    injection Hr as <-. injection Hi as <-. discriminate Hf.
Defined.

Lemma preserve_existing_other (k : string) (feed_id : string) (url : value)
    (license : pydict) (e : value) (rec : pydict) (r : pydict * list warning) :
  string_in k ["feed_versions"; "feed_state"; "name"; "license"; "languages"] = false ->
  preserve_existing feed_id url license e rec = Ok r ->
  lookup k (fst r) = lookup k rec.
Proof.
  unfold string_in. cbn [existsb]. rewrite !orb_false_iff.
  intros [K1 [K2 [K3 [K4 [K5 _]]]]] H.
  rewrite String.eqb_sym in K1, K2, K3, K4, K5.
  unfold preserve_existing in H.
  do 5 inv_bind H.
  assert (H1 : lookup k p = lookup k rec).
  { destruct (truthy_opt o0); [|congruence].
    destruct (has_len (or_none o0)); [|discriminate E3].
    injection E3 as <-. now rewrite lookup_setitem, K1. }
  inv_bind H.
  assert (H2 : lookup k p0 = lookup k p)
    by (eapply preserve_lookup; [|exact E4]; exact K2).
  do 3 inv_bind H. inv_bind H. injection H as <-. cbn [fst].
  rewrite (preserve_lookup k "languages" _ _ _ K5 E8).
  split_ifs; rewrite ?lookup_setitem, ?K3, ?K4; congruence.
Qed.

Lemma merge_tags_other (k : string) (tags : pydict) (e : value) (rec rec' : pydict) :
  (k =? "tags") = false ->
  merge_tags tags e rec = Ok rec' -> lookup k rec' = lookup k rec.
Proof.
  intros Hk H. rewrite String.eqb_sym in Hk. unfold merge_tags in H. inv_bind H.
  destruct (truthy_opt o); [|congruence].
  destruct (or_none o); try discriminate H. injection H as <-.
  now rewrite lookup_setitem, Hk.
Qed.

Lemma merged_record_fields (dataset : value) (existing : pydict) (res : value)
    (r : pydict * list warning) :
  merged_record dataset existing res = Ok r ->
  exists slug url,
    getitem dataset "slug" = Ok (VStr slug)
    /\ getitem res "url" = Ok url
    /\ lookup "id" (fst r) = Some (VStr (feed_id_of_slug slug))
    /\ lookup "spec" (fst r) = Some (VStr "gtfs")
    /\ lookup "urls" (fst r) = Some (VDict [("static_current", url)]).
Proof.
  intro H. unfold merged_record in H.
  inv_bind H. inv_bind H.
  destruct v as [| | |slug| |]; try discriminate E0.
  injection E0 as <-.
  fold (feed_id_of_slug slug) in H.
  inv_bind H. exists slug, v. split; [reflexivity|]. split; [reflexivity|].
  do 3 inv_bind H.
  change (update [("static_current", v)]
            (filter (fun kv => truthy (snd kv)) realtime_urls))
    with [("static_current", v)] in H.
  destruct (lookup (feed_id_of_slug slug) existing) as [existing_feed|];
    [|injection H as <-; repeat split].
  destruct (truthy existing_feed); [|injection H as <-; repeat split].
  inv_bind H. inv_bind H. injection H as <-. cbn [fst].
  rewrite (merge_tags_other "id" _ _ _ _ eq_refl E5).
  rewrite (merge_tags_other "spec" _ _ _ _ eq_refl E5).
  rewrite (merge_tags_other "urls" _ _ _ _ eq_refl E5).
  rewrite (preserve_existing_other "id" _ _ _ _ _ _ eq_refl E4).
  rewrite (preserve_existing_other "spec" _ _ _ _ _ _ eq_refl E4).
  rewrite (preserve_existing_other "urls" _ _ _ _ _ _ eq_refl E4).
  repeat split.
Qed.

Lemma create_feed_record_inv (d : value) (existing : pydict) (r : value)
    (w : list warning) :
  create_feed_record d existing = Ok (Some r, w) ->
  exists resources rs res rec,
    get_default d "resources" (VList []) = Ok resources
    /\ iter resources = Ok rs
    /\ first_static_gtfs rs = Ok (Some res)
    /\ merged_record d existing res = Ok (rec, w)
    /\ r = VDict (clean_entries rec).
Proof.
  intro H. unfold create_feed_record in H. do 3 inv_bind H.
  destruct (truthy_opt o) eqn:Ho; [|inv_bind H; discriminate H].
  destruct o as [res|]; [|discriminate Ho]. cbn [or_none] in H.
  inv_bind H. destruct p as [rec w']. cbn [fst snd] in H.
  injection H as <- <-. exists v, l, res, rec.
  repeat split; try assumption.
  change (clean_empty_values (VDict rec) = VDict (clean_entries rec)).
  apply clean_dict_eq.
Qed.

Lemma feed_id_shape (slug : string) :
  prefix "f-" (feed_id_of_slug slug) = true
  /\ is_lower_case (feed_id_of_slug slug) = true
  /\ has_regional_suffix (feed_id_of_slug slug) = true
  /\ has_double "~" (feed_id_of_slug slug) = false
  /\ last_is is_tilde (feed_id_of_slug slug) = false
  /\ all_chars component_char (name_component (lower slug)) = true.
Proof.
  pose proof (lower_is_lower_case slug) as Hl.
  pose proof (name_component_chars _ Hl) as Hc.
  unfold feed_id_of_slug. repeat split.
  - simpl. destruct (name_component (lower slug)); reflexivity.
  - unfold is_lower_case. rewrite all_chars_app.
    change (all_chars lower_fixed "f-") with true. cbn [andb].
    revert Hc. apply all_chars_impl. intros c H. unfold component_char in H.
    now apply andb_true_iff in H as [H _]; apply andb_true_iff in H as [H _].
  - apply has_regional_suffix_app_l, name_component_regional.
  - change ("f-" ++ name_component (lower slug))
      with (String "f" (String "-" (name_component (lower slug)))).
    rewrite !has_double_cons, name_component_no_double. reflexivity.
  - rewrite last_is_app; [apply name_component_last | apply name_component_nonempty].
  - exact Hc.
Qed.

(** X4: every record returned has the spec ["gtfs"] and, as identifier,
    [feed_id_of_slug] of the slug of the dataset, whatever the slug is: the
    marker ["f-"], lower case, no doubled separator, no separator at the
    end, and a regional suffix last. *)
Theorem returned_record_identity (d : value) (existing : pydict) (r : value)
    (w : list warning) :
  create_feed_record d existing = Ok (Some r, w) ->
  exists slug,
    getitem d "slug" = Ok (VStr slug)
    /\ get r "id" = Ok (Some (VStr (feed_id_of_slug slug)))
    /\ get r "spec" = Ok (Some (VStr "gtfs"))
    /\ truthy r = true
    /\ prefix "f-" (feed_id_of_slug slug) = true
    /\ is_lower_case (feed_id_of_slug slug) = true
    /\ has_regional_suffix (feed_id_of_slug slug) = true
    /\ has_double "~" (feed_id_of_slug slug) = false
    /\ last_is is_tilde (feed_id_of_slug slug) = false.
Proof.
  intro H. apply create_feed_record_inv in H.
  destruct H as [resources [rs [res [rec [_ [_ [_ [Hm ->]]]]]]]].
  destruct (merged_record_fields _ _ _ _ Hm) as [slug [url [Hs [_ [Hi [Hsp _]]]]]].
  cbn [fst] in Hi, Hsp.
  pose proof (lookup_clean_kept _ _ _ Hi (feed_id_kept slug)) as Hi'.
  exists slug. split; [exact Hs|]. split; [cbn [get]; now rewrite Hi'|].
  split; [cbn [get]; now rewrite (lookup_clean_kept _ _ _ Hsp eq_refl)|].
  split.
  - cbn [truthy]. destruct (clean_entries rec); [discriminate Hi' | reflexivity].
  - destruct (feed_id_shape slug) as [H1 [H2 [H3 [H4 [H5 _]]]]]. repeat split; assumption.
Qed.

(** X5: the [urls] of a record returned hold the URL of the selected
    resource of the dataset under [static_current], and nothing else: the
    URL of the existing feed is never taken, and none of the realtime or
    historic URL fields is written. *)
Theorem returned_record_url (d : value) (existing : pydict) (r : value)
    (w : list warning) :
  create_feed_record d existing = Ok (Some r, w) ->
  exists resources rs res url,
    get_default d "resources" (VList []) = Ok resources
    /\ iter resources = Ok rs
    /\ first_static_gtfs rs = Ok (Some res)
    /\ getitem res "url" = Ok url
    /\ get r "urls"
       = Ok (Some (clean_empty_values (VDict [("static_current", url)])))
    /\ (forall u, url = VStr u -> u <> "" -> u <> "unknown" ->
        get r "urls" = Ok (Some (VDict [("static_current", VStr u)]))).
Proof.
  intro H. apply create_feed_record_inv in H.
  destruct H as [resources [rs [res [rec [Hr [Hi [Hf [Hm ->]]]]]]]].
  destruct (merged_record_fields _ _ _ _ Hm) as [slug [url [_ [Hu [_ [_ Hurls]]]]]].
  cbn [fst] in Hurls.
  exists resources, rs, res, url. repeat split; try assumption.
  - cbn [get]. now rewrite (lookup_clean_kept _ _ _ Hurls eq_refl).
  - intros u -> H1 H2. cbn [get].
    rewrite (lookup_clean_kept _ _ _ Hurls eq_refl).
    rewrite clean_dict_eq. unfold clean_entries.
    cbn [filter map fst snd is_empty_or_unknown].
    apply String.eqb_neq in H1, H2. rewrite H1, H2. reflexivity.
Qed.

Lemma create_on_static (d : value) (existing : pydict) (resources : value)
    (rs : list value) (res : value) (rw : option value * list warning) :
  get_default d "resources" (VList []) = Ok resources ->
  iter resources = Ok rs ->
  first_static_gtfs rs = Ok (Some res) ->
  is_static_gtfs res = true ->
  create_feed_record d existing = Ok rw ->
  exists r slug,
    fst rw = Some r /\ truthy r = true
    /\ getitem d "slug" = Ok (VStr slug)
    /\ get r "id" = Ok (Some (VStr (feed_id_of_slug slug))).
Proof.
  intros Hr Hi Hf Hs H.
  assert (H' : exists r, rw = (Some r, snd rw)).
  { unfold create_feed_record in H. rewrite Hr in H. cbn [bind] in H.
    rewrite Hi in H. cbn [bind] in H. rewrite Hf in H.
    cbn [bind truthy_opt or_none] in H. rewrite (static_is_truthy _ Hs) in H.
    inv_bind H. injection H as <-. eexists. reflexivity. }
  destruct H' as [r Hrw]. rewrite Hrw in H.
  apply create_feed_record_inv in H.
  destruct H as [resources' [rs' [res' [rec [_ [_ [_ [Hm Hreq]]]]]]]].
  destruct (merged_record_fields _ _ _ _ Hm) as [slug [url [Hsl [_ [Hid _]]]]].
  cbn [fst] in Hid.
  pose proof (lookup_clean_kept _ _ _ Hid (feed_id_kept slug)) as Hid'.
  exists (VDict (clean_entries rec)), slug. rewrite Hrw, Hreq.
  split; [reflexivity|]. split.
  - cbn [truthy]. destruct (clean_entries rec); [discriminate Hid' | reflexivity].
  - split; [exact Hsl|]. cbn [get]. now rewrite Hid'.
Qed.

(** X3: the datasets that [filter_gtfs_datasets] keeps each give one record
    in [main], in the same order, with the identifier of their slug: none
    is dropped for want of a resource. *)
Theorem one_record_per_dataset (datasets filtered : list value)
    (existing : pydict) (new_feeds : list value) (w : list warning) :
  filter_gtfs_datasets datasets = Ok filtered ->
  create_feed_records filtered existing = Ok (new_feeds, w) ->
  Forall2 (fun d r =>
             exists slug,
               getitem d "slug" = Ok (VStr slug)
               /\ get r "id" = Ok (Some (VStr (feed_id_of_slug slug))))
          filtered new_feeds.
Proof.
  intros Hf. pose proof (filtered_have_static _ _ Hf) as Hs. clear Hf.
  revert new_feeds w. induction filtered as [|d ds IH]; intros new_feeds w H.
  - injection H as <- <-. constructor.
  - cbn [create_feed_records] in H. do 2 inv_bind H.
    destruct (Hs d (or_introl eq_refl)) as [resources [rs [res [H1 [H2 [H3 H4]]]]]].
    destruct (create_on_static _ _ _ _ _ _ H1 H2 H3 H4 E) as [r [slug [Hr [Ht [Hsl Hid]]]]].
    rewrite Hr in H. cbn [truthy_opt or_none] in H. rewrite Ht in H.
    injection H as <- <-. constructor.
    + exists slug. split; assumption.
    + destruct p0 as [more wm]. apply (IH (fun x Hx => Hs x (or_intror Hx)) more wm).
      reflexivity.
Qed.

Lemma returned_record_sample :
  exists r w,
    create_feed_record (VDict (dataset_titled "lov2")) existing_acme = Ok (Some r, w)
    /\ get r "id" = Ok (Some (VStr "f-acme~metro~fr"))
    /\ get r "spec" = Ok (Some (VStr "gtfs")).
Proof.
  eexists. eexists. split; [vm_compute; reflexivity|].
  destruct (returned_record_identity (VDict (dataset_titled "lov2")) existing_acme _ _
              ltac:(vm_compute; reflexivity)) as [slug [Hs [Hi [Hsp _]]]].
  injection Hs as <-. split; [exact Hi | exact Hsp].
Defined.

Lemma returned_record_url_sample :
  exists r w,
    create_feed_record (VDict (dataset_titled "lov2")) existing_acme = Ok (Some r, w)
    /\ get r "urls" = Ok (Some (VDict [("static_current", VStr "http://x/a.zip")])).
Proof.
  eexists. eexists. split; [vm_compute; reflexivity|].
  destruct (returned_record_url (VDict (dataset_titled "lov2")) existing_acme _ _
              ltac:(vm_compute; reflexivity))
    as [resources [rs [res [url [Hr [Hi [Hf [Hu [_ H]]]]]]]]].
  injection Hr as <-. injection Hi as <-. injection Hf as <-. injection Hu as <-.
  apply (H "http://x/a.zip"); [reflexivity | discriminate | discriminate].
Defined.

Lemma one_record_per_dataset_sample :
  exists new_feeds w,
    create_feed_records [VDict (dataset_titled "lov2")] existing_acme = Ok (new_feeds, w)
    /\ Forall2 (fun d r =>
                 exists slug,
                   getitem d "slug" = Ok (VStr slug)
                   /\ get r "id" = Ok (Some (VStr (feed_id_of_slug slug))))
               [VDict (dataset_titled "lov2")] new_feeds.
Proof.
  eexists. eexists. split; [vm_compute; reflexivity|].
  eapply (one_record_per_dataset sample_datasets [VDict (dataset_titled "lov2")]
            existing_acme).
  - reflexivity.
  - vm_compute. reflexivity.
Defined.

(** ** The strip pass, the identifier and the licence *)

Lemma nothing_to_strip_dict (d : pydict) :
  nothing_to_strip (VDict d) =
  forallb (fun kv => negb (is_empty_or_unknown (snd kv)) && nothing_to_strip (snd kv)) d.
Proof.
  simpl. induction d as [|[k v] d IH]; simpl; [reflexivity|]. now rewrite IH.
Qed.

Lemma nothing_to_strip_list (l : list value) :
  nothing_to_strip (VList l) =
  forallb (fun x => negb (is_empty_value x) && nothing_to_strip x) l.
Proof.
  simpl. induction l as [|x l IH]; simpl; [reflexivity|]. now rewrite IH.
Qed.

Lemma clean_entries_length (d : pydict) :
  (List.length (clean_entries d) <= List.length d)%nat.
Proof.
  unfold clean_entries. rewrite length_map. apply filter_length_le.
Qed.

Lemma clean_items_length (l : list value) :
  (List.length (clean_items l) <= List.length l)%nat.
Proof.
  unfold clean_items. rewrite length_map. apply filter_length_le.
Qed.

Lemma clean_entries_cons (k : string) (x : value) (d : pydict) :
  clean_entries ((k, x) :: d) =
  if is_empty_or_unknown x then clean_entries d
  else (k, clean_empty_values x) :: clean_entries d.
Proof. unfold clean_entries. simpl. now destruct (is_empty_or_unknown x). Qed.

Lemma clean_items_cons (x : value) (l : list value) :
  clean_items (x :: l) =
  if is_empty_value x then clean_items l
  else clean_empty_values x :: clean_items l.
Proof. unfold clean_items. simpl. now destruct (is_empty_value x). Qed.

(** X6: [clean_empty_values] leaves a value as it is exactly when, at every
    depth, no entry of a mapping has a value that is absent, an empty
    string, an empty sequence, an empty mapping or ["unknown"], and no item
    of a sequence is absent, an empty string, an empty sequence or an empty
    mapping. *)
Theorem clean_fixed_point (v : value) :
  clean_empty_values v = v <-> nothing_to_strip v = true.
Proof.
  induction v as [| | | |l IH|d IH] using value_ind;
    try (split; reflexivity).
  - rewrite clean_list_eq, nothing_to_strip_list.
    induction IH as [|x l Hx _ IHl]; [split; reflexivity|].
    rewrite clean_items_cons. cbn [forallb].
    destruct (is_empty_value x) eqn:E; cbn [negb andb].
    + split; [|discriminate]. intro H.
      pose proof (clean_items_length l) as Hl.
      injection H as H. rewrite H in Hl. cbn [List.length] in Hl. lia.
    + split.
      * intro H. injection H as H1 H2.
        apply andb_true_iff. split; [now apply Hx|].
        apply IHl. now f_equal.
      * intro H. apply andb_true_iff in H. destruct H as [H1 H2].
        apply Hx in H1. apply IHl in H2. injection H2 as H2.
        now rewrite H1, H2.
  - rewrite clean_dict_eq, nothing_to_strip_dict.
    induction IH as [|[k x] d Hx _ IHd]; [split; reflexivity|].
    rewrite clean_entries_cons. cbn [forallb snd]. cbn [snd] in Hx.
    destruct (is_empty_or_unknown x) eqn:E; cbn [negb andb].
    + split; [|discriminate]. intro H.
      pose proof (clean_entries_length d) as Hl.
      injection H as H. rewrite H in Hl. cbn [List.length] in Hl. lia.
    + split.
      * intro H. injection H as H1 H2.
        apply andb_true_iff. split; [now apply Hx|].
        apply IHd. now f_equal.
      * intro H. apply andb_true_iff in H. destruct H as [H1 H2].
        apply Hx in H1. apply IHd in H2. injection H2 as H2.
        now rewrite H1, H2.
Qed.

Lemma clean_fixed_point_sample : clean_empty_values feed_a = feed_a.
Proof. apply (proj2 (clean_fixed_point feed_a)). reflexivity. Defined.

Lemma map_string_ext (f g : ascii -> ascii) (s : string) :
  (forall c, f c = g c) -> map_string f s = map_string g s.
Proof. intro H. induction s as [|c s IH]; simpl; [reflexivity|]. now rewrite H, IH. Qed.

Lemma map_string_map_string (f g : ascii -> ascii) (s : string) :
  map_string f (map_string g s) = map_string (fun c => f (g c)) s.
Proof. induction s as [|c s IH]; simpl; [reflexivity|]. now rewrite IH. Qed.

Lemma lower_idem (s : string) : lower (lower s) = lower s.
Proof.
  unfold lower. rewrite map_string_map_string. apply map_string_ext, lower_char_idem.
Qed.

Lemma separators_merged (s : string) :
  replace_char "_" "~" (replace_char "-" "~" s)
  = replace_char "-" "~" (replace_char "_" "-" s).
Proof.
  unfold replace_char. rewrite !map_string_map_string. apply map_string_ext.
  intro c. destruct (c =? "-")%char eqn:E1, (c =? "_")%char eqn:E2;
    rewrite ?E1, ?E2; try reflexivity.
Qed.

Lemma lower_replace_char (a b : ascii) (s : string) :
  lower_char a = a -> lower_char b = b ->
  (forall c, lower_char c = a -> c = a) ->
  lower (replace_char a b s) = replace_char a b (lower s).
Proof.
  intros Ha Hb Hinj. unfold lower, replace_char. rewrite !map_string_map_string.
  apply map_string_ext. intro c.
  destruct (c =? a)%char eqn:E.
  - apply Ascii.eqb_eq in E. subst c. now rewrite Ha, Ascii.eqb_refl.
  - destruct (lower_char c =? a)%char eqn:E'; [|reflexivity].
    apply Ascii.eqb_eq in E'. apply Hinj in E'. subst.
    now rewrite Ascii.eqb_refl in E.
Qed.

Lemma lower_char_dash (c : ascii) : lower_char c = "-"%char -> c = "-"%char.
Proof.
  destruct c as [[|] [|] [|] [|] [|] [|] [|] [|]]; vm_compute; intro H;
    first [reflexivity | discriminate H].
Qed.

Lemma lower_char_underscore (c : ascii) : lower_char c = "_"%char -> c = "_"%char.
Proof.
  destruct c as [[|] [|] [|] [|] [|] [|] [|] [|]]; vm_compute; intro H;
    first [reflexivity | discriminate H].
Qed.

Lemma name_component_separators (s t : string) :
  replace_char "_" "-" s = replace_char "_" "-" t ->
  name_component s = name_component t.
Proof.
  intro H. unfold name_component. now rewrite !separators_merged, H.
Qed.

(** X7: two slugs that differ only in the case of their letters and in the
    choice between '-' and '_' get the same feed identifier. *)
Theorem feed_id_ignores_case_and_separator (s t : string) :
  replace_char "_" "-" (lower s) = replace_char "_" "-" (lower t) ->
  feed_id_of_slug s = feed_id_of_slug t.
Proof.
  intro H. unfold feed_id_of_slug. f_equal. now apply name_component_separators.
Qed.

(** In particular the identifier of a slug is that of its lower-case
    form, and of the slug with '-' and '_' exchanged. *)
Theorem feed_id_collisions (s : string) :
  feed_id_of_slug (lower s) = feed_id_of_slug s
  /\ feed_id_of_slug (replace_char "-" "_" s) = feed_id_of_slug s
  /\ feed_id_of_slug (replace_char "_" "-" s) = feed_id_of_slug s.
Proof.
  unfold feed_id_of_slug.
  rewrite lower_idem.
  repeat split; f_equal; apply name_component_separators.
  - rewrite (lower_replace_char "-" "_" s eq_refl eq_refl lower_char_dash).
    unfold replace_char. rewrite !map_string_map_string. apply map_string_ext.
    intro c. destruct (c =? "-")%char eqn:E1; [|reflexivity].
    apply Ascii.eqb_eq in E1. subst. reflexivity.
  - rewrite (lower_replace_char "_" "-" s eq_refl eq_refl lower_char_underscore).
    unfold replace_char. rewrite !map_string_map_string. apply map_string_ext.
    intro c. destruct (c =? "_")%char eqn:E1; rewrite ?E1; reflexivity.
Qed.

Lemma feed_id_ignores_sample :
  feed_id_of_slug "Acme-Metro" = feed_id_of_slug "acme_metro".
Proof. apply feed_id_ignores_case_and_separator. reflexivity. Defined.

Lemma license_map_find_some (key spdx : string) :
  license_map_find key license_map = Some (Some spdx) ->
  (key = "odc-odbl" /\ spdx = "ODbL-1.0")
  \/ (In key ["lov2"; "fr-lo"; "licence-ouverte"; "mobility-licence"] /\ spdx = "LO-2.0")
  \/ (key = "other-pd" /\ spdx = "CC0-1.0").
Proof.
  unfold license_map. cbn [license_map_find].
  repeat match goal with
         | |- context [if ?k =? key then _ else _] =>
             let E := fresh "E" in
             destruct (k =? key) eqn:E;
             [apply String.eqb_eq in E; subst key; intro H; injection H as <-;
              cbn [In]; tauto|]
         end.
  destruct ("notspecified" =? key); intro H; discriminate H.
Qed.

(** X8: a licence code that the table maps to an identifier (in any case,
    with white space around) gives that identifier, one of ODbL-1.0, LO-2.0
    and CC0-1.0, the three permissions ["yes"], [share_alike_optional]
    ["no"] for ODbL-1.0 and ["yes"] otherwise, no warning, and as [url] the
    page of the dataset when it has one. *)
Theorem recognised_licence (feed_id : string) (d : pydict) (code spdx : string) :
  lookup "licence" d = Some (VStr code) ->
  license_map_find (strip_space (lower code)) license_map = Some (Some spdx) ->
  exists license,
    map_license feed_id (VDict d) = Ok (license, [])
    /\ lookup "spdx_identifier" license = Some (VStr spdx)
    /\ In spdx ["ODbL-1.0"; "LO-2.0"; "CC0-1.0"]
    /\ lookup "redistribution_allowed" license = Some (VStr "yes")
    /\ lookup "commercial_use_allowed" license = Some (VStr "yes")
    /\ lookup "create_derived_product" license = Some (VStr "yes")
    /\ lookup "share_alike_optional" license
       = Some (VStr (if spdx =? "ODbL-1.0" then "no" else "yes"))
    /\ lookup "url" license
       = (if truthy_opt (lookup "page_url" d) then lookup "page_url" d else None).
Proof.
  intros Hl Hf. unfold map_license. cbn [get bind]. rewrite Hl.
  cbn [truthy_opt truthy or_none].
  destruct (code =? "") eqn:Ec.
  - apply String.eqb_eq in Ec. subst code. vm_compute in Hf. discriminate Hf.
  - cbn [negb]. unfold get_default. cbn [get bind].
    unfold license_for_code. rewrite Hf.
    eexists. split; [reflexivity|].
    destruct (license_map_find_some _ _ Hf) as [[Hk ->]|[[Hk ->]|[Hk ->]]].
    + rewrite Hk.
      destruct (lookup "page_url" d) as [p|]; cbn [truthy_opt];
        [destruct (truthy p)|]; cbn; tauto.
    + cbn [In] in Hk.
      destruct Hk as [Hk|[Hk|[Hk|[Hk|[]]]]]; rewrite <- Hk;
        (destruct (lookup "page_url" d) as [p|]; cbn [truthy_opt];
         [destruct (truthy p)|]; cbn; tauto).
    + rewrite Hk.
      destruct (lookup "page_url" d) as [p|]; cbn [truthy_opt];
        [destruct (truthy p)|]; cbn; tauto.
Qed.

Lemma recognised_licence_sample :
  exists license,
    map_license "f-acme~metro~fr" (VDict (dataset_titled "lov2")) = Ok (license, [])
    /\ lookup "spdx_identifier" license = Some (VStr "LO-2.0")
    /\ lookup "share_alike_optional" license = Some (VStr "yes").
Proof.
  destruct (recognised_licence "f-acme~metro~fr" (dataset_titled "lov2") "lov2" "LO-2.0"
              eq_refl eq_refl) as [license [H1 [H2 [_ [_ [_ [_ [H3 _]]]]]]]].
  exists license. repeat split; assumption.
Defined.


(** ** The feeds written *)

Lemma feeds_to_write_sub (head : value -> head_outcome) (existing : pydict)
    (new_feeds to_write : list value) :
  feeds_to_write head existing new_feeds = Ok to_write ->
  subseq to_write new_feeds.
Proof.
  revert to_write. induction new_feeds as [|f rest IH]; intros to_write H.
  - injection H as <-. constructor.
  - cbn [feeds_to_write] in H. do 2 inv_bind H. injection H as <-.
    destruct d; constructor; now apply IH.
Qed.

(** X9: the feeds written are feeds of [new_feeds], in their order: the loop
    drops feeds, it neither adds, repeats nor reorders them. *)
Theorem feeds_to_write_subseq (head : value -> head_outcome) (existing : pydict)
    (new_feeds to_write : list value) :
  feeds_to_write head existing new_feeds = Ok to_write ->
  subseq to_write new_feeds.
Proof. apply feeds_to_write_sub. Qed.

Lemma probe_skip (head : value -> head_outcome) (feed fv : value) :
  probe_feed head feed fv = Ok Skip ->
  exists urls u r cl n size,
    getitem feed "urls" = Ok urls
    /\ get urls "static_current" = Ok (Some u) /\ truthy u = true
    /\ head u = HeadResponse r /\ status_code r = 200%Z
    /\ content_length r = Some cl /\ py_int cl = Ok n
    /\ get fv "size_bytes" = Ok (Some size)
    /\ py_eqb (VInt n) size = true.
Proof.
  unfold probe_feed. intro H. do 2 inv_bind H.
  destruct o as [u|]; [|discriminate H]. cbn [truthy_opt or_none] in H.
  destruct (truthy u) eqn:Et; [|discriminate H].
  destruct (head u) as [|r] eqn:Eh; [discriminate H|].
  destruct (status_code r =? 200)%Z eqn:Es; [|discriminate H]. cbn [negb] in H.
  destruct (content_length r) as [cl|] eqn:Ec; [|discriminate H].
  destruct (negb (cl =? "")); [|discriminate H].
  do 2 inv_bind H.
  destruct (py_eqb (VInt z) (or_none o)) eqn:Ep; [|discriminate H].
  destruct o as [size|]; [|discriminate Ep].
  exists v, u, r, cl, z, size. apply Z.eqb_eq in Es. repeat split; assumption.
Qed.

Lemma skip_has_evidence (head : value -> head_outcome) (existing : pydict)
    (feed : value) :
  feed_decision head existing feed = Ok Skip -> skip_evidence head existing feed.
Proof.
  unfold feed_decision. intro H. do 2 inv_bind H.
  destruct o as [prior|]; [|discriminate H]. cbn [truthy_opt or_none] in H.
  destruct (truthy prior) eqn:Etp; [|discriminate H].
  do 3 inv_bind H.
  destruct (truthy v0) eqn:Efv; [|discriminate H].
  destruct o as [sha1|]; [|discriminate H]. cbn [andb truthy_opt] in H.
  destruct (truthy sha1) eqn:Esh; [|discriminate H].
  destruct (probe_feed head feed v0) as [dd|e] eqn:Ep; [|discriminate H].
  injection H as ->.
  destruct (probe_skip _ _ _ Ep) as [urls [u [r [cl [n [size Hp]]]]]].
  destruct v as [| | |fid| |]; try discriminate E0.
  cbn [dict_get_value] in E0. injection E0 as E0.
  exists fid, prior, v0, sha1, urls, u, r, cl, n, size.
  repeat split; try tauto; assumption.
Qed.

Lemma py_int_not_empty (cl : string) (n : Z) : py_int cl = Ok n -> cl <> "".
Proof. intros H ->. discriminate H. Qed.

Lemma evidence_gives_skip (head : value -> head_outcome) (existing : pydict)
    (feed : value) :
  skip_evidence head existing feed -> feed_decision head existing feed = Ok Skip.
Proof.
  intros [fid [prior [fv [sha1 [urls [u [r [cl [n [size H]]]]]]]]]].
  destruct H as [Hid [Hp [Hfv [Hsha [Hts [Hurls [Hu [Htu [Hh [Hst [Hcl [Hn [Hsz He]]]]]]]]]]]]].
  destruct fv as [| | | | |fvd]; try discriminate Hsha.
  cbn [get] in Hsha, Hsz. injection Hsha as Hsha. injection Hsz as Hsz.
  destruct fvd as [|kv fvd]; [discriminate Hsha|].
  destruct prior as [| | | | |p]; try discriminate Hfv.
  destruct p as [|kp p]; [discriminate Hfv|].
  unfold feed_decision. rewrite Hid. cbn [bind dict_get_value]. rewrite Hp.
  cbn [truthy_opt or_none truthy]. rewrite Hfv. cbn [bind].
  unfold get_default at 1. cbn [get bind truthy]. rewrite Hsha.
  cbn [truthy_opt andb]. rewrite Hts.
  unfold probe_feed. rewrite Hurls. cbn [bind]. rewrite Hu.
  cbn [bind truthy_opt or_none]. rewrite Htu, Hh, Hst.
  cbn [Z.eqb Pos.eqb negb]. rewrite Hcl.
  pose proof (py_int_not_empty _ _ Hn) as Hne. apply String.eqb_neq in Hne.
  rewrite Hne. cbn [negb]. rewrite Hn. cbn [bind get]. rewrite Hsz.
  cbn [bind or_none]. now rewrite He.
Qed.

Lemma feeds_to_write_each (head : value -> head_outcome) (existing : pydict)
    (new_feeds l : list value) (f : value) :
  feeds_to_write head existing new_feeds = Ok l -> In f new_feeds ->
  exists d, feed_decision head existing f = Ok d.
Proof.
  revert l. induction new_feeds as [|g rest IH]; intros l H Hin; [contradiction|].
  cbn [feeds_to_write] in H. do 2 inv_bind H.
  destruct Hin as [<-|Hin]; [now exists d | now apply (IH _ eq_refl)].
Qed.

(** X10: a feed is skipped exactly when there is evidence for it: its
    identifier is a string known to the directory, the version known there
    has a hash and a size, the record has a static URL, and the probe of
    that URL answered with status 200 and a [Content-Length] that reads as
    a number equal to that size.  When the loop returns, a record of
    [new_feeds] is among the feeds written exactly when that evidence is
    missing. *)
Theorem skip_iff_evidence (head : value -> head_outcome) (existing : pydict)
    (feed : value) :
  (feed_decision head existing feed = Ok Skip <-> skip_evidence head existing feed)
  /\ (forall new_feeds to_write,
        feeds_to_write head existing new_feeds = Ok to_write ->
        In feed new_feeds ->
        (In feed to_write <-> ~ skip_evidence head existing feed)).
Proof.
  split.
  - split; [apply skip_has_evidence | apply evidence_gives_skip].
  - intros new_feeds to_write Hw Hin. split.
    + intros Hin' Hev.
      destruct (feeds_to_write_decided _ _ _ _ _ Hw Hin') as [d [Hd Hn]].
      rewrite (evidence_gives_skip _ _ _ Hev) in Hd. injection Hd as <-.
      now apply Hn.
    + intro Hnev.
      destruct (feeds_to_write_each _ _ _ _ _ Hw Hin) as [d Hd].
      apply (feeds_to_write_keeps _ _ _ _ _ d Hw Hin Hd).
      intros ->. apply Hnev. now apply skip_has_evidence.
Qed.

Lemma skip_iff_evidence_sample :
  skip_evidence (head_reporting (Some "1000")) directory_b_sized feed_b'
  /\ ~ skip_evidence (head_reporting (Some "1000")) directory_b_sized feed_a
  /\ ~ skip_evidence (head_reporting (Some (String (ascii_of_nat 28) "1000")))
        directory_b_sized feed_b'.
Proof.
  split; [|split].
  - apply (proj1 (skip_iff_evidence (head_reporting (Some "1000"))
                    directory_b_sized feed_b')).
    reflexivity.
  - apply (proj2 (skip_iff_evidence (head_reporting (Some "1000"))
                    directory_b_sized feed_a) [feed_a; feed_b'] [feed_a]);
      [reflexivity | left; reflexivity | left; reflexivity].
  - intro Hev.
    apply (proj1 (skip_iff_evidence
                    (head_reporting (Some (String (ascii_of_nat 28) "1000")))
                    directory_b_sized feed_b')) in Hev.
    discriminate Hev.
Defined.

Lemma feed_decision_unknown (head : value -> head_outcome) (existing : pydict)
    (f : value) :
  writable f = true ->
  (forall fid, id_of f = VStr fid -> truthy_opt (lookup fid existing) = false) ->
  feed_decision head existing f = Ok Keep.
Proof.
  intros Hw Hu. unfold writable in Hw.
  destruct f as [| | | | |d]; try discriminate Hw.
  unfold feed_decision. cbn [getitem]. cbn [id_of] in Hu.
  destruct (lookup "id" d) as [i|]; [|discriminate Hw]. cbn [bind or_none] in *.
  destruct i as [| | |fid| |]; try discriminate Hw; try reflexivity.
  cbn [dict_get_value bind]. now rewrite (Hu fid eq_refl).
Qed.

(** X11: records whose identifiers the directory does not know are all
    written, in their order, whatever the probes would answer; with no file
    on disk the document holds exactly these records, stripped. *)
Theorem unknown_feeds_all_written (head : value -> head_outcome) (existing : pydict)
    (new_feeds : list value) :
  forallb writable new_feeds = true ->
  (forall f fid, In f new_feeds -> id_of f = VStr fid ->
                 truthy_opt (lookup fid existing) = false) ->
  feeds_to_write head existing new_feeds = Ok new_feeds
  /\ write_dmfr_file head new_feeds existing NoFile
     = Ok (Document (VDict [("feeds", VList (map clean_empty_values new_feeds))])).
Proof.
  intros Hw Hu.
  assert (H : feeds_to_write head existing new_feeds = Ok new_feeds).
  { induction new_feeds as [|f rest IH]; [reflexivity|].
    cbn [forallb] in Hw. apply andb_true_iff in Hw. destruct Hw as [Hf Hr].
    cbn [feeds_to_write].
    rewrite (feed_decision_unknown head existing f Hf
               (fun fid => Hu f fid (or_introl eq_refl))).
    cbn [bind]. rewrite (IH Hr (fun g fid Hg => Hu g fid (or_intror Hg))).
    reflexivity. }
  split; [exact H|]. unfold write_dmfr_file. now rewrite H.
Qed.

Lemma unknown_feeds_sample :
  feeds_to_write head_failing directory_b [feed_a; feed_c] = Ok [feed_a; feed_c].
Proof.
  apply (unknown_feeds_all_written head_failing directory_b [feed_a; feed_c]).
  - reflexivity.
  - intros f fid [<-|[<-|[]]] H; injection H as <-; reflexivity.
Defined.

Lemma directory_entry (existing : pydict) (fid : string) (v : value) :
  directory_ok existing = true ->
  lookup fid existing = Some v -> truthy v = true ->
  exists prior, v = VDict prior /\ version_ok prior = true.
Proof.
  intros Hd Hl Ht. apply lookup_in in Hl.
  unfold directory_ok in Hd. rewrite forallb_forall in Hd.
  specialize (Hd _ Hl). cbn [snd] in Hd.
  destruct v as [| | | | |prior]; try (rewrite Ht in Hd; discriminate Hd).
  destruct prior as [|kv prior]; [discriminate Ht|].
  eexists. split; [reflexivity | exact Hd].
Qed.

Lemma feed_decision_total (head : value -> head_outcome) (existing : pydict)
    (f : value) :
  writable f = true -> directory_ok existing = true ->
  exists d, feed_decision head existing f = Ok d.
Proof.
  intros Hw Hd. unfold writable in Hw.
  destruct f as [| | | | |rec]; try discriminate Hw.
  unfold feed_decision. cbn [getitem].
  destruct (lookup "id" rec) as [i|]; [|discriminate Hw]. cbn [bind].
  destruct i as [| | |fid| |]; try discriminate Hw;
    try (eexists; reflexivity).
  cbn [dict_get_value bind].
  destruct (lookup fid existing) as [v|] eqn:El; [|eexists; reflexivity].
  cbn [truthy_opt or_none].
  destruct (truthy v) eqn:Et; [|eexists; reflexivity].
  destruct (directory_entry _ _ _ Hd El Et) as [prior [-> Hv]].
  unfold get_default. cbn [get bind].
  unfold version_ok, prior_version in Hv.
  destruct (lookup "feed_version" prior) as [fv|].
  - destruct fv as [| | | | |fvd]; cbn [negb] in Hv;
      try (rewrite (proj1 (negb_true_iff _) Hv); eexists; reflexivity).
    cbn [get bind].
    destruct (truthy (VDict fvd)); cbn [bind andb];
      [|eexists; reflexivity].
    destruct (truthy_opt (lookup "sha1" fvd)); [|eexists; reflexivity].
    destruct (probe_feed head (VDict rec) (VDict fvd)); eexists; reflexivity.
  - cbn [truthy bind andb]. eexists; reflexivity.
Qed.

Lemma feeds_to_write_total (head : value -> head_outcome) (existing : pydict)
    (new_feeds : list value) :
  forallb writable new_feeds = true -> directory_ok existing = true ->
  exists to_write,
    feeds_to_write head existing new_feeds = Ok to_write
    /\ forall f, In f new_feeds ->
         In f to_write \/ feed_decision head existing f = Ok Skip.
Proof.
  intros Hw Hd. induction new_feeds as [|f rest IH].
  - exists []. split; [reflexivity | contradiction].
  - cbn [forallb] in Hw. apply andb_true_iff in Hw. destruct Hw as [Hf Hr].
    destruct (IH Hr) as [kept [Hk Hin]].
    destruct (feed_decision_total head existing f Hf Hd) as [d Hdec].
    cbn [feeds_to_write]. rewrite Hdec, Hk. cbn [bind].
    eexists. split; [reflexivity|].
    intros g [<-|Hg].
    + destruct d; [left; left; reflexivity | right; exact Hdec | left; left; reflexivity].
    + destruct (Hin g Hg) as [H|H]; [|now right].
      left. destruct d; [right | | right]; assumption.
Qed.

(** X12: for records that are dicts with a hashable identifier and a
    directory of the expected shape, the loop of [write_dmfr_file] ends
    without an exception whatever the probes do, and every record either is
    written or was skipped. *)
Theorem probe_errors_never_abort (head : value -> head_outcome) (existing : pydict)
    (new_feeds : list value) :
  forallb writable new_feeds = true -> directory_ok existing = true ->
  exists to_write,
    feeds_to_write head existing new_feeds = Ok to_write
    /\ forall f, In f new_feeds ->
         In f to_write \/ feed_decision head existing f = Ok Skip.
Proof. apply feeds_to_write_total. Qed.

Lemma feeds_to_write_subseq_sample :
  subseq [feed_a] [feed_a; feed_b'].
Proof.
  apply (feeds_to_write_subseq (head_reporting (Some "1000")) directory_b_sized).
  reflexivity.
Defined.

Lemma probe_errors_sample :
  exists to_write,
    feeds_to_write head_failing directory_b [feed_a; feed_b'] = Ok to_write
    /\ forall f, In f [feed_a; feed_b'] ->
         In f to_write \/ feed_decision head_failing directory_b f = Ok Skip.
Proof.
  apply (probe_errors_never_abort head_failing directory_b [feed_a; feed_b']);
    reflexivity.
Defined.

(** ** The version check *)

Lemma classify_versions_facts (existing : pydict) (db dups : list db_row)
    (news : list new_version) :
  classify_versions existing db = Ok (dups, news) ->
  subseq dups db /\ subseq (map fst news) db
  /\ (List.length dups + List.length news = List.length db)%nat
  /\ (forall row, In row dups -> row_status existing row = Ok StatusMatch)
  /\ (forall row s, In (row, s) news ->
        row_status existing row = Ok s /\ s <> StatusMatch)
  /\ (forall row, In row db -> exists s, row_status existing row = Ok s).
Proof.
  revert dups news. induction db as [|row rest IH]; intros dups news H.
  - injection H as <- <-. repeat split; try constructor; contradiction.
  - cbn [classify_versions] in H. do 2 inv_bind H.
    destruct p as [d n]. destruct (IH d n eq_refl) as [H1 [H2 [H3 [H4 [H5 H6]]]]].
    cbn [fst snd] in H.
    assert (Hall : forall r, In r (row :: rest) ->
                     exists s, row_status existing r = Ok s).
    { intros r [<-|Hr]; [now exists v | now apply H6]. }
    destruct v as [|old|]; injection H as <- <-; cbn [List.length map fst];
      (split; [|split; [|split; [|split; [|split]]]]);
      try (constructor; assumption); try lia; try exact Hall.
    + intros r [<-|Hr]; [exact E | now apply H4].
    + exact H5.
    + exact H4.
    + intros r s [Hr|Hr]; [|now apply H5].
      injection Hr as <- <-. split; [exact E | discriminate].
    + exact H4.
    + intros r s [Hr|Hr]; [|now apply H5].
      injection Hr as <- <-. split; [exact E | discriminate].
Qed.

(** A row of status ['match'] or ['changed'] is a row whose feed the
    directory knows, under a string identifier, with a hash. *)
Lemma row_status_known (existing : pydict) (row : db_row) (s : version_status) :
  row_status existing row = Ok s -> s <> StatusNew ->
  exists fid data fv sha1,
    onestop_id row = VStr fid
    /\ lookup fid existing = Some data /\ truthy data = true
    /\ get_default data "feed_version" (VDict []) = Ok fv
    /\ get fv "sha1" = Ok (Some sha1) /\ truthy sha1 = true
    /\ (s = StatusMatch -> py_eqb sha1 (db_sha1 row) = true)
    /\ (py_eqb sha1 (db_sha1 row) = true -> s = StatusMatch).
Proof.
  unfold row_status. intros H Hn. inv_bind H.
  destruct o as [data|]; cbn [truthy_opt or_none] in H;
    [|injection H as <-; now elim Hn].
  destruct (truthy data) eqn:Et; [|injection H as <-; now elim Hn].
  do 2 inv_bind H.
  destruct o as [sha1|]; cbn [truthy_opt or_none] in H;
    [|injection H as <-; now elim Hn].
  destruct (truthy sha1) eqn:Es; [|injection H as <-; now elim Hn].
  destruct (onestop_id row) as [| | |fid| |]; try discriminate E.
  cbn [dict_get_value] in E. injection E as E.
  exists fid, data, v, sha1. repeat split; try assumption.
  - intros ->. destruct (py_eqb sha1 (db_sha1 row)); [reflexivity|].
    injection H as H. discriminate H.
  - intro He. rewrite He in H. now injection H as <-.
Qed.

Lemma classify_versions_raises (existing : pydict) (rows more : list db_row)
    (bad : db_row) (e : exn) :
  row_status existing bad = Raise e ->
  exists e', classify_versions existing (rows ++ bad :: more) = Raise e'.
Proof.
  intro Hb. induction rows as [|row rows [e' IH]].
  - exists e. cbn [app classify_versions]. rewrite Hb. reflexivity.
  - cbn [app classify_versions]. rewrite IH.
    destruct (row_status existing row) as [b|e0]; eexists; reflexivity.
Qed.

Lemma export_new_versions_ok (news : list new_version) :
  export_new_versions news = Ok tt <-> existsb is_new news = false.
Proof.
  unfold export_new_versions. destruct (existsb is_new news); split;
    intro H; try reflexivity; discriminate H.
Qed.

Lemma check_feed_versions_cases (existing : pydict) (db : list db_row) :
  check_feed_versions db existing = ([], [])
  \/ exists dups news,
       classify_versions existing db = Ok (dups, news)
       /\ existsb is_new news = false
       /\ check_feed_versions db existing = (dups, news).
Proof.
  unfold check_feed_versions.
  destruct (classify_versions existing db) as [[dups news]|e]; [|now left].
  cbn [bind snd]. unfold export_new_versions.
  destruct (existsb is_new news) eqn:En; [now left|].
  right. exists dups, news. split; [reflexivity|]. split; [exact En | reflexivity].
Qed.

(** X13: [check_feed_versions] reports a row unchanged only when the
    directory knows its feed under a string identifier with a hash equal to
    the fetched one, and then only if every fetched row is a row whose feed
    the directory knows with a hash.  When the loop raises nothing and no
    row gets the status ['new'], the two lists are the rows of status
    ['match'] and the other rows, each in the order of the rows.  When some
    row gets the status ['new'] (its feed is not in the directory, or has
    no hash there), the export of the new versions raises and both lists
    come back empty; so they do when the test raises on a row. *)
Theorem check_feed_versions_partition (existing : pydict) (db : list db_row) :
  (forall dups news,
     classify_versions existing db = Ok (dups, news) ->
     subseq dups db /\ subseq (map fst news) db
     /\ (List.length dups + List.length news = List.length db)%nat
     /\ (forall row, In row dups -> row_status existing row = Ok StatusMatch)
     /\ (forall row s, In (row, s) news ->
           row_status existing row = Ok s /\ s <> StatusMatch)
     /\ (existsb is_new news = false ->
         check_feed_versions db existing = (dups, news))
     /\ (existsb is_new news = true ->
         check_feed_versions db existing = ([], [])))
  /\ (forall rows bad more e,
        db = (rows ++ bad :: more)%list ->
        row_status existing bad = Raise e ->
        check_feed_versions db existing = ([], []))
  /\ (forall rows bad more,
        db = (rows ++ bad :: more)%list ->
        row_status existing bad = Ok StatusNew ->
        check_feed_versions db existing = ([], []))
  /\ (fst (check_feed_versions db existing) <> [] ->
      forall row, In row db ->
        exists fid data fv sha1,
          onestop_id row = VStr fid
          /\ lookup fid existing = Some data /\ truthy data = true
          /\ get_default data "feed_version" (VDict []) = Ok fv
          /\ get fv "sha1" = Ok (Some sha1) /\ truthy sha1 = true
          /\ (In row (fst (check_feed_versions db existing))
              <-> py_eqb sha1 (db_sha1 row) = true)).
Proof.
  split; [|split; [|split]].
  - intros dups news H.
    destruct (classify_versions_facts _ _ _ _ H) as [H1 [H2 [H3 [H4 [H5 _]]]]].
    repeat split; try assumption; try (now apply (H5 row s)).
    + intro En. unfold check_feed_versions, export_new_versions.
      rewrite H. cbn [bind snd]. now rewrite En.
    + intro En. unfold check_feed_versions, export_new_versions.
      rewrite H. cbn [bind snd]. now rewrite En.
  - intros rows bad more e -> Hb.
    destruct (classify_versions_raises existing rows more bad e Hb) as [e' He].
    unfold check_feed_versions. now rewrite He.
  - intros rows bad more -> Hb.
    destruct (check_feed_versions_cases existing (rows ++ bad :: more))
      as [H|[dups [news [Hc [En _]]]]]; [exact H|].
    exfalso.
    destruct (classify_versions_facts _ _ _ _ Hc) as [_ [_ [_ [H4 [H5 H6]]]]].
    assert (Hin : In (bad, StatusNew) news \/ In bad dups).
    { clear En H4 H5 H6. revert dups news Hc.
      induction rows as [|row rows IH]; intros dups news Hc.
      - cbn [app classify_versions] in Hc. rewrite Hb in Hc. cbn [bind] in Hc.
        inv_bind Hc. injection Hc as <- <-. left. now left.
      - cbn [app classify_versions] in Hc. do 2 inv_bind Hc.
        destruct p as [d n].
        destruct (IH d n eq_refl) as [Hn|Hd];
          destruct v; injection Hc as <- <-; cbn [fst snd];
          first [left; assumption | left; right; assumption
                | right; assumption | right; right; assumption]. }
    destruct Hin as [Hn|Hd].
    + assert (Ht : existsb is_new news = true)
        by (apply existsb_exists; exists (bad, StatusNew); now split).
      congruence.
    + specialize (H4 _ Hd). congruence.
  - intros Hne row Hin.
    destruct (check_feed_versions_cases existing db)
      as [H|[dups [news [Hc [En Hr]]]]]; [rewrite H in Hne; now elim Hne|].
    destruct (classify_versions_facts _ _ _ _ Hc) as [_ [_ [_ [H4 [H5 H6]]]]].
    destruct (H6 row Hin) as [s Hs].
    assert (Hn : s <> StatusNew).
    { intros ->.
      assert (Hm : In (row, StatusNew) news \/ In row dups).
      { clear En Hr H4 H5 H6 Hne. revert dups news Hc.
        induction db as [|r0 rest IH]; intros dups news Hc; [contradiction|].
        cbn [classify_versions] in Hc. do 2 inv_bind Hc. destruct p as [d n].
        destruct Hin as [<-|Hin].
        - rewrite Hs in E. injection E as <-. injection Hc as <- <-.
          left. now left.
        - destruct (IH Hin d n eq_refl) as [Hn|Hd];
            destruct v; injection Hc as <- <-; cbn [fst snd];
            first [left; assumption | left; right; assumption
                  | right; assumption | right; right; assumption]. }
      destruct Hm as [Hm|Hm].
      - assert (Ht : existsb is_new news = true)
          by (apply existsb_exists; exists (row, StatusNew); now split).
        congruence.
      - specialize (H4 _ Hm). congruence. }
    destruct (row_status_known _ _ _ Hs Hn)
      as [fid [data [fv [sha1 [K1 [K2 [K3 [K4 [K5 [K6 [K7 K8]]]]]]]]]]].
    exists fid, data, fv, sha1. repeat split; try assumption.
    + rewrite Hr. cbn [fst]. intro Hd. apply K7.
      specialize (H4 _ Hd). congruence.
    + intro He. rewrite Hr. cbn [fst]. specialize (K8 He). subst s.
      clear En Hr H4 H5 H6 Hne Hn K7. revert dups news Hc.
      induction db as [|r0 rest IH]; intros dups news Hc; [contradiction|].
      cbn [classify_versions] in Hc. do 2 inv_bind Hc. destruct p as [d n].
      destruct Hin as [<-|Hin].
      * rewrite Hs in E. injection E as <-. injection Hc as <- <-. now left.
      * specialize (IH Hin d n eq_refl).
        destruct v; injection Hc as <- <-; cbn [fst]; [now right | | ]; assumption.
Qed.

Lemma check_feed_versions_sample :
  check_feed_versions fetched_rows directory_bc
  = ([ {| onestop_id := VStr "f-b~fr"; db_sha1 := VStr "h1";
          db_url := VStr "http://x/a.zip"; db_size_bytes := VInt 1000 |} ],
     [ ({| onestop_id := VStr "f-c~fr"; db_sha1 := VStr "h3";
           db_url := VStr "http://x/a.zip"; db_size_bytes := VInt 2000 |},
        StatusChanged (VStr "h2")) ])
  /\ check_feed_versions fetched_rows directory_b = ([], [])
  /\ check_feed_versions (fetched_rows ++ [row_without_version])%list
       directory_null_version
     = ([], []).
Proof.
  split; [|split].
  - destruct (proj1 (check_feed_versions_partition directory_bc fetched_rows)
                _ _ eq_refl) as [_ [_ [_ [_ [_ [H _]]]]]].
    apply H. reflexivity.
  - apply (proj1 (proj2 (proj2 (check_feed_versions_partition directory_b fetched_rows)))
             [ {| onestop_id := VStr "f-b~fr"; db_sha1 := VStr "h1";
                  db_url := VStr "http://x/a.zip"; db_size_bytes := VInt 1000 |} ]
             {| onestop_id := VStr "f-c~fr"; db_sha1 := VStr "h3";
                db_url := VStr "http://x/a.zip"; db_size_bytes := VInt 2000 |}
             []); reflexivity.
  - apply (proj1 (proj2 (check_feed_versions_partition directory_null_version
                           (fetched_rows ++ [row_without_version])%list))
             fetched_rows row_without_version [] AttributeError);
      reflexivity.
Defined.

(** ** The directory of existing feeds *)

Lemma distinct_keys_app (feeds : keyed_feeds) (k v : value) :
  distinct_keys (feeds ++ [(k, v)])%list
  = distinct_keys feeds && negb (existsb (fun kv => py_eqb k (fst kv)) feeds).
Proof.
  induction feeds as [|[k0 v0] feeds IH]; [reflexivity|].
  cbn [app distinct_keys existsb fst]. rewrite IH, existsb_app.
  cbn [existsb fst].
  destruct (existsb (fun kv => py_eqb (fst kv) k0) feeds),
           (py_eqb k k0), (distinct_keys feeds),
           (existsb (fun kv => py_eqb k (fst kv)) feeds); reflexivity.
Qed.

Lemma collect_feeds_step (agency : value) (rest : list value) (feeds out : keyed_feeds) :
  collect_feeds (agency :: rest) feeds = Ok out ->
  collect_feeds rest feeds = Ok out
  \/ exists (feed feed_version : pydict) (feed_id : value),
       get_default agency "feed_version" (VDict []) = Ok (VDict feed_version)
       /\ lookup "feed" feed_version = Some (VDict feed)
       /\ lookup "onestop_id" feed = Some feed_id
       /\ truthy feed_id = true /\ hashable feed_id = true
       /\ existsb (fun kv => py_eqb feed_id (fst kv)) feeds = false
       /\ collect_feeds rest
            (feeds ++ [(feed_id, VDict [("feed", VDict feed);
                                        ("feed_version", VDict feed_version)])])%list
          = Ok out.
Proof.
  cbn [collect_feeds]. intro H. do 2 inv_bind H.
  destruct (truthy v) eqn:Et; cbn [andb] in H; [|now left].
  destruct o as [f|]; cbn [truthy_opt] in H; [|now left].
  destruct (truthy f) eqn:Ef; [|now left].
  cbn [or_none] in H. do 2 inv_bind H.
  destruct o as [i|]; cbn [truthy_opt andb] in H; [|now left].
  destruct (truthy i) eqn:Ei; cbn [andb] in *; [|now left].
  cbn [or_none] in *.
  destruct b; cbn [negb] in H; [now left|].
  right.
  destruct v as [| | | | |fvd]; try discriminate E0.
  destruct f as [| | | | |fd]; try discriminate E1.
  cbn [get] in E0, E1. injection E0 as E0. injection E1 as E1.
  cbn [truthy_opt] in E2. rewrite Ei in E2.
  unfold key_in in E2. destruct (hashable i) eqn:Eh; [|discriminate E2].
  injection E2 as E2.
  exists fd, fvd, i. repeat split; assumption.
Qed.

Lemma collect_feeds_shape (agencies : list value) (feeds out : keyed_feeds) :
  collect_feeds agencies feeds = Ok out ->
  distinct_keys feeds = true -> Forall built_entry feeds ->
  distinct_keys out = true /\ Forall built_entry out
  /\ (exists added, out = (feeds ++ added)%list
                    /\ (List.length added <= List.length agencies)%nat).
Proof.
  revert feeds out. induction agencies as [|agency rest IH]; intros feeds out H Hd Hb.
  - injection H as <-. repeat split; try assumption.
    exists []. now rewrite app_nil_r.
  - destruct (collect_feeds_step _ _ _ _ H)
      as [H'|[fd [fvd [i [H1 [H2 [H3 [H4 [H5 [H6 H7]]]]]]]]]].
    + destruct (IH _ _ H' Hd Hb) as [Ha [Hc [added [-> Hl]]]].
      repeat split; try assumption. exists added. split; [reflexivity|].
      cbn [List.length]. lia.
    + destruct (IH _ _ H7) as [Ha [Hc [added [-> Hl]]]].
      * rewrite distinct_keys_app, Hd, H6. reflexivity.
      * apply Forall_app. split; [exact Hb|]. constructor; [|constructor].
        exists fd, fvd. cbn [fst snd]. repeat split; try assumption.
        -- intros ->. discriminate H3.
        -- intros ->. discriminate H2.
      * repeat split; try assumption. eexists. rewrite <- app_assoc.
        split; [reflexivity|]. cbn [List.length app]. lia.
Qed.

Lemma built_directory_ok (feeds : keyed_feeds) :
  Forall built_entry feeds -> directory_ok (string_keyed feeds) = true.
Proof.
  induction 1 as [|[k v] feeds Hb _ IH]; [reflexivity|].
  destruct Hb as [fd [fvd [Hv _]]]. cbn [snd] in Hv. subst v.
  destruct k; cbn [string_keyed]; exact IH.
Qed.

Lemma existing_feeds_facts (answer : graphql_outcome) (feeds : keyed_feeds) :
  get_existing_french_feeds answer = Ok feeds ->
  distinct_keys feeds = true /\ Forall built_entry feeds
  /\ directory_ok (string_keyed feeds) = true.
Proof.
  intro H.
  assert (Hs : distinct_keys feeds = true /\ Forall built_entry feeds).
  { destruct answer as [|data].
    - injection H as <-. split; [reflexivity | constructor].
    - cbn [get_existing_french_feeds] in H. do 3 inv_bind H.
      destruct (collect_feeds_shape _ _ _ H eq_refl (Forall_nil _)) as [Ha [Hb _]].
      split; assumption. }
  destruct Hs as [Ha Hb]. repeat split; try assumption.
  now apply built_directory_ok.
Qed.

(** X14: the directory built from the answer of the API has no two equal
    keys; every entry holds a feed with a truthy, hashable [onestop_id]
    (its key) and the version that feed was found under; the directory has
    the shape the loops of [write_dmfr_file] and [check_feed_versions]
    read; and it holds at most one entry per agency of the answer. *)
Theorem existing_feeds_shape (answer : graphql_outcome) (feeds : keyed_feeds) :
  get_existing_french_feeds answer = Ok feeds ->
  distinct_keys feeds = true
  /\ Forall built_entry feeds
  /\ directory_ok (string_keyed feeds) = true
  /\ (forall data agencies,
        answer = GraphqlAnswers (VDict data) ->
        lookup "data" data = Some (VDict agencies) ->
        forall l, lookup "agencies" agencies = Some (VList l) ->
                  (List.length feeds <= List.length l)%nat).
Proof.
  intro H. destruct (existing_feeds_facts _ _ H) as [Ha [Hb Hc]].
  repeat split; try assumption.
  intros data agencies -> Hd l Hl.
  cbn [get_existing_french_feeds] in H. unfold get_default in H.
  cbn [get bind] in H. rewrite Hd in H. cbn [get bind] in H. rewrite Hl in H.
  cbn [iter bind] in H.
  destruct (collect_feeds_shape _ _ _ H eq_refl (Forall_nil _))
    as [_ [_ [added [-> Hlen]]]].
  exact Hlen.
Qed.

Lemma existing_feeds_sample :
  exists feeds,
    get_existing_french_feeds sample_answer = Ok feeds
    /\ string_keyed feeds = directory_b
    /\ distinct_keys feeds = true
    /\ (List.length feeds <= 3)%nat.
Proof.
  eexists. split; [reflexivity|]. split; [reflexivity|].
  destruct (existing_feeds_shape sample_answer _ eq_refl) as [Ha [_ [_ Hl]]].
  split; [exact Ha|].
  exact (Hl _ _ eq_refl eq_refl _ eq_refl).
Defined.

Lemma subseq_forallb (A : Type) (p : A -> bool) (l l' : list A) :
  subseq l l' -> forallb p l' = true -> forallb p l = true.
Proof.
  induction 1 as [|x l l' _ IH|x l l' _ IH]; cbn [forallb]; intro H;
    try reflexivity; apply andb_true_iff in H; destruct H as [Hx Hr].
  - now apply IH.
  - now rewrite Hx, (IH Hr).
Qed.

Lemma written_feeds_total (file : dmfr_file) (to_write : list value) :
  readable_file file = true -> forallb writable to_write = true ->
  exists preserved,
    written_feeds file to_write
    = Ok (map clean_empty_values (preserved ++ to_write)%list).
Proof.
  intros Hf Hw. destruct file as [| | |doc]; try (exists []; reflexivity);
    [discriminate Hf|].
  destruct doc as [| | | | |doc]; try discriminate Hf. cbn [readable_file] in Hf.
  destruct (lookup "feeds" doc) as [old|] eqn:El.
  - destruct old as [| | | |old|]; try discriminate Hf.
    eexists. apply written_feeds_ok; [exact El | exact Hw | exact Hf].
  - exists []. unfold written_feeds, combined_feeds, get_default. cbn [get bind].
    rewrite (feed_ids_ok _ Hw), El. reflexivity.
Qed.

Lemma created_record_writable (d : value) (existing : pydict) (r : value)
    (w : list warning) :
  create_feed_record d existing = Ok (Some r, w) -> writable r = true.
Proof.
  intro H. apply create_feed_record_inv in H.
  destruct H as [resources [rs [res [rec [_ [_ [_ [Hm ->]]]]]]]].
  destruct (merged_record_fields _ _ _ _ Hm) as [slug [url [_ [_ [Hi _]]]]].
  cbn [fst] in Hi.
  pose proof (lookup_clean_kept _ _ _ Hi (feed_id_kept slug)) as Hi'.
  cbn [writable]. now rewrite Hi'.
Qed.

Lemma created_records_writable (ds : list value) (existing : pydict)
    (new_feeds : list value) (w : list warning) :
  create_feed_records ds existing = Ok (new_feeds, w) ->
  forallb writable new_feeds = true.
Proof.
  revert new_feeds w. induction ds as [|d ds IH]; intros new_feeds w H.
  - injection H as <- <-. reflexivity.
  - cbn [create_feed_records] in H. do 2 inv_bind H.
    destruct p as [o w0]. destruct p0 as [more w1]. cbn [fst snd] in H.
    specialize (IH more w1 eq_refl).
    destruct o as [r|]; cbn [truthy_opt or_none] in H.
    + destruct (truthy r); injection H as <- <-; [|exact IH].
      cbn [forallb]. now rewrite (created_record_writable _ _ _ _ E), IH.
    + injection H as <- <-. exact IH.
Qed.

Lemma subseq_in (A : Type) (l l' : list A) (x : A) :
  subseq l l' -> In x l -> In x l'.
Proof.
  induction 1 as [|y l l' _ IH|y l l' _ IH]; cbn [In]; intro H; try tauto.
Qed.

(** X15: with the directory as [get_existing_french_feeds] returns it and
    the records as [create_feed_record] builds them, the first
    [write_dmfr_file] of [main] raises nothing, whatever the probes answer,
    when the file is absent, is a UTF-8 text that is not JSON, or decodes
    to a dict whose ["feeds"], if any, is a list of dicts with hashable
    identifiers: each record is written, stripped, unless it was skipped,
    and nothing written holds a placeholder.  On a file that is no UTF-8
    text the call raises, and nothing is written. *)
Theorem first_write_outcome (head : value -> head_outcome)
    (answer : graphql_outcome) (feeds : keyed_feeds) (gtfs_datasets : list value)
    (new_feeds : list value) (w : list warning) :
  get_existing_french_feeds answer = Ok feeds ->
  create_feed_records gtfs_datasets (string_keyed feeds) = Ok (new_feeds, w) ->
  (forall file,
     readable_file file = true ->
     exists cleaned_feeds,
       write_dmfr_file head new_feeds (string_keyed feeds) file
       = Ok (Document (VDict [("feeds", VList cleaned_feeds)]))
       /\ (forall r, In r new_feeds ->
             In (clean_empty_values r) cleaned_feeds
             \/ feed_decision head (string_keyed feeds) r = Ok Skip)
       /\ (forall c, In c cleaned_feeds -> no_placeholder c = true))
  /\ write_dmfr_file head new_feeds (string_keyed feeds) Undecodable
     = Raise ValueError.
Proof.
  intros He Hc.
  destruct (existing_feeds_facts _ _ He) as [_ [_ Hd]].
  pose proof (created_records_writable _ _ _ _ Hc) as Hw.
  destruct (feeds_to_write_total head _ _ Hw Hd) as [to_write [Ht Hin]].
  pose proof (subseq_forallb _ _ _ _ (feeds_to_write_sub _ _ _ _ Ht) Hw) as Hw'.
  split.
  - intros file Hf.
    destruct (written_feeds_total file to_write Hf Hw') as [preserved Hp].
    unfold write_dmfr_file. rewrite Ht. cbn [bind]. rewrite Hp. cbn [bind].
    eexists. split; [reflexivity|]. split.
    + intros r Hr. destruct (Hin r Hr) as [H|H]; [left | now right].
      apply in_map, in_or_app. now right.
    + intros c Hc'. apply in_map_iff in Hc'. destruct Hc' as [x [<- _]].
      apply clean_no_placeholder.
  - unfold write_dmfr_file. rewrite Ht. reflexivity.
Qed.

Lemma first_write_sample :
  exists new_feeds w cleaned_feeds,
    create_feed_records [VDict (dataset_titled "lov2")] directory_b = Ok (new_feeds, w)
    /\ write_dmfr_file head_failing new_feeds directory_b document_ab
       = Ok (Document (VDict [("feeds", VList cleaned_feeds)]))
    /\ write_dmfr_file head_failing new_feeds directory_b Undecodable
       = Raise ValueError.
Proof.
  eexists. eexists.
  assert (Hc : create_feed_records [VDict (dataset_titled "lov2")] directory_b
               = Ok (?[nf], ?[w])) by (vm_compute; reflexivity).
  destruct (first_write_outcome head_failing sample_answer
              [(VStr "f-b~fr",
                VDict [("feed", transitland_feed_b);
                       ("feed_version",
                        VDict [("sha1", VStr "h1"); ("feed", transitland_feed_b)])])]
              [VDict (dataset_titled "lov2")] _ _ eq_refl Hc)
    as [H1 H2].
  destruct (H1 document_ab eq_refl) as [cleaned [H _]].
  exists cleaned. split; [exact Hc|]. split; [exact H | exact H2].
Defined.

(** ** The second write of [main] *)

(** X16: when the version check reports a feed unchanged, the second
    [write_dmfr_file] of [main] leaves its record in the document: the
    record that the first write put there is read back and kept (stripped
    once more), because its identifier is no longer among the incoming
    ones. *)
Theorem unchanged_feed_never_removed (head1 head2 : value -> head_outcome)
    (db_results : list db_row) (new_feeds : list value) (existing : pydict)
    (file file2 : dmfr_file) (l1 : list value) (f : value) (dup : db_row) :
  new_feeds <> [] ->
  forallb writable new_feeds = true ->
  write_dmfr_file head1 new_feeds existing file
  = Ok (Document (VDict [("feeds", VList l1)])) ->
  forallb stored l1 = true ->
  main_write_and_confirm head1 head2 (Some db_results) new_feeds existing file
  = Ok file2 ->
  In dup (fst (check_feed_versions db_results existing)) ->
  In f l1 -> id_of f = onestop_id dup ->
  exists l2,
    file2 = Document (VDict [("feeds", VList l2)])
    /\ In (clean_empty_values f) l2.
Proof.
  intros Hne Hw H1 Hs Hm Hdup Hf Hid.
  unfold main_write_and_confirm in Hm. rewrite H1 in Hm. cbn [bind] in Hm.
  destruct new_feeds as [|g rest]; [now elim Hne|].
  destruct (fst (check_feed_versions db_results existing)) as [|d ds] eqn:Ed;
    [contradiction|].
  apply (remove_unchanged_keeps_feed head2 (g :: rest) existing (d :: ds) l1 f file2
           Hs Hw Hf); [|exact Hm].
  rewrite Hid. now apply in_map.
Qed.

Lemma unchanged_feed_sample :
  exists l2,
    main_write_and_confirm (head_reporting None) (head_reporting None)
      (Some fetched_rows) [feed_b'; feed_c] directory_bc document_ab
    = Ok (Document (VDict [("feeds", VList l2)]))
    /\ In feed_b' l2.
Proof.
  destruct (unchanged_feed_never_removed (head_reporting None) (head_reporting None)
              fetched_rows [feed_b'; feed_c] directory_bc document_ab
              (Document (VDict [("feeds", VList [feed_a; feed_b'; feed_c])]))
              [feed_a; feed_b'; feed_c] feed_b'
              {| onestop_id := VStr "f-b~fr"; db_sha1 := VStr "h1";
                 db_url := VStr "http://x/a.zip"; db_size_bytes := VInt 1000 |})
    as [l2 [Hl Hin]].
  - discriminate.
  - reflexivity.
  - reflexivity.
  - reflexivity.
  - reflexivity.
  - left. reflexivity.
  - right. left. reflexivity.
  - reflexivity.
  - exists l2. injection Hl as <-. split; [reflexivity | exact Hin].
Defined.

(** ** The directory and the merge *)

Lemma string_keyed_in (feeds : keyed_feeds) (fid : string) (v : value) :
  In (fid, v) (string_keyed feeds) -> In (VStr fid, v) feeds.
Proof.
  induction feeds as [|[k x] feeds IH]; [contradiction|].
  destruct k; cbn [string_keyed]; try (intro H; right; now apply IH).
  intros [H|H]; [left; now injection H as -> -> | right; now apply IH].
Qed.

Lemma built_entry_lookup (feeds : keyed_feeds) (fid : string) (v : value) :
  Forall built_entry feeds ->
  lookup fid (string_keyed feeds) = Some v ->
  exists feed feed_version : pydict,
    v = VDict [("feed", VDict feed); ("feed_version", VDict feed_version)].
Proof.
  intros Hb Hl. apply lookup_in, string_keyed_in in Hl.
  rewrite Forall_forall in Hb. destruct (Hb _ Hl) as [fd [fvd [Hv _]]].
  exists fd, fvd. exact Hv.
Qed.

Lemma merged_record_unmerged (dataset : value) (feeds : keyed_feeds) (res : value) :
  Forall built_entry feeds ->
  merged_record dataset (string_keyed feeds) res = merged_record dataset [] res.
Proof.
  intro Hb. unfold merged_record.
  destruct (getitem dataset "slug") as [slug|e]; [|reflexivity]. cbn [bind].
  destruct (str_lower slug) as [original_slug|e]; [|reflexivity]. cbn [bind].
  destruct (getitem res "url") as [url|e]; [|reflexivity]. cbn [bind].
  destruct (get dataset "title") as [title|e]; [|reflexivity]. cbn [bind].
  destruct (getitem dataset "id") as [dataset_id|e]; [|reflexivity]. cbn [bind].
  destruct (map_license ("f-" ++ name_component original_slug) dataset)
    as [lw|e]; [|reflexivity]. cbn [bind lookup].
  destruct (lookup ("f-" ++ name_component original_slug) (string_keyed feeds))
    as [existing_feed|] eqn:El; [|reflexivity].
  destruct (built_entry_lookup _ _ _ Hb El) as [fd [fvd ->]].
  cbn [truthy]. unfold preserve_existing, merge_tags, preserve, get_default.
  cbn [get lookup String.eqb Ascii.eqb Bool.eqb bind truthy_opt andb fst snd].
  rewrite andb_false_r, app_nil_r. reflexivity.
Qed.

(** X17: an entry of the directory that [get_existing_french_feeds] builds
    holds the two keys [feed] and [feed_version] and no other, while the
    merge of [create_feed_record] reads [urls], [feed_versions],
    [feed_state], [name], [license], [languages] and [tags] of the entry
    itself.  So with that directory the record and the warnings are those
    obtained with no directory at all: nothing of the existing feed is
    carried over. *)
Theorem directory_never_merged (answer : graphql_outcome) (feeds : keyed_feeds)
    (dataset : value) :
  get_existing_french_feeds answer = Ok feeds ->
  create_feed_record dataset (string_keyed feeds) = create_feed_record dataset [].
Proof.
  intro H. destruct (existing_feeds_facts _ _ H) as [_ [Hb _]].
  unfold create_feed_record.
  destruct (get_default dataset "resources" (VList [])) as [resources|e];
    [|reflexivity]. cbn [bind].
  destruct (iter resources) as [rs|e]; [|reflexivity]. cbn [bind].
  destruct (first_static_gtfs rs) as [o|e]; [|reflexivity]. cbn [bind].
  destruct (truthy_opt o); [|reflexivity].
  now rewrite (merged_record_unmerged _ _ _ Hb).
Qed.

Lemma directory_never_merged_sample :
  create_feed_record dataset_b directory_b = create_feed_record dataset_b []
  /\ exists r w, create_feed_record dataset_b directory_b = Ok (Some r, w)
                 /\ get r "id" = Ok (Some (VStr "f-b~fr")).
Proof.
  split.
  - exact (directory_never_merged sample_answer
             [(VStr "f-b~fr",
               VDict [("feed", transitland_feed_b);
                      ("feed_version",
                       VDict [("sha1", VStr "h1"); ("feed", transitland_feed_b)])])]
             dataset_b eq_refl).
  - eexists. eexists. split; vm_compute; reflexivity.
Defined.
